(** * Manifest generators of the pixelSound repository

    The repository ships eight one-off Node scripts (one per sound library:
    BoomLibrary, Kenney, Other, FilmCow, H360s, Amiga Music, Adobe,
    XDSoundKit).  Each walks the library's folder, derives a display name
    and a tag list for every audio file and writes [manifest.json].

    The scripts are copies of one another that differ in a handful of
    places; the embedding below keeps one engine and selects the differing
    parts by the [library] that is being generated, quoting the source lines
    at each such place.

    Strings are byte strings.  Case conversion and the regular expressions
    [/[_-]/g] and [/\b\w/g] are those of JavaScript on ASCII text; bytes of
    non-ASCII characters are neither word characters (as in JavaScript) nor
    changed by the case conversions. *)

From Stdlib Require Import List String Ascii ZArith Lia Bool Arith.
From Stdlib Require Import DecimalString.
Import ListNotations.
Local Open Scope string_scope.
Local Open Scope nat_scope.
Local Open Scope list_scope.

(* ================================================================== *)
(** ** JavaScript strings *)

Module Js.

Definition code (c : ascii) : nat := nat_of_ascii c.

Definition between (lo hi : nat) (c : ascii) : bool :=
  (lo <=? code c) && (code c <=? hi).

Definition is_upper : ascii -> bool := between 65 90.
Definition is_lower : ascii -> bool := between 97 122.
Definition is_digit : ascii -> bool := between 48 57.

(** [\w] of a JavaScript regular expression: [[A-Za-z0-9_]]. *)
Definition is_word (c : ascii) : bool :=
  is_upper c || is_lower c || is_digit c || (code c =? 95).

Definition lower_char (c : ascii) : ascii :=
  if is_upper c then ascii_of_nat (code c + 32) else c.

Definition upper_char (c : ascii) : ascii :=
  if is_lower c then ascii_of_nat (code c - 32) else c.

Fixpoint smap (f : ascii -> ascii) (s : string) : string :=
  match s with
  | EmptyString => EmptyString
  | String c t => String (f c) (smap f t)
  end.

(** [s.toLowerCase()] *)
Definition toLowerCase : string -> string := smap lower_char.

(** [s.includes(sub)] *)
Fixpoint includes (s sub : string) : bool :=
  prefix sub s ||
  match s with
  | EmptyString => false
  | String _ t => includes t sub
  end.

(** [s.slice(1)] *)
Definition slice1 (s : string) : string :=
  match s with
  | EmptyString => EmptyString
  | String _ t => t
  end.

(** [s.slice(i)] for [0 <= i]. *)
Definition slice_from (i : nat) (s : string) : string :=
  substring i (String.length s - i) s.

(** [s.replace(pat, '')] with a string pattern: the first occurrence of
    [pat] is removed, the rest of [s] is kept. *)
Fixpoint remove_first (pat s : string) : string :=
  if prefix pat s then slice_from (String.length pat) s
  else match s with
       | EmptyString => EmptyString
       | String c t => String c (remove_first pat t)
       end.

(** [s.replace(/[_-]/g, ' ')] *)
Definition sep_to_space (c : ascii) : ascii :=
  if (code c =? 95) || (code c =? 45) then " "%char else c.
Definition replace_separators : string -> string := smap sep_to_space.

(** [s.replace(/_/g, ' ')] and [s.replace(/-/g, ' ')] *)
Definition replace_underscores : string -> string :=
  smap (fun c => if code c =? 95 then " "%char else c).
Definition replace_hyphens : string -> string :=
  smap (fun c => if code c =? 45 then " "%char else c).

(** [s.replace(/\b\w/g, l => l.toUpperCase())].  The pattern matches a
    word character that stands at the start of the string or after a
    character that is no word character; [prev] tells whether the
    character before the current one is a word character. *)
Fixpoint capitalize_from (prev : bool) (s : string) : string :=
  match s with
  | EmptyString => EmptyString
  | String c t =>
      String (if is_word c && negb prev then upper_char c else c)
             (capitalize_from (is_word c) t)
  end.
Definition capitalizeWords : string -> string := capitalize_from false.

(** JavaScript truthiness of a string: the empty string is falsy. *)
Definition truthy (s : string) : bool :=
  match s with
  | EmptyString => false
  | String _ _ => true
  end.

(** [[...new Set(tags)]]: the elements are added to the set from left to
    right, adding one that the set holds already changes nothing, and the
    spread lists the set in insertion order. *)
Definition set_add (acc : list string) (x : string) : list string :=
  if existsb (String.eqb x) acc then acc else acc ++ [x].
Definition unique (tags : list string) : list string :=
  fold_left set_add tags [].

End Js.

(* ================================================================== *)
(** ** Node's [path] module, on names of directory entries

    The names handed to [path.extname] and [path.basename] by the scripts
    are names returned by [fs.readdirSync]: they hold no [/]. *)

Module NodePath.

(** Index of the last [.] of [s]. *)
Fixpoint last_dot_from (i : nat) (s : string) (found : option nat)
  : option nat :=
  match s with
  | EmptyString => found
  | String c t =>
      last_dot_from (S i) t (if Js.code c =? 46 then Some i else found)
  end.
Definition last_dot (s : string) : option nat := last_dot_from 0 s None.

(** [path.extname(file)]: from the last dot to the end; empty when there
    is no dot, when the only dot is the first character, and for [..]. *)
Definition extname (file : string) : string :=
  match last_dot file with
  | None => EmptyString
  | Some O => EmptyString
  | Some i => if String.eqb file ".." then EmptyString
              else Js.slice_from i file
  end.

Definition is_suffix (suffix s : string) : bool :=
  (String.length suffix <=? String.length s) &&
  String.eqb (Js.slice_from (String.length s - String.length suffix) s) suffix.

(** [path.basename(file, suffix)] *)
Definition basename (file suffix : string) : string :=
  if (0 <? String.length suffix) && (String.length suffix <=? String.length file)
  then if String.eqb suffix file then EmptyString
       else if is_suffix suffix file
            then substring 0 (String.length file - String.length suffix) file
            else file
  else file.

(** [path.join] of names of directory entries. *)
Definition join (segments : list string) : string := String.concat "/" segments.

End NodePath.


(* ================================================================== *)
(** ** The file system read by a script

    A directory lists its entries in the order [fs.readdirSync] returns
    them.  An entry is a regular file or a directory; both carry the size
    that [fs.statSync] reports for them (the Kenney script stats whatever
    name carries an audio extension).  The entries of one directory carry
    distinct names, so that the path [dirPath/item.name] denotes [item]. *)

#[local] Set Warnings "-register-all".

Inductive entry : Type :=
| File (file : string) (bytes : Z)
| Dir (dir : string) (bytes : Z) (items : list entry).

Definition entry_name (e : entry) : string :=
  match e with
  | File file _ => file
  | Dir dir _ _ => dir
  end.

(** [dirent.isDirectory()] *)
Definition isDirectory (e : entry) : bool :=
  match e with
  | File _ _ => false
  | Dir _ _ _ => true
  end.

(** What a path denotes: nothing ([None]), a file or a directory. *)
Definition target : Type := option entry.

(** [path.join(p, name)] as a target: the entry of [p] called [name]. *)
Definition child (name : string) (p : target) : target :=
  match p with
  | Some (Dir _ _ items) => find (fun e => String.eqb (entry_name e) name) items
  | _ => None
  end.

(** Errors thrown by the synchronous [fs] calls. *)
Inductive errno : Type := ENOENT | ENOTDIR.

Inductive result (A : Type) : Type :=
| Ok (a : A)
| Throw (e : errno).
Arguments Ok {A} a.
Arguments Throw {A} e.

Definition bind {A B : Type} (r : result A) (k : A -> result B) : result B :=
  match r with
  | Ok a => k a
  | Throw e => Throw e
  end.

Notation "x <- r ;; k" := (bind r (fun x => k))
  (at level 100, r at next level, right associativity).

(** [fs.existsSync(p)] *)
Definition existsSync (p : target) : bool :=
  match p with
  | None => false
  | Some _ => true
  end.

(** [fs.readdirSync(p)] and [fs.readdirSync(p, { withFileTypes: true })] *)
Definition readdirSync (p : target) : result (list entry) :=
  match p with
  | None => Throw ENOENT
  | Some (File _ _) => Throw ENOTDIR
  | Some (Dir _ _ items) => Ok items
  end.

(** [fs.writeFileSync(path.join(p, 'manifest.json'), content)]: the file is
    created or overwritten inside [p], which has to be a directory.  The
    result is the content of the file after the call. *)
Definition writeFileSync (p : target) (content : string) : result string :=
  match p with
  | None => Throw ENOENT
  | Some (File _ _) => Throw ENOTDIR
  | Some (Dir _ _ _) => Ok content
  end.

(* ================================================================== *)
(** ** Records and the state of a run *)

Record AudioRecord : Type := mkRecord {
  id : Z;
  path : string;
  name : string;
  category : string;
  format : string;
  size : Z;
  duration : Z;
  rating : Z;
  tags : list string;
  description : string;
  library : string;
  dateAdded : string
}.

(** The globals [manifest] and [id] of a script, and the number of
    [new Date()] calls made so far. *)
Record state : Type := mkState {
  manifest : list AudioRecord;
  id_counter : Z;
  dates : nat
}.

Definition initial : state :=
  {| manifest := []; id_counter := 1%Z; dates := 0 |}.

(** The clock of a run: [clock k] is what [new Date().toISOString()] gives
    at the [k]-th call. *)
Definition clock : Type := nat -> string.

(** The eight scripts. *)
Inductive generator : Type :=
| BoomLibrary | Kenney | Other | FilmCow | H360s | AmigaMusic | Adobe | XDSoundKit.

(** The folder under [audio/], which is also the [library] field. *)
Definition folder (g : generator) : string :=
  match g with
  | BoomLibrary => "BoomLibrary"
  | Kenney => "Kenney"
  | Other => "Other"
  | FilmCow => "FilmCow"
  | H360s => "H360s"
  | AmigaMusic => "Amiga Music"
  | Adobe => "Adobe"
  | XDSoundKit => "XDSoundKit"
  end.

(** The library as the [description] spells it. *)
Definition title (g : generator) : string :=
  match g with
  | BoomLibrary => "Boom Library"
  | _ => folder g
  end.

(* ================================================================== *)
(** ** Tag rules

    Every script is a sequence of statements
    [if (x.includes('a') || x.includes('b')) tags.push('t1', 't2');]
    where [x] is the lowercased file stem or the lowercased category; the
    Kenney script also compares the lowercased subcategory. *)

Inductive rule : Type :=
| NameHas (subs pushed : list string)
| CatHas (subs pushed : list string)
| SubcatIs (s : string) (pushed : list string).

Definition fires (lowerName lowerCat lowerSubcat : string) (r : rule) : bool :=
  match r with
  | NameHas subs _ => existsb (Js.includes lowerName) subs
  | CatHas subs _ => existsb (Js.includes lowerCat) subs
  | SubcatIs s _ => String.eqb lowerSubcat s
  end.

Definition pushed_by (r : rule) : list string :=
  match r with
  | NameHas _ pushed | CatHas _ pushed | SubcatIs _ pushed => pushed
  end.

Definition apply_rule (lowerName lowerCat lowerSubcat : string)
  (tags : list string) (r : rule) : list string :=
  if fires lowerName lowerCat lowerSubcat r then tags ++ pushed_by r else tags.

(** Rules of the Boom script: src/scripts/generateBoomLibraryManifest.js, lines 49-138. *)
Definition BoomLibrary_rules : list rule :=
  [
    (* Category-specific tags *)
    CatHas ["cinematic hits"] ["hit"; "impact"; "cinematic"];
    CatHas ["cinematic metal"] ["metal"; "impact"; "cinematic"];
    CatHas ["cinematic trailers"] ["trailer"; "cinematic"; "epic"];
    CatHas ["construction kit"] ["construction kit"; "source"; "raw"];
    CatHas ["designed"] ["designed"; "processed"; "ready"];
    CatHas ["impacts"] ["impact"; "hit"; "collision"];
    (* Name-based tags *)
    NameHas ["boom"] ["boom"; "low"; "impact"];
    NameHas ["hit"] ["hit"; "impact"; "strike"];
    NameHas ["drum"] ["drum"; "percussion"; "rhythm"];
    NameHas ["element"] ["element"; "source"];
    NameHas ["fire"] ["fire"; "flame"; "heat"];
    NameHas ["metal"] ["metal"; "steel"; "iron"];
    NameHas ["crash"] ["crash"; "collision"; "impact"];
    NameHas ["chain"] ["chain"; "metal"; "rattle"];
    NameHas ["smash"] ["smash"; "destruction"; "impact"];
    NameHas ["damper"] ["damper"; "metal"; "resonance"];
    NameHas ["gas"] ["gas"; "industrial"; "pressure"];
    NameHas ["bottle"] ["bottle"; "container"; "metal"];
    NameHas ["wood"] ["wood"; "timber"; "organic"];
    NameHas ["table"] ["table"; "furniture"; "wood"];
    NameHas ["distorted"] ["distorted"; "processed"; "gritty"];
    NameHas ["massive"] ["massive"; "large"; "heavy"];
    NameHas ["scifi"; "sci-fi"] ["scifi"; "futuristic"; "technology"];
    NameHas ["slam"] ["slam"; "impact"; "forceful"];
    NameHas ["bell"] ["bell"; "chime"; "metal"];
    NameHas ["car"] ["car"; "vehicle"; "automotive"];
    NameHas ["hood"] ["hood"; "car"; "metal"];
    NameHas ["container"] ["container"; "metal"; "industrial"];
    NameHas ["door"] ["door"; "metal"; "opening"];
    NameHas ["pole"] ["pole"; "metal"; "rod"];
    NameHas ["iron"] ["iron"; "metal"; "heavy"];
    NameHas ["hammer"] ["hammer"; "tool"; "impact"];
    NameHas ["bicycle"] ["bicycle"; "vehicle"; "transport"];
    NameHas ["piano"] ["piano"; "instrument"; "keys"];
    NameHas ["sustained"] ["sustained"; "ringing"; "resonance"];
    NameHas ["plate"] ["plate"; "metal"; "sheet"];
    NameHas ["sheet"] ["sheet"; "metal"; "thin"];
    NameHas ["slidedoor"] ["slide door"; "mechanism"; "metal"];
    NameHas ["trash"] ["trash"; "garbage"; "metal"];
    NameHas ["rattle"] ["rattle"; "shake"; "metal"];
    NameHas ["hollow"] ["hollow"; "empty"; "resonant"];
    NameHas ["crate"] ["crate"; "box"; "container"];
    NameHas ["cavern"] ["cavern"; "cave"; "reverb"];
    NameHas ["flame"] ["flame"; "fire"; "breath"];
    NameHas ["meteorite"] ["meteorite"; "space"; "impact"];
    NameHas ["wobbler"] ["wobbler"; "unstable"; "vibration"];
    NameHas ["anvil"] ["anvil"; "metal"; "forge"];
    NameHas ["angry"] ["angry"; "aggressive"; "intense"];
    NameHas ["aquaphone"] ["aquaphone"; "water"; "instrument"];
    NameHas ["harsh"] ["harsh"; "gritty"; "aggressive"];
    NameHas ["glass"] ["glass"; "fragile"; "break"];
    NameHas ["debris"] ["debris"; "fragments"; "scattered"];
    NameHas ["orchestra"] ["orchestra"; "symphonic"; "cinematic"];
    NameHas ["grancassa"] ["grancassa"; "drum"; "orchestral"];
    NameHas ["synth"] ["synth"; "electronic"; "synthesizer"];
    NameHas ["voice"] ["voice"; "vocal"; "human"];
    NameHas ["choir"] ["choir"; "vocal"; "group"];
    NameHas ["whisper"] ["whisper"; "voice"; "soft"];
    NameHas ["rise"] ["rise"; "building"; "tension"];
    NameHas ["tutti"] ["tutti"; "orchestra"; "full"];
    NameHas ["chaos"] ["chaos"; "disorder"; "intense"];
    NameHas ["stinger"] ["stinger"; "hit"; "short"];
    NameHas ["fast"] ["fast"; "quick"; "rapid"];
    NameHas ["whoosh"] ["whoosh"; "sweep"; "movement"];
    NameHas ["torch"] ["torch"; "fire"; "flame"];
    NameHas ["flange"] ["flange"; "effect"; "processed"];
    NameHas ["speaker"] ["speaker"; "audio"; "electronic"];
    NameHas ["creature"] ["creature"; "monster"; "beast"];
    NameHas ["big"] ["big"; "large"; "massive"];
    NameHas ["war"] ["war"; "battle"; "combat"];
    NameHas ["stomp"] ["stomp"; "foot"; "impact"];
    NameHas ["silverwind"] ["silverwind"; "ethereal"; "sweep"];
    NameHas ["brass"] ["brass"; "instrument"; "metal"];
    NameHas ["demon"] ["demon"; "dark"; "evil"];
    NameHas ["firesworn"] ["firesworn"; "fire"; "magical"];
    NameHas ["arnigator"] ["arnigator"; "creature"; "aggressive"];
    NameHas ["soft"] ["soft"; "gentle"; "subtle"];
    NameHas ["slightly"] ["slightly"; "subtle"; "light"];
    NameHas ["impact"] ["impact"; "hit"; "collision"];
    NameHas ["low"] ["low"; "bass"; "deep"];
    NameHas ["mid"] ["mid"; "medium"; "middle"];
    NameHas ["high"] ["high"; "treble"; "bright"];
    NameHas ["loose"] ["loose"; "relaxed"; "free"];
    NameHas ["long"] ["long"; "extended"; "sustained"];
    NameHas ["large"] ["large"; "big"; "massive"];
    NameHas ["medium"] ["medium"; "mid"; "average"];
    NameHas ["small"] ["small"; "little"; "tiny"]
  ].

(** Rules of the Kenney script: src/scripts/generateKenneyManifest.js, lines 32-135. *)
Definition Kenney_rules : list rule :=
  [
    (* Add category-based tags *)
    CatHas ["impact"] ["impact"; "hit"];
    CatHas ["interface"] ["ui"; "interface"];
    CatHas ["rpg"] ["rpg"; "fantasy"];
    CatHas ["sci-fi"] ["scifi"; "futuristic"];
    CatHas ["digital"] ["digital"; "retro"];
    CatHas ["ui"] ["ui"; "interface"];
    CatHas ["voiceover"] ["voiceover"; "voice"];
    (* Add subcategory tags *)
    SubcatIs "male" ["male"; "voice"];
    SubcatIs "female" ["female"; "voice"];
    (* Add name-based tags *)
    NameHas ["footstep"] ["footstep"; "walk"];
    NameHas ["door"] ["door"; "transition"];
    NameHas ["laser"] ["laser"; "weapon"];
    NameHas ["engine"] ["engine"; "machine"];
    NameHas ["explosion"] ["explosion"];
    NameHas ["click"] ["click"];
    NameHas ["switch"] ["switch"];
    NameHas ["metal"] ["metal"];
    NameHas ["glass"] ["glass"];
    NameHas ["wood"] ["wood"];
    NameHas ["book"] ["book"];
    NameHas ["cloth"] ["cloth"; "fabric"];
    NameHas ["knife"] ["knife"; "weapon"];
    NameHas ["coin"] ["coin"; "money"];
    NameHas ["carpet"] ["carpet"];
    NameHas ["concrete"] ["concrete"];
    NameHas ["grass"] ["grass"; "nature"];
    NameHas ["snow"] ["snow"; "winter"];
    NameHas ["punch"] ["punch"; "combat"];
    NameHas ["bell"] ["bell"];
    NameHas ["plate"] ["plate"];
    NameHas ["plank"] ["plank"; "wood"];
    NameHas ["tin"] ["tin"; "metal"];
    NameHas ["mining"] ["mining"; "dig"];
    NameHas ["soft"] ["soft"];
    NameHas ["heavy"] ["heavy"];
    NameHas ["light"] ["light"];
    NameHas ["medium"] ["medium"];
    NameHas ["computer"] ["computer"; "digital"];
    NameHas ["forcefield"] ["forcefield"];
    NameHas ["slime"] ["slime"; "liquid"];
    NameHas ["thruster"] ["thruster"; "fire"];
    NameHas ["space"] ["space"];
    NameHas ["retro"] ["retro"];
    NameHas ["large"] ["large"];
    NameHas ["small"] ["small"];
    NameHas ["circular"] ["circular"];
    NameHas ["low"] ["low"];
    NameHas ["back"] ["navigation"];
    NameHas ["close"] ["transition"];
    NameHas ["open"] ["transition"];
    NameHas ["confirmation"] ["confirmation"; "success"];
    NameHas ["error"] ["error"; "notification"];
    NameHas ["drop"] ["drop"];
    NameHas ["glitch"] ["glitch"; "digital"];
    NameHas ["maximize"] ["window"];
    NameHas ["minimize"] ["window"];
    NameHas ["question"] ["question"; "notification"];
    NameHas ["scratch"] ["scratch"];
    NameHas ["scroll"] ["scroll"];
    NameHas ["select"] ["select"];
    NameHas ["toggle"] ["toggle"];
    NameHas ["tick"] ["tick"; "clock"];
    NameHas ["bong"] ["notification"];
    NameHas ["pluck"] ["pluck"];
    NameHas ["belt"] ["belt"; "leather"];
    NameHas ["handle"] ["handle"];
    NameHas ["chop"] ["chop"; "action"];
    NameHas ["creak"] ["creak"];
    NameHas ["draw"] ["draw"];
    NameHas ["slice"] ["slice"];
    NameHas ["latch"] ["latch"];
    NameHas ["pot"] ["pot"];
    NameHas ["powerup"] ["powerup"; "game"];
    NameHas ["zap"] ["zap"];
    NameHas ["trash"] ["trash"];
    NameHas ["war_"] ["war"; "combat"];
    NameHas ["game_over"] ["gameover"];
    NameHas ["you_win"] ["win"; "success"];
    NameHas ["you_lose"] ["lose"; "fail"];
    NameHas ["mission"] ["mission"];
    NameHas ["level"] ["level"];
    NameHas ["round"] ["round"];
    NameHas ["ready"] ["ready"];
    NameHas ["set"] ["set"];
    NameHas ["go"] ["go"];
    NameHas ["correct"] ["correct"; "success"];
    NameHas ["wrong"] ["wrong"; "fail"];
    NameHas ["congratulations"] ["congratulations"; "success"];
    NameHas ["hurry"] ["hurry"; "time"];
    NameHas ["tie"] ["tie"];
    NameHas ["highscore"] ["highscore"; "score"];
    NameHas ["objective"] ["objective"];
    NameHas ["medic"] ["medic"];
    NameHas ["sniper"] ["sniper"; "weapon"];
    NameHas ["reloading"] ["reloading"];
    NameHas ["backup"] ["backup"];
    NameHas ["cover"] ["cover"];
    NameHas ["fire"] ["fire"];
    NameHas ["target"] ["target"]
  ].

(** Rules of the Other script: src/unnamed/part_000, lines 49-106. *)
Definition Other_rules : list rule :=
  [
    (* Game-specific tags *)
    NameHas ["bomb jack"] ["bomb jack"; "arcade"; "platformer"; "mark cooksey"];
    NameHas ["frankie goes to hollywood"] ["frankie goes to hollywood"; "fred gray"; "c64"; "commodore"];
    NameHas ["hyper sports"] ["hyper sports"; "martin galway"; "sports"; "olympic"];
    NameHas ["lazy jones"] ["lazy jones"; "david whittaker"; "c64"; "commodore"];
    NameHas ["super mario"] ["super mario"; "koji kondo"; "nintendo"; "nes"];
    NameHas ["yie ar kung fu"] ["yie ar kung fu"; "martin galway"; "fighting"; "arcade"];
    (* Composer tags *)
    NameHas ["mark cooksey"] ["mark cooksey"; "composer"];
    NameHas ["fred gray"] ["fred gray"; "composer"];
    NameHas ["martin galway"] ["martin galway"; "composer"];
    NameHas ["david whittaker"] ["david whittaker"; "composer"];
    NameHas ["koji kondo"] ["koji kondo"; "composer"];
    (* Track type tags *)
    NameHas ["theme"; "title"] ["theme"; "title"; "menu"];
    NameHas ["in-game"; "ingame"] ["in-game"; "gameplay"; "background"];
    NameHas ["loop"] ["loop"; "repeating"];
    NameHas ["sting"; "stinger"] ["sting"; "stinger"; "short"; "jingle"];
    NameHas ["string"] ["string"; "synth"; "melody"];
    NameHas ["complete"; "complete sting"] ["complete"; "success"; "victory"];
    NameHas ["game over"] ["game over"; "fail"; "end"];
    NameHas ["level complete"; "level"] ["level"; "stage"; "complete"];
    NameHas ["song"] ["song"; "track"; "music"];
    (* Super Mario specific tags *)
    NameHas ["castle"] ["castle"; "dungeon"; "boss"];
    NameHas ["overworld"] ["overworld"; "main"; "outdoor"];
    NameHas ["underwater"] ["underwater"; "swimming"; "water"];
    NameHas ["underworld"] ["underworld"; "underground"; "cave"];
    NameHas ["princess"; "peach"] ["princess"; "peach"; "ending"; "victory"];
    NameHas ["superstar"] ["superstar"; "powerup"; "star"];
    NameHas ["time"] ["time"; "warning"; "urgent"];
    NameHas ["lose a life"] ["lose a life"; "death"; "fail"];
    NameHas ["full mix"] ["full mix"; "complete"; "arrangement"];
    NameHas ["pulse channel"] ["pulse channel"; "chiptune"; "nes"; "channel"];
    NameHas ["triangle channel"; "triangle wave"] ["triangle"; "bass"; "nes"; "channel"];
    NameHas ["noise channel"] ["noise"; "percussion"; "drums"; "nes"];
    (* Yie Ar Kung Fu specific tags *)
    NameHas ["kung fu"] ["kung fu"; "fighting"; "martial arts"];
    NameHas ["level start"] ["level start"; "begin"; "intro"];
    NameHas ["level complete"] ["level complete"; "victory"; "success"];
    (* Hyper Sports specific tags *)
    NameHas ["sports"] ["sports"; "athletics"; "competition"];
    (* Lazy Jones specific tags *)
    NameHas ["lazy"] ["lazy"; "relaxed"; "casual"];
    (* Frankie Goes to Hollywood specific tags *)
    NameHas ["flower power"] ["flower power"; "theme"; "psychedelic"];
    NameHas ["sobre las olas"] ["sobre las olas"; "classical"; "waltz"];
    (* Style/influence tags *)
    NameHas ["magnetic fields"] ["magnetic fields"; "influence"];
    NameHas ["jean-michel jarre"] ["jean-michel jarre"; "synth"; "electronic"; "influence"]
  ].

(** Rules of the FilmCow script: src/unnamed/part_000, lines 349-435. *)
Definition FilmCow_rules : list rule :=
  [
    (* Add category-based tags *)
    CatHas ["designed"] ["designed"; "sfx"];
    CatHas ["recorded"] ["recorded"; "foley"];
    (* Add name-based tags *)
    NameHas ["alien"] ["alien"; "scifi"];
    NameHas ["robot"] ["robot"; "mechanical"];
    NameHas ["laser"] ["laser"; "weapon"];
    NameHas ["space"] ["space"; "scifi"];
    NameHas ["sci fi"; "sci-fi"] ["scifi"];
    NameHas ["bug"] ["bug"; "insect"];
    NameHas ["goo"] ["goo"; "liquid"; "slime"];
    NameHas ["ai"] ["ai"; "computer"; "digital"];
    NameHas ["computer"] ["computer"; "digital"];
    NameHas ["machine"] ["machine"; "mechanical"];
    NameHas ["footstep"] ["footstep"; "walk"];
    NameHas ["door"] ["door"; "transition"];
    NameHas ["glass"] ["glass"];
    NameHas ["metal"] ["metal"];
    NameHas ["wood"] ["wood"];
    NameHas ["water"] ["water"; "liquid"];
    NameHas ["splash"] ["splash"; "water"];
    NameHas ["paper"] ["paper"];
    NameHas ["gun"] ["gun"; "weapon"];
    NameHas ["punch"] ["punch"; "combat"];
    NameHas ["hit"] ["hit"; "impact"];
    NameHas ["drop"] ["drop"];
    NameHas ["bell"] ["bell"];
    NameHas ["click"] ["click"; "ui"];
    NameHas ["horn"] ["horn"];
    NameHas ["lightning"] ["lightning"; "electric"];
    NameHas ["thump"] ["thump"; "impact"];
    NameHas ["communication"] ["communication"; "transmission"];
    NameHas ["atmospheric"] ["atmospheric"; "ambience"];
    NameHas ["stinger"] ["stinger"; "transition"];
    NameHas ["ocean"] ["ocean"; "water"; "ambience"];
    NameHas ["wave"] ["wave"; "water"];
    NameHas ["toilet"] ["toilet"; "bathroom"];
    NameHas ["chair"] ["chair"; "furniture"];
    NameHas ["book"] ["book"];
    NameHas ["bottle"] ["bottle"];
    NameHas ["knife"] ["knife"; "weapon"];
    NameHas ["umbrella"] ["umbrella"];
    NameHas ["velcro"] ["velcro"];
    NameHas ["teapot"] ["teapot"; "kitchen"];
    NameHas ["silverware"] ["silverware"; "kitchen"];
    NameHas ["rock"] ["rock"; "stone"];
    NameHas ["leaf"; "leaves"] ["leaf"; "nature"];
    NameHas ["grass"] ["grass"; "nature"];
    NameHas ["bush"] ["bush"; "nature"];
    NameHas ["swamp"] ["swamp"; "nature"; "ambience"];
    NameHas ["body"] ["body"; "human"];
    NameHas ["grunt"] ["grunt"; "voice"; "human"];
    NameHas ["oof"] ["oof"; "voice"; "human"];
    NameHas ["land"] ["land"; "movement"];
    NameHas ["fall"] ["fall"; "movement"];
    NameHas ["slap"] ["slap"; "impact"];
    NameHas ["sipping"; "sip"] ["sip"; "drink"];
    NameHas ["button"] ["button"; "ui"];
    NameHas ["knob"] ["knob"; "ui"];
    NameHas ["drawer"] ["drawer"; "furniture"];
    NameHas ["crate"] ["crate"; "container"];
    NameHas ["cleaver"] ["cleaver"; "kitchen"; "weapon"];
    NameHas ["fish"] ["fish"; "animal"];
    NameHas ["flag"] ["flag"; "fabric"];
    NameHas ["foam"] ["foam"];
    NameHas ["fudge"] ["fudge"; "food"];
    NameHas ["gas"] ["gas"; "liquid"];
    NameHas ["harpoon"] ["harpoon"; "weapon"];
    NameHas ["beverage"] ["beverage"; "drink"];
    NameHas ["phone"] ["phone"; "electronic"];
    NameHas ["mouse"] ["mouse"; "electronic"];
    NameHas ["orange"] ["orange"; "food"];
    NameHas ["party"] ["party"; "celebration"];
    NameHas ["ping pong"] ["pingpong"; "sport"];
    NameHas ["plastic"] ["plastic"];
    NameHas ["plate"] ["plate"; "kitchen"];
    NameHas ["rumbling"] ["rumbling"; "ambience"];
    NameHas ["sheet"] ["sheet"; "fabric"];
    NameHas ["spatula"] ["spatula"; "kitchen"];
    NameHas ["spray"] ["spray"; "liquid"];
    NameHas ["tube"] ["tube"];
    NameHas ["future"] ["future"; "scifi"];
    NameHas ["presence"] ["presence"; "ambience"];
    NameHas ["talking"] ["talking"; "voice"];
    NameHas ["sick"] ["sick"; "voice"];
    NameHas ["freaking"] ["malfunction"]
  ].

(** Rules of the H360s script: src/unnamed/part_001, lines 47-137. *)
Definition H360s_rules : list rule :=
  [
    (* Add name-based tags *)
    NameHas ["step"; "foot"] ["footsteps"; "walk"];
    NameHas ["run"] ["run"; "movement"];
    NameHas ["jump"] ["jump"; "movement"];
    NameHas ["land"] ["land"; "impact"];
    NameHas ["concrete"] ["concrete"; "surface"];
    NameHas ["metal"] ["metal"; "surface"];
    NameHas ["wood"] ["wood"; "surface"];
    NameHas ["grass"] ["grass"; "nature"];
    NameHas ["dirt"] ["dirt"; "ground"];
    NameHas ["gravel"] ["gravel"; "surface"];
    NameHas ["water"] ["water"; "liquid"];
    NameHas ["mud"] ["mud"; "ground"];
    NameHas ["tile"] ["tile"; "surface"];
    NameHas ["glass"] ["glass"; "surface"];
    NameHas ["steel"] ["steel"; "metal"];
    NameHas ["panel"] ["panel"; "surface"];
    NameHas ["grate"] ["grate"; "metal"];
    NameHas ["drop"] ["drop"; "liquid"];
    NameHas ["drip"] ["drip"; "liquid"];
    NameHas ["splash"] ["splash"; "water"];
    NameHas ["cloth"] ["cloth"; "fabric"];
    NameHas ["woosh"] ["woosh"; "fabric"; "movement"];
    NameHas ["smoke"] ["smoke"; "effect"];
    NameHas ["card"] ["card"; "paper"];
    NameHas ["flip"] ["flip"; "paper"];
    NameHas ["page"] ["page"; "paper"];
    NameHas ["weapon"] ["weapon"; "combat"];
    NameHas ["grab"] ["grab"; "weapon"];
    NameHas ["punch"] ["punch"; "combat"; "impact"];
    NameHas ["hit"] ["hit"; "impact"; "combat"];
    NameHas ["swing"] ["swing"; "weapon"];
    NameHas ["block"] ["block"; "combat"];
    NameHas ["ambience"; "ambient"] ["ambience"; "background"];
    NameHas ["nature"] ["nature"; "outdoor"];
    NameHas ["city"] ["city"; "urban"];
    NameHas ["room"] ["room"; "indoor"];
    NameHas ["forest"] ["forest"; "nature"];
    NameHas ["wind"] ["wind"; "weather"];
    NameHas ["rain"] ["rain"; "weather"; "water"];
    NameHas ["thunder"] ["thunder"; "weather"];
    NameHas ["fire"] ["fire"; "effect"];
    NameHas ["voice"; "vocal"] ["voice"; "human"];
    NameHas ["speak"] ["speak"; "voice"];
    NameHas ["breath"] ["breath"; "human"];
    NameHas ["grunt"] ["grunt"; "voice"; "effort"];
    NameHas ["gasp"] ["gasp"; "voice"];
    NameHas ["scream"] ["scream"; "voice"];
    NameHas ["laugh"] ["laugh"; "voice"];
    NameHas ["explosion"] ["explosion"; "combat"; "impact"];
    NameHas ["gun"; "shot"] ["gun"; "weapon"; "combat"];
    NameHas ["magic"] ["magic"; "effect"];
    NameHas ["spell"] ["spell"; "magic"];
    NameHas ["power"] ["power"; "effect"];
    NameHas ["charge"] ["charge"; "effect"];
    NameHas ["laser"] ["laser"; "scifi"; "weapon"];
    NameHas ["electric"] ["electric"; "effect"];
    NameHas ["door"] ["door"; "transition"];
    NameHas ["gate"] ["gate"; "transition"];
    NameHas ["button"] ["button"; "ui"];
    NameHas ["click"] ["click"; "ui"];
    NameHas ["switch"] ["switch"; "mechanical"];
    NameHas ["lever"] ["lever"; "mechanical"];
    NameHas ["engine"] ["engine"; "machine"];
    NameHas ["motor"] ["motor"; "machine"];
    NameHas ["fan"] ["fan"; "machine"];
    NameHas ["machine"] ["machine"; "mechanical"];
    NameHas ["alarm"] ["alarm"; "warning"];
    NameHas ["siren"] ["siren"; "warning"];
    NameHas ["bell"] ["bell"; "signal"];
    NameHas ["absolver"] ["absolver"; "game"];
    NameHas ["brawlhalla"] ["brawlhalla"; "game"];
    NameHas ["injustice"] ["injustice"; "game"];
    NameHas ["fatal"] ["fatalfake"; "game"];
    NameHas ["ui"; "menu"] ["ui"; "interface"];
    NameHas ["notification"] ["notification"; "ui"];
    NameHas ["select"] ["select"; "ui"];
    NameHas ["confirm"] ["confirm"; "ui"];
    NameHas ["cancel"] ["cancel"; "ui"]
  ].

(** Rules of the Amiga script: src/scripts/generateAmigaMusicManifest.js, lines 49-155. *)
Definition AmigaMusic_rules : list rule :=
  [
    (* Add name-based tags *)
    NameHas ["game music"; "game"] ["game"; "soundtrack"];
    NameHas ["mod"] ["mod"; "module"; "tracker"];
    NameHas ["title"; "theme"] ["title"; "theme"; "menu"];
    NameHas ["intro"] ["intro"; "opening"];
    NameHas ["main"] ["main"; "theme"];
    NameHas ["boss"] ["boss"; "battle"; "combat"];
    NameHas ["level"; "stage"] ["level"; "stage"; "gameplay"];
    NameHas ["game over"] ["game over"; "fail"; "gameplay"];
    NameHas ["complete"; "clear"] ["complete"; "success"; "victory"];
    NameHas ["ending"] ["ending"; "finale"; "victory"];
    NameHas ["intermission"] ["intermission"; "break"];
    NameHas ["loading"] ["loading"; "wait"];
    NameHas ["get ready"] ["get ready"; "start"];
    NameHas ["try again"] ["try again"; "retry"; "fail"];
    NameHas ["mission"] ["mission"; "objective"];
    NameHas ["phase"] ["phase"; "level"];
    (* Game-specific tags *)
    NameHas ["batman"] ["batman"; "superhero"; "action"];
    NameHas ["battletoads"] ["battletoads"; "action"; "platformer"];
    NameHas ["blood money"] ["blood money"; "shooter"];
    NameHas ["cannon fodder"] ["cannon fodder"; "strategy"; "war"];
    NameHas ["flashback"] ["flashback"; "platformer"; "scifi"];
    NameHas ["full contact"] ["full contact"; "fighting"];
    NameHas ["lotus"] ["lotus"; "racing"; "driving"];
    NameHas ["pinball"] ["pinball"; "arcade"];
    NameHas ["r-type"] ["r-type"; "shooter"; "scifi"];
    NameHas ["shadow of the beast"] ["shadow of the beast"; "platformer"; "dark"];
    NameHas ["speedball"] ["speedball"; "sports"; "futuristic"];
    (* MOD artist tags *)
    NameHas ["dr awesome"; "bjørn lynne"] ["dr awesome"; "bjørn lynne"];
    NameHas ["jester"] ["jester"; "demo scene"];
    NameHas ["pirat"] ["pirat"; "demo scene"];
    NameHas ["tdk"; "mark knight"] ["tdk"; "mark knight"; "demo scene"];
    (* Music style tags *)
    NameHas ["course"; "track"] ["track"; "level"];
    NameHas ["desert"] ["desert"; "environment"];
    NameHas ["forest"] ["forest"; "nature"];
    NameHas ["night"] ["night"; "dark"];
    NameHas ["snow"] ["snow"; "winter"];
    NameHas ["storm"] ["storm"; "weather"];
    NameHas ["fog"] ["fog"; "atmosphere"];
    NameHas ["motorway"] ["motorway"; "road"; "driving"];
    NameHas ["cathedral"] ["cathedral"; "gothic"; "building"];
    NameHas ["cave"; "cavern"] ["cave"; "underground"];
    NameHas ["factory"] ["factory"; "industrial"];
    NameHas ["street"] ["street"; "city"; "urban"];
    NameHas ["womb"; "inside"] ["organic"; "interior"];
    NameHas ["dream"; "island"] ["dream"; "fantasy"];
    NameHas ["arctic"; "ice"] ["arctic"; "ice"; "cold"];
    NameHas ["volcano"; "inferno"] ["fire"; "hot"; "danger"];
    NameHas ["surf"] ["surf"; "water"; "beach"];
    NameHas ["revolution"] ["revolution"; "action"];
    NameHas ["turbo"] ["turbo"; "fast"; "speed"];
    NameHas ["karnath"; "lair"] ["lair"; "boss"; "danger"];
    NameHas ["clinger"; "winger"] ["action"; "platformer"];
    NameHas ["rat race"] ["rat race"; "chase"];
    NameHas ["wookie"] ["wookie"; "hole"; "cave"];
    NameHas ["volkmire"] ["volkmire"; "fire"; "danger"];
    NameHas ["intruder"; "excluder"] ["action"; "platformer"];
    NameHas ["terra tubes"] ["terra"; "tubes"; "underground"];
    (* Pinball Dreams tables *)
    NameHas ["beat box"] ["beat box"; "hip hop"; "urban"];
    NameHas ["ignition"] ["ignition"; "space"; "rocket"];
    NameHas ["nightmare"] ["nightmare"; "dark"; "horror"];
    NameHas ["steel wheels"] ["steel wheels"; "train"; "industrial"];
    (* Flashback locations *)
    NameHas ["belt"] ["belt"; "item"];
    NameHas ["chute"] ["chute"; "slide"];
    NameHas ["conrad"] ["conrad"; "protagonist"; "character"];
    NameHas ["memories"] ["memories"; "flashback"; "story"];
    NameHas ["delphine"] ["delphine"; "logo"; "studio"];
    NameHas ["disintegration"] ["disintegration"; "effect"; "scifi"];
    NameHas ["elevator"] ["elevator"; "transport"; "mechanical"];
    NameHas ["fanfare"] ["fanfare"; "triumph"; "celebration"];
    NameHas ["holocube"] ["holocube"; "scifi"; "item"];
    NameHas ["teleport"] ["teleport"; "scifi"; "effect"];
    NameHas ["taxi"] ["taxi"; "vehicle"; "transport"];
    NameHas ["voyage"] ["voyage"; "journey"; "travel"];
    NameHas ["waking"] ["waking"; "awakening"; "start"];
    NameHas ["reunion"] ["reunion"; "story"; "emotional"];
    (* MOD style tags *)
    NameHas ["acidic"; "acid"] ["acid"; "electronic"];
    NameHas ["chip"; "chipper"] ["chip"; "chiptune"];
    NameHas ["cyber"] ["cyber"; "electronic"; "scifi"];
    NameHas ["molecule"] ["molecule"; "science"];
    NameHas ["wicked"] ["wicked"; "intense"];
    NameHas ["instinct"] ["instinct"; "primal"];
    NameHas ["melon"] ["melon"; "playful"];
    NameHas ["grind"] ["grind"; "industrial"];
    NameHas ["frequency"] ["frequency"; "electronic"];
    NameHas ["space"] ["space"; "cosmic"; "scifi"];
    NameHas ["deliria"; "delirium"] ["delirium"; "trippy"];
    NameHas ["hightop"] ["hightop"; "energetic"];
    NameHas ["back in town"] ["back in town"; "return"];
    NameHas ["escape"] ["escape"; "action"; "chase"];
    NameHas ["suicide"] ["suicide"; "dark"; "intense"];
    NameHas ["normal"] ["normal"; "standard"];
    NameHas ["distance"] ["distance"; "separation"];
    NameHas ["orgasmic"] ["orgasmic"; "anthrox"; "remix"];
    NameHas ["chubby"] ["chubby"; "playful"]
  ].

(** Rules of the Adobe script: src/scripts/generateAmigaMusicManifest.js, lines 238-319. *)
Definition Adobe_rules : list rule :=
  [
    (* Add name-based tags *)
    NameHas ["alert"; "alarm"] ["alert"; "notification"; "warning"];
    NameHas ["beep"] ["beep"; "digital"; "ui"];
    NameHas ["cartoon"] ["cartoon"; "animated"; "playful"];
    NameHas ["transition"] ["transition"; "effect"];
    NameHas ["weapon"] ["weapon"; "combat"];
    NameHas ["explosion"] ["explosion"; "impact"; "combat"];
    NameHas ["laser"] ["laser"; "scifi"; "weapon"];
    NameHas ["digital"] ["digital"; "electronic"];
    NameHas ["multimedia"] ["multimedia"; "digital"; "ui"];
    NameHas ["flash"] ["flash"; "digital"; "web"];
    NameHas ["animation"] ["animation"; "cartoon"];
    NameHas ["toy"] ["toy"; "playful"];
    NameHas ["whistle"] ["whistle"; "sound"];
    NameHas ["horn"] ["horn"; "instrument"];
    NameHas ["balloon"] ["balloon"; "toy"];
    NameHas ["kiss"] ["kiss"; "human"; "cartoon"];
    NameHas ["voice"] ["voice"; "human"];
    NameHas ["squeak"] ["squeak"; "toy"];
    NameHas ["drum"] ["drum"; "percussion"; "instrument"];
    NameHas ["cymbal"] ["cymbal"; "percussion"; "instrument"];
    NameHas ["bell"] ["bell"; "notification"; "chime"];
    NameHas ["chime"] ["chime"; "bell"; "notification"];
    NameHas ["blast"] ["blast"; "impact"; "explosion"];
    NameHas ["crystal"] ["crystal"; "magical"; "effect"];
    NameHas ["glow"] ["glow"; "magical"; "effect"];
    NameHas ["data"] ["data"; "digital"; "computer"];
    NameHas ["transmission"] ["transmission"; "digital"; "communication"];
    NameHas ["computer"] ["computer"; "digital"; "technology"];
    NameHas ["axe"] ["axe"; "weapon"; "melee"];
    NameHas ["sword"] ["sword"; "weapon"; "melee"];
    NameHas ["bullet"] ["bullet"; "weapon"; "ammo"];
    NameHas ["cannon"] ["cannon"; "weapon"; "explosion"];
    NameHas ["gun"] ["gun"; "weapon"; "firearm"];
    NameHas ["rifle"] ["rifle"; "weapon"; "firearm"];
    NameHas ["shotgun"] ["shotgun"; "weapon"; "firearm"];
    NameHas ["machine gun"] ["machine gun"; "weapon"; "firearm"];
    NameHas ["knife"] ["knife"; "weapon"; "melee"];
    NameHas ["whip"] ["whip"; "weapon"];
    NameHas ["taser"] ["taser"; "weapon"; "electric"];
    NameHas ["character"] ["character"; "animator"];
    NameHas ["ambience"] ["ambience"; "background"; "environment"];
    NameHas ["footstep"] ["footstep"; "foley"; "walk"];
    NameHas ["door"] ["door"; "foley"; "transition"];
    NameHas ["fire"] ["fire"; "effect"; "nature"];
    NameHas ["fireball"] ["fireball"; "fire"; "magic"];
    NameHas ["horror"] ["horror"; "scary"; "dark"];
    NameHas ["ghost"] ["ghost"; "horror"; "scary"];
    NameHas ["scream"] ["scream"; "horror"; "human"];
    NameHas ["glass"] ["glass"; "foley"; "break"];
    NameHas ["paper"] ["paper"; "foley"];
    NameHas ["shower"] ["shower"; "household"; "water"];
    NameHas ["crowd"] ["crowd"; "human"; "group"];
    NameHas ["cheer"] ["cheer"; "crowd"; "celebration"];
    NameHas ["water"] ["water"; "liquid"; "nature"];
    NameHas ["splash"] ["splash"; "water"; "liquid"];
    NameHas ["bubble"] ["bubble"; "water"; "liquid"];
    NameHas ["scifi"; "sci-fi"] ["scifi"; "futuristic"; "technology"];
    NameHas ["alien"] ["alien"; "scifi"; "creature"];
    NameHas ["spaceship"; "space ship"] ["spaceship"; "scifi"; "vehicle"];
    NameHas ["saber"] ["saber"; "scifi"; "weapon"];
    NameHas ["sports"] ["sports"; "game"];
    NameHas ["baseball"] ["baseball"; "sports"; "game"];
    NameHas ["basketball"] ["basketball"; "sports"; "game"];
    NameHas ["football"] ["football"; "sports"; "game"];
    NameHas ["arcade"] ["arcade"; "game"; "retro"];
    NameHas ["keyboard"] ["keyboard"; "computer"; "typing"];
    NameHas ["cell phone"; "phone"] ["phone"; "mobile"; "communication"];
    NameHas ["car"] ["car"; "vehicle"; "transportation"];
    NameHas ["truck"] ["truck"; "vehicle"; "transportation"];
    NameHas ["drive"] ["drive"; "vehicle"; "transportation"];
    NameHas ["thunder"] ["thunder"; "weather"; "storm"];
    NameHas ["lightning"] ["lightning"; "weather"; "storm"];
    NameHas ["storm"] ["storm"; "weather"; "nature"];
    NameHas ["wind"] ["wind"; "weather"; "nature"];
    NameHas ["bleep"] ["bleep"; "digital"; "ui"];
    NameHas ["cute"] ["cute"; "playful"; "friendly"];
    NameHas ["woosh"; "whoosh"] ["woosh"; "movement"; "effect"];
    NameHas ["mouth"] ["mouth"; "vocal"; "human"];
    NameHas ["readout"] ["readout"; "digital"; "computer"];
    NameHas ["hooray"] ["hooray"; "celebration"; "human"];
    NameHas ["motionsound"] ["motionsound"; "sound effect"]
  ].

(** Rules of the XDSoundKit script: src/scripts/generateXDSoundKitManifest.js, lines 49-84. *)
Definition XDSoundKit_rules : list rule :=
  [
    (* Category-specific tags *)
    CatHas ["dings"; "dongs"] ["ding"; "dong"; "bell"; "chime"; "notification"];
    CatHas ["swishes"; "swooshes"] ["swish"; "swoosh"; "whoosh"; "sweep"; "movement"];
    CatHas ["tics"; "tacs"] ["tic"; "tac"; "tick"; "clock"; "rhythm"];
    CatHas ["wums"; "wuhs"] ["wum"; "wuh"; "warm"; "bass"; "soft"];
    (* Name-based tags *)
    NameHas ["ding"] ["ding"; "bell"; "notification"];
    NameHas ["double"] ["double"; "two"; "multiple"];
    NameHas ["triple"] ["triple"; "three"; "multiple"];
    NameHas ["two step"] ["two step"; "staggered"; "double"];
    NameHas ["low power"] ["low power"; "warning"; "battery"; "alert"];
    NameHas ["pleasant"] ["pleasant"; "friendly"; "positive"; "happy"];
    NameHas ["falling"] ["falling"; "descending"; "down"];
    NameHas ["rising"] ["rising"; "ascending"; "up"];
    NameHas ["steps"] ["steps"; "staggered"; "sequence"];
    NameHas ["stutter"] ["stutter"; "repeating"; "staccato"];
    NameHas ["uhoh"; "uh oh"] ["uh oh"; "warning"; "alert"; "mistake"];
    NameHas ["up down up"] ["up down up"; "bounce"; "playful"];
    NameHas ["swipe"] ["swipe"; "gesture"; "touch"; "mobile"];
    NameHas ["back"] ["back"; "navigation"; "return"];
    NameHas ["swoosh"] ["swoosh"; "sweep"; "movement"];
    NameHas ["happy"] ["happy"; "positive"; "cheerful"; "friendly"];
    NameHas ["wish"] ["wish"; "magical"; "sparkle"];
    NameHas ["wisp"] ["wisp"; "soft"; "gentle"; "light"];
    NameHas ["gone with the wind"] ["gone with the wind"; "long"; "sweep"; "wind"];
    NameHas ["tictac"; "tic tac"] ["tic tac"; "clock"; "rhythm"; "tick"];
    NameHas ["dial"] ["dial"; "phone"; "rotate"; "adjust"];
    NameHas ["fast"] ["fast"; "quick"; "rapid"];
    NameHas ["medium"] ["medium"; "moderate"; "mid"];
    NameHas ["slow"] ["slow"; "leisurely"; "relaxed"];
    NameHas ["drop"] ["drop"; "fall"; "release"];
    NameHas ["select"] ["select"; "choose"; "pick"; "ui"];
    NameHas ["warm"] ["warm"; "soft"; "pleasant"; "comfortable"];
    NameHas ["power"] ["power"; "energy"; "strength"];
    NameHas ["wobble"] ["wobble"; "unstable"; "shake"; "vibration"]
  ].

Definition rules (g : generator) : list rule :=
  match g with
  | BoomLibrary => BoomLibrary_rules
  | Kenney => Kenney_rules
  | Other => Other_rules
  | FilmCow => FilmCow_rules
  | H360s => H360s_rules
  | AmigaMusic => AmigaMusic_rules
  | Adobe => Adobe_rules
  | XDSoundKit => XDSoundKit_rules
  end.

(** Whether the script has the statements
    [tags.push(lowerCat); if (subcategory) tags.push(lowerSubcat);]
    (all but generateKenneyManifest.js and the FilmCow script, which go
    from [const tags = []] to their category rules). *)
Definition pushes_category (g : generator) : bool :=
  match g with
  | Kenney | FilmCow => false
  | _ => true
  end.

(** The statement under [// Add library tag], where a script has one. *)
Definition library_tags (g : generator) : list string :=
  match g with
  | BoomLibrary => ["boom library"; "professional"; "cinematic"]
  | Other => ["retro"; "game music"; "soundtrack"]
  | AmigaMusic => ["amiga"; "retro"; "chiptune"; "synth"]
  | XDSoundKit => ["xd soundkit"; "ui"; "notification"; "interface"]
  | _ => []
  end.

(** The array [tags] when the script reaches [// Remove duplicates]. *)
Definition collectTags (g : generator) (categoryName subcategory baseName : string)
  : list string :=
  let lowerName := Js.toLowerCase baseName in
  let lowerCat := Js.toLowerCase categoryName in
  let lowerSubcat := Js.toLowerCase subcategory in
  let tags := [] in
  let tags := if pushes_category g then tags ++ [lowerCat] else tags in
  let tags := if pushes_category g && Js.truthy subcategory
              then tags ++ [lowerSubcat] else tags in
  let tags := tags ++ library_tags g in
  fold_left (apply_rule lowerName lowerCat lowerSubcat) (rules g) tags.

(* ================================================================== *)
(** ** The walk: [processAudioDirectory] *)

(** [['ogg', 'wav', 'mp3'].includes(ext)] *)
Definition allowed (ext : string) : bool :=
  existsb (String.eqb ext) ["ogg"; "wav"; "mp3"].

(** [path.extname(file).toLowerCase().slice(1)] *)
Definition extension (file : string) : string :=
  Js.slice1 (Js.toLowerCase (NodePath.extname file)).

(** [baseName.replace(/[_-]/g, ' ').replace(/\b\w/g, l => l.toUpperCase())] *)
Definition nameOf (baseName : string) : string :=
  Js.capitalizeWords (Js.replace_separators baseName).

(** The [name] field: [name], but in generateKenneyManifest.js
    [subcategory ? `${name} (${subcategory})` : name]. *)
Definition displayName (g : generator) (name subcategory : string) : string :=
  match g with
  | Kenney => if Js.truthy subcategory
              then (name ++ " (" ++ subcategory ++ ")")%string
              else name
  | _ => name
  end.

(** The object literal of [manifest.push]. [dirSegs] are the folder names
    from the library's folder down to the directory that is being read, so
    that [path.relative(base, path.join(dirPath, file))] is [dirSegs] and
    [file] joined. *)
Definition makeRecord (g : generator) (now : string) (n : Z)
  (dirSegs : list string) (categoryName subcategory file : string) (bytes : Z)
  : AudioRecord :=
  let ext := extension file in
  let relativePath := NodePath.join (dirSegs ++ [file]) in
  let filePath := NodePath.join ["audio"; folder g; relativePath] in
  let baseName := NodePath.basename file (NodePath.extname file) in
  let name := nameOf baseName in
  let uniqueTags := Js.unique (collectTags g categoryName subcategory baseName) in
  let shown := displayName g name subcategory in
  {| id := n;
     path := filePath;
     name := shown;
     category := categoryName;
     format := ext;
     size := bytes;
     duration := 0;
     rating := 0;
     tags := uniqueTags;
     description :=
       (shown ++ " from " ++ title g ++ " " ++ categoryName ++ " collection.")%string;
     library := folder g;
     dateAdded := now |}.

(** [manifest.push({ id: id++, ..., dateAdded: new Date().toISOString() })] *)
Definition push (mk : string -> Z -> AudioRecord) (c : clock) (st : state) : state :=
  {| manifest := manifest st ++ [mk (c (dates st)) (id_counter st)];
     id_counter := (id_counter st + 1)%Z;
     dates := S (dates st) |}.

(** The body of the [forEach] callback from [const ext = ...] on. *)
Definition processFile (g : generator) (c : clock) (dirSegs : list string)
  (categoryName subcategory file : string) (bytes : Z) (st : state) : state :=
  if negb (allowed (extension file)) then st
  else push (fun now n => makeRecord g now n dirSegs categoryName subcategory file bytes)
            c st.

(** Whether the callback starts with [if (item.isDirectory()) { ... return; }]
    (generateKenneyManifest.js reads plain names and has no such test). *)
Definition recurses (g : generator) : bool :=
  match g with
  | Kenney => false
  | _ => true
  end.

(** The subcategory handed to the recursive call:
    [item.name] in the BoomLibrary, Other, Amiga Music, Adobe and XDSoundKit
    scripts, [subcategory || item.name] in the H360s script; the FilmCow
    script has no such parameter. *)
Definition childSubcategory (g : generator) (subcategory itemName : string) : string :=
  match g with
  | H360s => if Js.truthy subcategory then subcategory else itemName
  | FilmCow | Kenney => subcategory
  | _ => itemName
  end.

(** The [forEach] callback of [processAudioDirectory]; a directory item
    leads to the recursive call, whose [existsSync] and [readdirSync] find
    the directory that the listing has just named. *)
Fixpoint processItem (g : generator) (c : clock) (dirSegs : list string)
  (categoryName subcategory : string) (item : entry) (st : state) {struct item}
  : state :=
  match item with
  | File file bytes => processFile g c dirSegs categoryName subcategory file bytes st
  | Dir dir bytes items =>
      if recurses g
      then fold_left
             (fun s it =>
                processItem g c (dirSegs ++ [dir]) categoryName
                            (childSubcategory g subcategory dir) it s)
             items st
      else processFile g c dirSegs categoryName subcategory dir bytes st
  end.

(** [items.forEach(item => ...)] *)
Definition processItems (g : generator) (c : clock) (dirSegs : list string)
  (categoryName subcategory : string) (items : list entry) (st : state) : state :=
  fold_left (fun s it => processItem g c dirSegs categoryName subcategory it s) items st.

(** [processAudioDirectory(dirPath, categoryName, subcategory)], where
    [dirPath] denotes [p]. *)
Definition processAudioDirectory (g : generator) (c : clock) (dirSegs : list string)
  (categoryName subcategory : string) (p : target) (st : state) : result state :=
  if negb (existsSync p) then Ok st
  else items <- readdirSync p ;;
       Ok (processItems g c dirSegs categoryName subcategory items st).

(* ================================================================== *)
(** ** The top level of the scripts *)

(** The category of a first-level folder [subdir]. *)
Definition categoryOf (g : generator) (subdir : string) : string :=
  match g with
  | Kenney =>
      (* subdir.replace('kenney_', '').replace(/-/g, ' ').replace(/\b\w/g, ...);
         if (subdir.toLowerCase().includes('voiceover')) categoryName = 'Voices' *)
      if Js.includes (Js.toLowerCase subdir) "voiceover" then "Voices"
      else Js.capitalizeWords (Js.replace_hyphens (Js.remove_first "kenney_" subdir))
  | FilmCow =>
      (* subdir.replace('FilmCow ', '').replace(/\b\w/g, ...) *)
      Js.capitalizeWords (Js.remove_first "FilmCow " subdir)
  | Adobe =>
      (* subdir.replace(/_/g, ' ').replace(/\b\w/g, ...); then the clean up *)
      let categoryName := Js.capitalizeWords (Js.replace_underscores subdir) in
      if Js.includes categoryName "Adobe Sound Effects"
      then Js.remove_first "Adobe Sound Effects " categoryName
      else categoryName
  | _ => subdir
  end.

Fixpoint forEachM {A : Type} (f : A -> state -> result state) (l : list A)
  (st : state) : result state :=
  match l with
  | [] => Ok st
  | x :: rest => st' <- f x st ;; forEachM f rest st'
  end.

(** [if (fs.existsSync(p)) processAudioDirectory(p, categoryName, subcategory)] *)
Definition processIfExists (g : generator) (c : clock) (dirSegs : list string)
  (categoryName subcategory : string) (p : target) (st : state) : result state :=
  if existsSync p
  then processAudioDirectory g c dirSegs categoryName subcategory p st
  else Ok st.

(** The callback of [subdirs.forEach] in generateKenneyManifest.js. *)
Definition kenneySubdir (c : clock) (subdir : entry) (st : state) : result state :=
  let d := entry_name subdir in
  let categoryName := categoryOf Kenney d in
  st1 <- processIfExists Kenney c [d; "Audio"] categoryName ""
           (child "Audio" (Some subdir)) st ;;
  st2 <- processIfExists Kenney c [d; "Male"] categoryName "Male"
           (child "Male" (Some subdir)) st1 ;;
  processIfExists Kenney c [d; "Female"] categoryName "Female"
    (child "Female" (Some subdir)) st2.

(** [const categories] of the H360s script. *)
Definition categories : list string :=
  ["Ambience"; "Combat"; "Foley"; "Misc"; "Voices"].

(** The script from [const subdirs = ...] (or [categories.forEach]) to the
    end of the last [forEach]; [base] is what the library's folder denotes. *)
Definition scan (g : generator) (c : clock) (base : target) : result state :=
  match g with
  | H360s =>
      forEachM
        (fun cat st => processIfExists H360s c [cat] cat "" (child cat base) st)
        categories initial
  | Kenney =>
      entries <- readdirSync base ;;
      forEachM (kenneySubdir c) (filter isDirectory entries) initial
  | _ =>
      entries <- readdirSync base ;;
      forEachM
        (fun subdir st =>
           processAudioDirectory g c [entry_name subdir]
             (categoryOf g (entry_name subdir)) "" (Some subdir) st)
        (filter isDirectory entries) initial
  end.

(* ================================================================== *)
(** ** [JSON.stringify(manifest, null, 2)] *)

Module Json.

Definition quote : string := String (ascii_of_nat 34) EmptyString.
Definition newline : string := String (ascii_of_nat 10) EmptyString.

Definition hex (n : nat) : ascii :=
  nth n (list_ascii_of_string "0123456789abcdef") "0"%char.

(** The escapes of a JSON string: quote, backslash and control characters. *)
Definition escape_char (ch : ascii) : string :=
  let n := Js.code ch in
  if n =? 34 then ("\" ++ quote)%string
  else if n =? 92 then "\\"
  else if n =? 8 then "\b"
  else if n =? 12 then "\f"
  else if n =? 10 then "\n"
  else if n =? 13 then "\r"
  else if n =? 9 then "\t"
  else if n <? 32
       then ("\u00" ++ String (hex (n / 16)) (String (hex (n mod 16)) EmptyString))%string
       else String ch EmptyString.

Fixpoint escape (s : string) : string :=
  match s with
  | EmptyString => EmptyString
  | String ch t => (escape_char ch ++ escape t)%string
  end.

Definition str (s : string) : string := (quote ++ escape s ++ quote)%string.

(** An integer in decimal (the numbers of a record are the counter, file
    sizes and the constant 0). *)
Definition num (z : Z) : string := NilZero.string_of_int (Z.to_int z).

(** An array whose elements are serialized already, written at
    indentation [ind]; the empty array is [[]]. *)
Definition array (ind : string) (elems : list string) : string :=
  match elems with
  | [] => "[]"
  | _ =>
      let inner := (ind ++ "  ")%string in
      ("[" ++ newline ++ inner
           ++ String.concat ("," ++ newline ++ inner) elems
           ++ newline ++ ind ++ "]")%string
  end.

Definition object (ind : string) (members : list (string * string)) : string :=
  let inner := (ind ++ "  ")%string in
  ("{" ++ newline ++ inner
       ++ String.concat ("," ++ newline ++ inner)
            (map (fun kv => (str (fst kv) ++ ": " ++ snd kv)%string) members)
       ++ newline ++ ind ++ "}")%string.

Definition record (r : AudioRecord) : string :=
  object "  "
    [ ("id", num (id r));
      ("path", str (path r));
      ("name", str (name r));
      ("category", str (category r));
      ("format", str (format r));
      ("size", num (size r));
      ("duration", num (duration r));
      ("rating", num (rating r));
      ("tags", array "    " (map str (tags r)));
      ("description", str (description r));
      ("library", str (library r));
      ("dateAdded", str (dateAdded r)) ].

Definition stringify (m : list AudioRecord) : string :=
  array "" (map record m).

End Json.

(** A whole run of a script: the scan, then
    [fs.writeFileSync(outputPath, JSON.stringify(manifest, null, 2))] with
    [outputPath] inside the library's folder.  The result is the content of
    [manifest.json] after the run, or the error that ended the run. *)
Definition generate (g : generator) (c : clock) (base : target) : result string :=
  st <- scan g c base ;;
  writeFileSync base (Json.stringify (manifest st)).

(** The records of a run, when the scan ends without an error. *)
Definition records (g : generator) (c : clock) (base : target)
  : result (list AudioRecord) :=
  st <- scan g c base ;; Ok (manifest st).

Definition noon : clock := fun _ => "2025-01-01T12:00:00.000Z".

(* ================================================================== *)
(** ** Definitions used to state the properties *)

(** The display name as the specification words it: underscores and
    hyphens become spaces, then the first character of every word is
    uppercased, a word being a maximal run of characters without white
    space. *)
Definition is_space (ch : ascii) : bool :=
  existsb (Nat.eqb (Js.code ch)) [32; 9; 10; 11; 12; 13].

Fixpoint titleCase_from (atStart : bool) (s : string) : string :=
  match s with
  | EmptyString => EmptyString
  | String ch t =>
      String (if atStart then Js.upper_char ch else ch)
             (titleCase_from (is_space ch) t)
  end.

Definition specName (stem : string) : string :=
  titleCase_from true (Js.replace_separators stem).

(** Stems made of ASCII letters, digits, underscores, hyphens and spaces. *)
Definition plain_char (ch : ascii) : bool :=
  Js.is_upper ch || Js.is_lower ch || Js.is_digit ch
  || existsb (Nat.eqb (Js.code ch)) [95; 45; 32].

Fixpoint plain (s : string) : bool :=
  match s with
  | EmptyString => true
  | String ch t => plain_char ch && plain t
  end.

(** Deduplication as the specification words it: a string is kept the
    first time it is seen and dropped afterwards. *)
Fixpoint dedupe_from (seen l : list string) : list string :=
  match l with
  | [] => []
  | x :: t =>
      if existsb (String.eqb x) seen then dedupe_from seen t
      else x :: dedupe_from (seen ++ [x]) t
  end.

Definition firstOccurrences (l : list string) : list string := dedupe_from [] l.

(** The stem of a file name, [path.basename(file, path.extname(file))]. *)
Definition stem (file : string) : string :=
  NodePath.basename file (NodePath.extname file).

(** The manifest path of the file [file] found in the folders [dirs] below
    the library's folder. *)
Definition manifestPath (g : generator) (dirs : list string) (file : string) : string :=
  NodePath.join ["audio"; folder g; NodePath.join (dirs ++ [file])].

(** [Below items dirs file bytes]: going down the folders [dirs] from a
    directory that lists [items] leads to the regular file [file] of
    [bytes] bytes. *)
Inductive Below : list entry -> list string -> string -> Z -> Prop :=
| Below_here (items : list entry) (file : string) (bytes : Z) :
    In (File file bytes) items -> Below items [] file bytes
| Below_down (items : list entry) (d : string) (b : Z) (sub : list entry)
    (dirs : list string) (file : string) (bytes : Z) :
    In (Dir d b sub) items -> Below sub dirs file bytes ->
    Below items (d :: dirs) file bytes.

(** The subcategory that reaches a file [dirs] folders down. *)
Definition subcategoryAt (g : generator) (subcategory : string) (dirs : list string)
  : string :=
  fold_left (childSubcategory g) dirs subcategory.

(** What a record says apart from [id] and [dateAdded] (and the constants
    [duration] and [rating]). *)
Record Content : Type := mkContent {
  c_path : string;
  c_name : string;
  c_category : string;
  c_format : string;
  c_size : Z;
  c_tags : list string;
  c_description : string;
  c_library : string
}.

Definition content (r : AudioRecord) : Content :=
  {| c_path := path r; c_name := name r; c_category := category r;
     c_format := format r; c_size := size r; c_tags := tags r;
     c_description := description r; c_library := library r |}.

Definition result_map {A B : Type} (f : A -> B) (r : result A) : result B :=
  match r with
  | Ok a => Ok (f a)
  | Throw e => Throw e
  end.

(** The counter is one more than the number of records, which carry the
    identifiers 1, 2, ... in the order of the array. *)
Definition numbered (st : state) : Prop :=
  id_counter st = (1 + Z.of_nat (List.length (manifest st)))%Z /\
  map id (manifest st) = map Z.of_nat (seq 1 (List.length (manifest st))).

(** Two states, or two outcomes of a scan, that agree in the content of
    their records. *)
Definition sameContent (s1 s2 : state) : Prop :=
  map content (manifest s1) = map content (manifest s2).

Definition sameOutcome (r1 r2 : result state) : Prop :=
  match r1, r2 with
  | Ok s1, Ok s2 => sameContent s1 s2
  | Throw e1, Throw e2 => e1 = e2
  | _, _ => False
  end.

(** The folders a scan walks.  [Walked g base dirSegs cat items]: the scan
    of [g] over [base] calls [processAudioDirectory] on a folder that lists
    [items], found at [dirSegs] below the library's folder, with the
    category [cat]: every first-level folder for the scripts that list the
    library's folder, the folders named in [categories] for H360s. *)
Inductive Walked (g : generator) (base : target)
  : list string -> string -> list entry -> Prop :=
| Walked_subdir (root : string) (rb : Z) (entries : list entry)
    (d : string) (b : Z) (items : list entry) :
    g <> Kenney -> g <> H360s ->
    base = Some (Dir root rb entries) ->
    In (Dir d b items) entries ->
    Walked g base [d] (categoryOf g d) items
| Walked_category (cat d : string) (b : Z) (items : list entry) :
    g = H360s ->
    In cat categories ->
    child cat base = Some (Dir d b items) ->
    Walked g base [cat] cat items.

(** The generators that hand the child directory's name down as the
    subcategory. *)
Definition handsDownItemName (g : generator) : bool :=
  match g with
  | BoomLibrary | Other | AmigaMusic | Adobe | XDSoundKit => true
  | _ => false
  end.

(** Every record of a manifest is the object literal of [manifest.push],
    built for a name with an allowed extension. *)
Definition Made (g : generator) (r : AudioRecord) : Prop :=
  exists now n dirs cat subcat file bytes,
    allowed (extension file) = true /\
    r = makeRecord g now n dirs cat subcat file bytes.

(** Small library folders used as concrete inputs. *)

Definition filmCowTree : target :=
  Some (Dir "FilmCow" 4096 [ Dir "Misc" 4096 [ File "a.wav" 1 ] ]).

Definition kenneyTree : target :=
  Some (Dir "Kenney" 4096
          [ Dir "kenney_impact-sounds" 4096
              [ Dir "Audio" 4096
                  [ File "footstep_carpet_000.ogg" 7000;
                    Dir "extra" 4096 [ File "footstep_snow_000.ogg" 7100 ] ] ];
            Dir "kenney_voiceover-pack" 4096
              [ Dir "Male" 4096 [ File "game_over.ogg" 9000 ] ] ]).

Definition boomTree : target :=
  Some (Dir "BoomLibrary" 4096
          [ Dir "Cinematic Hits" 4096
              [ File "don't_stop.wav" 5000;
                File "cover.jpg" 300;
                Dir "Designed" 4096
                  [ Dir "Low" 4096 [ File "big-hit_01.WAV" 6000 ] ] ] ]).

Definition h360sTree : target :=
  Some (Dir "H360s" 4096
          [ Dir "Foley" 4096
              [ Dir "Footsteps" 4096
                  [ Dir "Concrete" 4096 [ File "step_01.mp3" 800 ] ] ] ]).

(** Scenario A of the specification, and the same file with a space
    between the two words of the game's title. *)
Definition scenarioA (bytes : Z) : target :=
  Some (Dir "Other" 4096
          [ Dir "RetroGames" 4096 [ File "bomb_jack_theme.ogg" bytes ] ]).

Definition scenarioA_spaced (bytes : Z) : target :=
  Some (Dir "Other" 4096
          [ Dir "RetroGames" 4096 [ File "bomb jack_theme.ogg" bytes ] ]).

(* ================================================================== *)
(** ** Further definitions: what a walk lists, and well-formed trees *)

(** A place in the library: the folders from the library's folder down,
    the name found there and its size. *)
Definition place : Type := (list string * string * Z)%type.

Definition segments (pl : place) : list string := fst (fst pl) ++ [snd (fst pl)].

(** The names with an allowed extension that the [forEach] callback reaches
    from [item], in the order it reaches them. *)
Fixpoint listItem (g : generator) (dirSegs : list string) (item : entry)
  {struct item} : list place :=
  match item with
  | File file bytes =>
      if allowed (extension file) then [(dirSegs, file, bytes)] else []
  | Dir dir bytes items =>
      if recurses g
      then flat_map (listItem g (dirSegs ++ [dir])) items
      else if allowed (extension dir) then [(dirSegs, dir, bytes)] else []
  end.

Definition listItems (g : generator) (dirSegs : list string) (items : list entry)
  : list place :=
  flat_map (listItem g dirSegs) items.

(** What a call of [processAudioDirectory] on [p] lists. *)
Definition listFolder (g : generator) (dirSegs : list string) (p : target)
  : list place :=
  match p with
  | Some (Dir _ _ items) => listItems g dirSegs items
  | _ => []
  end.

(** What a whole scan lists: the first-level folders in the order of the
    listing (Kenney: their [Audio], [Male] and [Female] folders, in this
    order), or the folders of [categories] in the order of that array. *)
Definition scanListing (g : generator) (base : target) : list place :=
  match g with
  | H360s => flat_map (fun cat => listFolder H360s [cat] (child cat base)) categories
  | Kenney =>
      match base with
      | Some (Dir _ _ entries) =>
          flat_map
            (fun subdir =>
               flat_map
                 (fun sub =>
                    listFolder Kenney [entry_name subdir; sub]
                      (child sub (Some subdir)))
                 ["Audio"; "Male"; "Female"])
            (filter isDirectory entries)
      | _ => []
      end
  | _ =>
      match base with
      | Some (Dir _ _ entries) =>
          flat_map (fun subdir => listFolder g [entry_name subdir] (Some subdir))
                   (filter isDirectory entries)
      | _ => []
      end
  end.

(** Path and size of a record, and of a place. *)
Definition located (r : AudioRecord) : string * Z := (path r, size r).

Definition placed (g : generator) (pl : place) : string * Z :=
  (manifestPath g (fst (fst pl)) (snd (fst pl)), snd pl).

(** A name of a directory entry holds no [/]. *)
Fixpoint slash_free (s : string) : bool :=
  match s with
  | EmptyString => true
  | String ch t => negb (Js.code ch =? 47) && slash_free t
  end.

Fixpoint distinct (l : list string) : bool :=
  match l with
  | [] => true
  | x :: t => negb (existsb (String.eqb x) t) && distinct t
  end.

(** A tree as a file system has it: names without [/], and no two entries
    of one directory with the same name. *)
Fixpoint well_formed (e : entry) : bool :=
  match e with
  | File file _ => slash_free file
  | Dir dir _ items =>
      slash_free dir && distinct (map entry_name items) && forallb well_formed items
  end.

Definition well_formed_target (p : target) : bool :=
  match p with
  | None => true
  | Some e => well_formed e
  end.

Definition slash_free_all (l : list string) : Prop :=
  Forall (fun s => slash_free s = true) l.

(** A library with two files of one name in two folders (scenario D of
    the specification). *)
Definition twinTree : target :=
  Some (Dir "BoomLibrary" 4096
          [ Dir "Impacts" 4096
              [ Dir "Metal" 4096 [ File "hit_01.wav" 100 ];
                Dir "Wood" 4096 [ File "hit_01.wav" 200 ] ];
            File "hit_01.wav" 300 ]).

(** No ASCII capital letter in a string. *)
Fixpoint no_upper (s : string) : bool :=
  match s with
  | EmptyString => true
  | String ch t => negb (Js.is_upper ch) && no_upper t
  end.

(** Why a tag is in the list that [collectTags] returns. *)
Definition tagReason (g : generator) (cat subcat base t : string) : Prop :=
  (pushes_category g = true /\ t = Js.toLowerCase cat) \/
  (pushes_category g = true /\ subcat <> "" /\ t = Js.toLowerCase subcat) \/
  In t (library_tags g) \/
  exists r,
    In r (rules g) /\
    fires (Js.toLowerCase base) (Js.toLowerCase cat) (Js.toLowerCase subcat) r = true /\
    In t (pushed_by r).

(** No underscore and no hyphen in a string. *)
Fixpoint no_separator (s : string) : bool :=
  match s with
  | EmptyString => true
  | String ch t => negb ((Js.code ch =? 95) || (Js.code ch =? 45)) && no_separator t
  end.

(** No word of [s] starts with a lowercase letter, a word being a maximal
    run of word characters; [prev] tells whether a word character stands
    before [s]. *)
Fixpoint capitalized_from (prev : bool) (s : string) : bool :=
  match s with
  | EmptyString => true
  | String ch t =>
      negb (Js.is_word ch && negb prev && Js.is_lower ch)
      && capitalized_from (Js.is_word ch) t
  end.

Definition capitalized (s : string) : bool := capitalized_from false s.

(** A rule that cannot push the tag [voiceover] for the category [Voices]. *)
Definition silent_for_voices (r : rule) : bool :=
  match r with
  | CatHas subs pushed =>
      negb (existsb (String.eqb "voiceover") pushed)
      || negb (existsb (Js.includes "voices") subs)
  | NameHas _ pushed | SubcatIs _ pushed =>
      negb (existsb (String.eqb "voiceover") pushed)
  end.



(** The entries with one of the given names. *)
Definition keep (names : list string) (entries : list entry) : list entry :=
  filter (fun e => existsb (String.eqb (entry_name e)) names) entries.

(** A first-level folder of the Kenney library without the entries that
    are not called [Audio], [Male] or [Female]. *)
Definition pruned (e : entry) : entry :=
  match e with
  | File file bytes => File file bytes
  | Dir dir bytes items => Dir dir bytes (keep ["Audio"; "Male"; "Female"] items)
  end.

(** The part of a library folder that a scan can read. *)
Definition visible (g : generator) (base : target) : target :=
  match base with
  | Some (Dir dir bytes entries) =>
      match g with
      | H360s => Some (Dir dir bytes (keep categories entries))
      | Kenney => Some (Dir dir bytes (map pruned (filter isDirectory entries)))
      | _ => Some (Dir dir bytes (filter isDirectory entries))
      end
  | _ => base
  end.

(** A regular file where the H360s script expects a category folder, and a
    Kenney library with loose files and a folder of another name. *)
Definition h360sBlocked : target :=
  Some (Dir "H360s" 4096
          [ Dir "Foley" 4096 [ File "step_01.mp3" 800 ]; File "Misc" 12 ]).

Definition kenneyLoose : target :=
  Some (Dir "Kenney" 4096
          [ File "readme.ogg" 5;
            Dir "kenney_ui-audio" 4096
              [ Dir "Audio" 4096 [ File "click_001.ogg" 900 ];
                Dir "Preview" 4096 [ File "preview.ogg" 950 ];
                File "License.txt" 70 ] ]).

(** The clock was read once for every record, in the order of the array. *)
Definition stamped (c : clock) (st : state) : Prop :=
  dates st = List.length (manifest st) /\
  map dateAdded (manifest st) = map c (seq 0 (List.length (manifest st))).

(** The fields of a record that no file decides. *)
Definition templated (g : generator) (r : AudioRecord) : Prop :=
  duration r = 0%Z /\ rating r = 0%Z /\ library r = folder g /\
  description r
  = (name r ++ " from " ++ title g ++ " " ++ category r ++ " collection.")%string.

(* ================================================================== *)
(** ** The browser application: helpers of the audio engine and of the
       Google Drive integration

    [esc], [guessFormat], [parseCsvLine] and the row of
    [exportMetadataTemplate] are in js/librarySources.js (the part that is
    audioSearchEngine.js); [extractFolderId], [isAudioFile] and
    [getFileExtension] are in the Google Drive integration
    (src/unnamed/part_004).  Their arguments are strings. *)

Module Browser.

(** [s.split(sep)] for a separator of one character. *)
Fixpoint split (sep : ascii) (s : string) : list string :=
  match s with
  | EmptyString => [EmptyString]
  | String ch t =>
      if Ascii.eqb ch sep then EmptyString :: split sep t
      else match split sep t with
           | h :: r => String ch h :: r
           | [] => [String ch EmptyString]
           end
  end.

(** [s.replace(/c/g, by)] for one character [c]. *)
Fixpoint replaceAll (c : ascii) (by_ : string) (s : string) : string :=
  match s with
  | EmptyString => EmptyString
  | String ch t =>
      if Ascii.eqb ch c then (by_ ++ replaceAll c by_ t)%string
      else String ch (replaceAll c by_ t)
  end.

Definition quote : ascii := ascii_of_nat 34.
Definition apostrophe : ascii := ascii_of_nat 39.

(** [esc(str)]: the five replacements, in the order of the source. *)
Definition esc (str : string) : string :=
  replaceAll apostrophe "&#39;"
    (replaceAll quote "&quot;"
       (replaceAll ">" "&gt;"
          (replaceAll "<" "&lt;"
             (replaceAll "&" "&amp;" str)))).

(** [getFileExtension(filename)] *)
Definition getFileExtension (filename : string) : string :=
  let parts := split "." filename in
  if 1 <? List.length parts then last parts EmptyString else EmptyString.

(** [GOOGLE_DRIVE_CONFIG.AUDIO_EXTENSIONS] *)
Definition AUDIO_EXTENSIONS : list string :=
  [".mp3"; ".wav"; ".ogg"; ".flac"; ".aac"; ".m4a"; ".wma"; ".aiff"].

(** [isAudioFile(filename)] *)
Definition isAudioFile (filename : string) : bool :=
  let ext := Js.toLowerCase (getFileExtension filename) in
  existsb (String.eqb ("." ++ ext)%string) AUDIO_EXTENSIONS.

(** [guessFormat(path)] *)
Definition guessFormat (path : string) : string :=
  let ext := hd EmptyString
               (split "?" (Js.toLowerCase (last (split "." path) EmptyString))) in
  if existsb (String.eqb ext)
       ["wav"; "mp3"; "ogg"; "flac"; "aac"; "m4a"; "wma"; "aiff"]
  then ext else "wav".

(** [parseCsvLine(line)]: the loop over the characters of [line], with its
    variables [current], [inQuotes] and [result]; a quote inside quotes that
    is followed by a quote stands for one quote and both are consumed. *)
Fixpoint parseCsvLoop (line current : string) (inQuotes : bool)
  (result : list string) {struct line} : list string :=
  match line with
  | EmptyString => result ++ [current]
  | String ch t =>
      if Ascii.eqb ch quote then
        match t with
        | String ch' t' =>
            if inQuotes && Ascii.eqb ch' quote
            then parseCsvLoop t' (current ++ String quote EmptyString) inQuotes result
            else parseCsvLoop t current (negb inQuotes) result
        | EmptyString => parseCsvLoop t current (negb inQuotes) result
        end
      else if Ascii.eqb ch "," && negb inQuotes
           then parseCsvLoop t EmptyString inQuotes (result ++ [current])
           else parseCsvLoop t (current ++ String ch EmptyString) inQuotes result
  end.

Definition parseCsvLine (line : string) : list string :=
  parseCsvLoop line EmptyString false [].

(** The row that [exportMetadataTemplate] writes for a file: five fields in
    quotes, the quotes of the description doubled. *)
Definition quoted (s : string) : string :=
  (String quote EmptyString ++ s ++ String quote EmptyString)%string.

Definition doubleQuotes (s : string) : string :=
  replaceAll quote (String quote (String quote EmptyString)) s.

Definition exportRow (f : AudioRecord) : string :=
  String.concat ","
    [ quoted (path f);
      quoted (name f);
      quoted (String.concat ", " (tags f));
      quoted (doubleQuotes (description f));
      quoted (Json.num (rating f)) ].

(** [[a-zA-Z0-9-_]] *)
Definition is_id_char (ch : ascii) : bool :=
  Js.is_upper ch || Js.is_lower ch || Js.is_digit ch
  || (Js.code ch =? 45) || (Js.code ch =? 95).

(** The longest run of id characters at the start of [s]. *)
Fixpoint take_id (s : string) : string :=
  match s with
  | EmptyString => EmptyString
  | String ch t => if is_id_char ch then String ch (take_id t) else EmptyString
  end.

(** [url.match(/PRE([a-zA-Z0-9-_]+)/)] for a literal [PRE]: the group of
    the leftmost match, that is, the run of id characters after the first
    [PRE] that is followed by an id character. *)
Fixpoint match_after (pre url : string) : option string :=
  let here :=
    if prefix pre url
    then match take_id (Js.slice_from (String.length pre) url) with
         | EmptyString => None
         | id => Some id
         end
    else None in
  match here with
  | Some id => Some id
  | None =>
      match url with
      | EmptyString => None
      | String _ t => match_after pre t
      end
  end.

(** [/^[a-zA-Z0-9-_]+$/.test(url)] *)
Fixpoint all_id (s : string) : bool :=
  match s with
  | EmptyString => true
  | String ch t => is_id_char ch && all_id t
  end.

Definition is_bare_id (url : string) : bool :=
  match url with
  | EmptyString => false
  | _ => all_id url
  end.

(** [extractFolderId(url)], [None] for [null]. *)
Definition extractFolderId (url : string) : option string :=
  match match_after "/folders/" url with
  | Some id => Some id
  | None =>
      match match_after "id=" url with
      | Some id => Some id
      | None =>
          match match_after "/d/" url with
          | Some id => Some id
          | None => if is_bare_id url then Some url else None
          end
      end
  end.

End Browser.

(** One character as [esc] writes it. *)
Definition entity (ch : ascii) : string :=
  if Ascii.eqb ch "&" then "&amp;"
  else if Ascii.eqb ch "<" then "&lt;"
  else if Ascii.eqb ch ">" then "&gt;"
  else if Ascii.eqb ch Browser.quote then "&quot;"
  else if Ascii.eqb ch Browser.apostrophe then "&#39;"
  else String ch EmptyString.

Fixpoint entities (s : string) : string :=
  match s with
  | EmptyString => EmptyString
  | String ch t => (entity ch ++ entities t)%string
  end.

(** No angle bracket, quote or apostrophe in a string, and every ampersand
    of it starts one of the five entities. *)
Fixpoint inert (s : string) : bool :=
  match s with
  | EmptyString => true
  | String ch t =>
      negb (Ascii.eqb ch "<" || Ascii.eqb ch ">" || Ascii.eqb ch Browser.quote
            || Ascii.eqb ch Browser.apostrophe)
      && (negb (Ascii.eqb ch "&")
          || existsb (fun e => prefix e t) ["amp;"; "lt;"; "gt;"; "quot;"; "#39;"])
      && inert t
  end.

Fixpoint has_char (c : ascii) (s : string) : bool :=
  match s with
  | EmptyString => false
  | String ch t => Ascii.eqb ch c || has_char c t
  end.

(* ================================================================== *)
(** ** The audio engine: loading manifests into the master list

    js/librarySources.js, the part that is audioSearchEngine.js.  The
    objects of [audioFiles] and of the arrays handed to the engine are
    objects in the manifest format, so they are [AudioRecord]s here; a
    field that JavaScript finds falsy is one that holds [0] or the empty
    string.  The model leaves out the redrawing of the page
    ([applyFilters], [updateStats], [updateLibraryFilter], [showToast]).
    A metadata object is looked up by the path of a file among its own
    entries; the properties that every JavaScript object inherits are
    outside the model. *)

Module Engine.

(** [a || b] on strings and on numbers. *)
Definition orS (a b : string) : string := if Js.truthy a then a else b.
Definition orZ (a b : Z) : Z := if (a =? 0)%Z then b else a.

(** An entry of [h360_metadata] or of [sheetsMetadata]: each of its fields
    may be missing. *)
Record Meta : Type := mkMeta {
  m_name : option string;         (* [name], in sheets [displayName] *)
  m_tags : option (list string);
  m_description : option string;
  m_rating : option Z
}.

Definition metadata : Type := string -> option Meta.

Definition noMeta : Meta :=
  {| m_name := None; m_tags := None; m_description := None; m_rating := None |}.

(** [x || y] where [x] may be undefined. *)
Definition orOptS (x : option string) (y : string) : string :=
  match x with
  | Some s => orS s y
  | None => y
  end.

(** [f.dateAdded || new Date().toISOString()]: the clock is read only when
    the field is empty; [k] counts the readings. *)
Definition orNow (c : clock) (d : string) (k : nat) : string * nat :=
  if Js.truthy d then (d, k) else (c k, S k).

(** The callback of [files.map] in [mergeMetadata]. *)
Definition mergeOne (c : clock) (saved sheets : metadata) (f : AudioRecord) (k : nat)
  : AudioRecord * nat :=
  let local := match saved (path f) with Some m => m | None => noMeta end in
  let sheet := match sheets (path f) with Some m => m | None => noMeta end in
  let (d, k') := orNow c (dateAdded f) k in
  ({| id := id f;
      path := path f;
      name := orOptS (m_name sheet) (orOptS (m_name local) (name f));
      category := category f;
      format := format f;
      size := size f;
      duration := duration f;
      rating := match m_rating sheet with
                | Some x => x
                | None => match m_rating local with
                          | Some x => x
                          | None => orZ (rating f) 0
                          end
                end;
      tags := match m_tags sheet with
              | Some t => t
              | None => match m_tags local with
                        | Some t => t
                        | None => tags f
                        end
              end;
      description :=
        orOptS (m_description sheet)
          (orOptS (m_description local) (orS (description f) EmptyString));
      library := library f;
      dateAdded := d |}, k').

(** [mergeMetadata(files)] *)
Fixpoint mergeMetadata (c : clock) (saved sheets : metadata)
  (files : list AudioRecord) (k : nat) : list AudioRecord * nat :=
  match files with
  | [] => ([], k)
  | f :: rest =>
      let (f', k1) := mergeOne c saved sheets f k in
      let (rest', k2) := mergeMetadata c saved sheets rest k1 in
      (f' :: rest', k2)
  end.

(** The callback of [files.map] in [addExternalLibraryFiles]; [nextId] is
    the variable of that name.  The files are records of the manifest
    format: they have no [url], so [f.path || f.url || ''] is
    [f.path || ''], and their [tags] are an array, which is kept. *)
Definition normaliseOne (c : clock) (libraryName : string) (f : AudioRecord)
  (nextId : Z) (k : nat) : AudioRecord * Z * nat :=
  let (i, nextId') := if (id f =? 0)%Z then (nextId, (nextId + 1)%Z)
                      else (id f, nextId) in
  let p := orS (path f) EmptyString in
  let (d, k') := orNow c (dateAdded f) k in
  ({| id := i;
      path := p;
      name := orS (orS (name f) (last (Browser.split "/" p) EmptyString)) "Unknown";
      category := orS (category f) "Misc";
      format := orS (format f) (Browser.guessFormat p);
      size := orZ (size f) 0;
      duration := orZ (duration f) 0;
      rating := orZ (rating f) 0;
      tags := tags f;
      description := orS (description f) EmptyString;
      library := orS (library f) libraryName;
      dateAdded := d |}, nextId', k').

Fixpoint normalise (c : clock) (libraryName : string) (files : list AudioRecord)
  (nextId : Z) (k : nat) : list AudioRecord * nat :=
  match files with
  | [] => ([], k)
  | f :: rest =>
      let '(f', nextId', k1) := normaliseOne c libraryName f nextId k in
      let (rest', k2) := normalise c libraryName rest nextId' k1 in
      (f' :: rest', k2)
  end.

(** [audioFiles.reduce((m, f) => Math.max(m, f.id || 0), 0)] *)
Definition maxId (audioFiles : list AudioRecord) : Z :=
  fold_left (fun m f => Z.max m (orZ (id f) 0)) audioFiles 0%Z.

(** [f.path && !existingPaths.has(f.path)] *)
Definition isNew (audioFiles : list AudioRecord) (f : AudioRecord) : bool :=
  Js.truthy (path f) && negb (existsb (String.eqb (path f)) (map path audioFiles)).

(** [window.addExternalLibraryFiles(files, libraryName)]: the master list
    [audioFiles] after the call, and the number of clock readings. *)
Definition addExternalLibraryFiles (c : clock) (saved sheets : metadata)
  (files : list AudioRecord) (libraryName : string)
  (audioFiles : list AudioRecord) (k : nat) : list AudioRecord * nat :=
  match files with
  | [] => (audioFiles, k)
  | _ =>
      let (normalised, k1) := normalise c libraryName files (maxId audioFiles + 1)%Z k in
      let newFiles := filter (isNew audioFiles) normalised in
      match newFiles with
      | [] => (audioFiles, k1)
      | _ =>
          let (merged, k2) := mergeMetadata c saved sheets newFiles k1 in
          (audioFiles ++ merged, k2)
      end
  end.

(** The checks of [LibrarySourcesManager.fetchManifest] on the parsed
    array: [None] when it throws. *)
Definition validateManifest (data : list AudioRecord) : option (list AudioRecord) :=
  match data with
  | [] => None
  | first :: _ => if Js.truthy (path first) then Some data else None
  end.

(** [libraryFiles] of [loadLibraryJsonFiles], as generators, and the
    address of a library's manifest. *)
Definition libraryFiles : list generator :=
  [H360s; Kenney; FilmCow; Adobe; AmigaMusic; BoomLibrary; XDSoundKit; Other].

Definition libPath (g : generator) : string :=
  ("audio/" ++ folder g ++ "/manifest.json")%string.

(** The chain of [if (libPath.includes(...)) f.library = ...]. *)
Definition libraryFor (p : string) : option string :=
  find (Js.includes p)
       ["H360s"; "Kenney"; "FilmCow"; "Adobe"; "Amiga Music"; "BoomLibrary";
        "XDSoundKit"; "Other"].

(** [data.forEach(f => { if (!f.library) { ... } })] *)
Definition ensureLibrary (p : string) (f : AudioRecord) : AudioRecord :=
  if Js.truthy (library f) then f
  else match libraryFor p with
       | None => f
       | Some l =>
           {| id := id f; path := path f; name := name f; category := category f;
              format := format f; size := size f; duration := duration f;
              rating := rating f; tags := tags f; description := description f;
              library := l; dateAdded := dateAdded f |}
       end.

(** [loadLibraryJsonFiles] when the sheet gave no files: the manifests that
    could be fetched ([fetched g] is the parsed array, [None] when the
    request failed) are concatenated in the order of [libraryFiles] and
    merged with the stored metadata.  The result is [audioFiles]. *)
Definition loadedFiles (fetched : generator -> option (list AudioRecord))
  : list AudioRecord :=
  flat_map (fun g => match fetched g with
                     | Some data => map (ensureLibrary (libPath g)) data
                     | None => []
                     end)
           libraryFiles.

Definition loadLibraries (c : clock) (saved sheets : metadata)
  (fetched : generator -> option (list AudioRecord)) (k : nat)
  : list AudioRecord * nat :=
  match loadedFiles fetched with
  | [] => ([], k)
  | files => mergeMetadata c saved sheets files k
  end.

End Engine.

(** A record with every field that the engine would otherwise fill in. *)
Definition complete (r : AudioRecord) : Prop :=
  id r <> 0%Z /\ path r <> EmptyString /\ name r <> EmptyString /\
  category r <> EmptyString /\ format r <> EmptyString /\
  library r <> EmptyString /\ dateAdded r <> EmptyString.

(** [p] is not empty and is no path of [files]. *)
Definition isNewPath (files : list AudioRecord) (p : string) : bool :=
  Js.truthy p && negb (existsb (String.eqb p) (map path files)).

(** No stored metadata. *)
Definition noMetadata : Engine.metadata := fun _ => None.

(** The manifests that were fetched are manifests the generators wrote. *)
Definition generatedCatalogue (fetched : generator -> option (list AudioRecord)) : Prop :=
  forall g data,
    fetched g = Some data ->
    exists c base st,
      well_formed_target base = true /\ scan g c base = Ok st /\ data = manifest st.

(** The array a script leaves behind: empty when the script threw. *)
Definition manifestOf (g : generator) (c : clock) (base : target) : list AudioRecord :=
  match scan g c base with
  | Ok st => manifest st
  | Throw _ => []
  end.

(** A field as [exportMetadataTemplate] writes the description: in quotes,
    its quotes doubled. *)
Definition csvField (s : string) : string :=
  Browser.quoted (Browser.doubleQuotes s).

(** The five values of a row of the template. *)
Definition rowValues (f : AudioRecord) : list string :=
  [ path f; name f; String.concat ", " (tags f); description f; Json.num (rating f) ].

(** [rest] does not go on with a quote. *)
Definition ends_field (rest : string) : bool :=
  match rest with
  | EmptyString => true
  | String ch _ => negb (Ascii.eqb ch Browser.quote)
  end.

(** Two library manifests as they are fetched, the others missing. *)
Definition twoLibraries (g : generator) : option (list AudioRecord) :=
  match g with
  | BoomLibrary => Some (manifestOf BoomLibrary noon twinTree)
  | FilmCow => Some (manifestOf FilmCow noon filmCowTree)
  | _ => None
  end.

(** [rest] does not go on with an id character. *)
Definition ends_id (rest : string) : bool :=
  match rest with
  | EmptyString => true
  | String ch _ => negb (Browser.is_id_char ch)
  end.

(* ================================================================== *)
(** ** Sanity checks of the string and path functions *)

Example extname_examples :
  map NodePath.extname ["a.OGG"; "a.b.wav"; ".mp3"; "noext"; "x."; ".."; "..."]
  = [".OGG"; ".wav"; ""; ""; "."; ""; "."].
Proof. reflexivity. Qed.

Example capitalize_examples :
  map (fun s => Js.capitalizeWords (Js.replace_separators s))
      ["bomb_jack_theme"; "door-open 2"; "don't"; "a.b"]
  = ["Bomb Jack Theme"; "Door Open 2"; "Don'T"; "A.B"].
Proof. reflexivity. Qed.

Example unique_example :
  Js.unique ["a"; "b"; "a"; "c"; "b"] = ["a"; "b"; "c"].
Proof. reflexivity. Qed.

(* ================================================================== *)
(** ** Induction over directory trees and invariants of the walk *)

Lemma entry_induction (Q : entry -> Prop) :
  (forall file bytes, Q (File file bytes)) ->
  (forall dir bytes items, Forall Q items -> Q (Dir dir bytes items)) ->
  forall e, Q e.
Proof.
  intros HF HD. fix IH 1. intros [file bytes | dir bytes items].
  - apply HF.
  - apply HD. induction items as [|x xs IHxs]; constructor.
    + apply IH.
    + apply IHxs.
Qed.

Lemma processItems_cons g c dirSegs cat subcat item items st :
  processItems g c dirSegs cat subcat (item :: items) st
  = processItems g c dirSegs cat subcat items
      (processItem g c dirSegs cat subcat item st).
Proof. reflexivity. Qed.

Lemma processItems_app g c dirSegs cat subcat l1 l2 st :
  processItems g c dirSegs cat subcat (l1 ++ l2) st
  = processItems g c dirSegs cat subcat l2
      (processItems g c dirSegs cat subcat l1 st).
Proof. unfold processItems. apply fold_left_app. Qed.

(** The recursive call on a directory is the walk of its items. *)
Lemma processItem_Dir g c dirSegs cat subcat dir bytes items st :
  recurses g = true ->
  processItem g c dirSegs cat subcat (Dir dir bytes items) st
  = processItems g c (dirSegs ++ [dir]) cat (childSubcategory g subcat dir) items st.
Proof. intros Hr. cbn [processItem]. rewrite Hr. reflexivity. Qed.

Section Invariant.

Variables (g : generator) (c : clock) (P : state -> Prop).

Hypothesis P_file :
  forall dirSegs cat subcat file bytes st,
    P st -> P (processFile g c dirSegs cat subcat file bytes st).

Lemma processItem_inv item :
  forall dirSegs cat subcat st,
    P st -> P (processItem g c dirSegs cat subcat item st).
Proof.
  induction item as [file bytes | dir bytes items IH] using entry_induction;
    intros dirSegs cat subcat st HP; cbn [processItem].
  - now apply P_file.
  - destruct (recurses g); [| now apply P_file].
    revert st HP. induction IH as [|x xs Hx _ IHxs]; intros st HP; cbn [fold_left].
    + exact HP.
    + apply IHxs. now apply Hx.
Qed.

Lemma processItems_inv items :
  forall dirSegs cat subcat st,
    P st -> P (processItems g c dirSegs cat subcat items st).
Proof.
  induction items as [|x xs IH]; intros dirSegs cat subcat st HP.
  - exact HP.
  - rewrite processItems_cons. apply IH. now apply processItem_inv.
Qed.

Lemma processAudioDirectory_inv dirSegs cat subcat p st st' :
  P st -> processAudioDirectory g c dirSegs cat subcat p st = Ok st' -> P st'.
Proof.
  intros HP. unfold processAudioDirectory.
  destruct p as [[file bytes | dir bytes items]|]; cbn; intros H;
    inversion H; subst; auto using processItems_inv.
Qed.

Lemma processIfExists_inv dirSegs cat subcat p st st' :
  P st -> processIfExists g c dirSegs cat subcat p st = Ok st' -> P st'.
Proof.
  intros HP. unfold processIfExists. destruct (existsSync p).
  - now apply processAudioDirectory_inv.
  - intros H. now inversion H; subst.
Qed.

Lemma forEachM_inv {A : Type} (f : A -> state -> result state) (l : list A) :
  (forall x st st', P st -> f x st = Ok st' -> P st') ->
  forall st st', P st -> forEachM f l st = Ok st' -> P st'.
Proof.
  intros Hf. induction l as [|x xs IH]; intros st st' HP; cbn.
  - intros H. now inversion H; subst.
  - destruct (f x st) as [st1|e] eqn:E; cbn; [| discriminate].
    apply IH. eapply Hf; eauto.
Qed.

End Invariant.

(** An invariant of the file step holds for the state a scan ends in. *)
Lemma scan_inv (g : generator) (c : clock) (P : state -> Prop) :
  (forall dirSegs cat subcat file bytes st,
      P st -> P (processFile g c dirSegs cat subcat file bytes st)) ->
  P initial ->
  forall base st, scan g c base = Ok st -> P st.
Proof.
  intros Hfile H0 base st.
  assert (Hdirs : forall entries,
             forEachM
               (fun subdir s =>
                  processAudioDirectory g c [entry_name subdir]
                    (categoryOf g (entry_name subdir)) "" (Some subdir) s)
               (filter isDirectory entries) initial = Ok st -> P st).
  { intros entries. apply forEachM_inv; [| exact H0].
    intros x s s' HP. now apply processAudioDirectory_inv. }
  destruct g; cbn [scan];
    try (destruct (readdirSync base) as [entries|e]; cbn [bind];
         [apply Hdirs | discriminate]).
  - (* Kenney *)
    destruct (readdirSync base) as [entries|e]; cbn [bind]; [| discriminate].
    apply forEachM_inv; [| exact H0].
    intros x s s' HP. unfold kenneySubdir.
    destruct (processIfExists Kenney c _ _ _ (child "Audio" _) s) as [s1|] eqn:E1;
      cbn [bind]; [| discriminate].
    destruct (processIfExists Kenney c _ _ _ (child "Male" _) s1) as [s2|] eqn:E2;
      cbn [bind]; [| discriminate].
    intros E3.
    eapply processIfExists_inv in E1; eauto.
    eapply processIfExists_inv in E2; eauto.
    eapply processIfExists_inv in E3; eauto.
  - (* H360s *)
    apply forEachM_inv; [| exact H0].
    intros x s s' HP. now apply processIfExists_inv.
Qed.

Lemma processFile_allowed g c dirSegs cat subcat file bytes st :
  allowed (extension file) = true ->
  processFile g c dirSegs cat subcat file bytes st
  = push (fun now n => makeRecord g now n dirSegs cat subcat file bytes) c st.
Proof. intros H. unfold processFile. now rewrite H. Qed.

Lemma processFile_skipped g c dirSegs cat subcat file bytes st :
  allowed (extension file) = false ->
  processFile g c dirSegs cat subcat file bytes st = st.
Proof. intros H. unfold processFile. now rewrite H. Qed.

Lemma processFile_Forall g c (Q : AudioRecord -> Prop) :
  (forall r, Made g r -> Q r) ->
  forall dirSegs cat subcat file bytes st,
    Forall Q (manifest st) ->
    Forall Q (manifest (processFile g c dirSegs cat subcat file bytes st)).
Proof.
  intros HQ dirSegs cat subcat file bytes st HF.
  destruct (allowed (extension file)) eqn:E.
  - rewrite processFile_allowed by exact E. cbn [push manifest].
    apply Forall_app. split; [exact HF |]. constructor; [| constructor].
    apply HQ. unfold Made. eauto 12.
  - now rewrite processFile_skipped.
Qed.

Lemma scan_Made g c base st :
  scan g c base = Ok st -> Forall (Made g) (manifest st).
Proof.
  apply (scan_inv g c (fun s => Forall (Made g) (manifest s))).
  - apply processFile_Forall. auto.
  - constructor.
Qed.

(* ------------------------------------------------------------------ *)
(** *** Deduplication *)

Lemma existsb_eqb_In (x : string) (l : list string) :
  existsb (String.eqb x) l = true <-> In x l.
Proof.
  rewrite existsb_exists. split.
  - intros [y [Hy E]]. apply String.eqb_eq in E. now subst.
  - intros H. exists x. split; [exact H | apply String.eqb_refl].
Qed.

Lemma fold_set_add (l : list string) :
  forall acc, fold_left Js.set_add l acc = acc ++ dedupe_from acc l.
Proof.
  induction l as [|x t IH]; intros acc; cbn [fold_left dedupe_from].
  - now rewrite app_nil_r.
  - unfold Js.set_add at 2. destruct (existsb (String.eqb x) acc).
    + apply IH.
    + rewrite IH, <- app_assoc. reflexivity.
Qed.

Lemma unique_firstOccurrences (l : list string) :
  Js.unique l = firstOccurrences l.
Proof. unfold Js.unique, firstOccurrences. now rewrite fold_set_add. Qed.

Lemma fold_set_add_NoDup (l : list string) :
  forall acc, NoDup acc -> NoDup (fold_left Js.set_add l acc).
Proof.
  induction l as [|x t IH]; intros acc Hacc; cbn [fold_left]; [exact Hacc |].
  apply IH. unfold Js.set_add.
  destruct (existsb (String.eqb x) acc) eqn:E; [exact Hacc |].
  apply NoDup_app; [exact Hacc | repeat constructor; intros [] |].
  intros y Hy [<- | []].
  apply existsb_eqb_In in Hy. congruence.
Qed.

Lemma unique_NoDup (l : list string) : NoDup (Js.unique l).
Proof. apply fold_set_add_NoDup. constructor. Qed.

Lemma fold_set_add_In (l : list string) (x : string) :
  forall acc, In x (fold_left Js.set_add l acc) <-> In x acc \/ In x l.
Proof.
  induction l as [|y t IH]; intros acc; cbn [fold_left].
  - cbn. tauto.
  - rewrite IH. unfold Js.set_add.
    destruct (existsb (String.eqb y) acc) eqn:E.
    + apply existsb_eqb_In in E. cbn. split; [tauto |].
      intros [H | [<- | H]]; tauto.
    + rewrite in_app_iff. cbn. tauto.
Qed.

Lemma unique_In (l : list string) (x : string) :
  In x (Js.unique l) <-> In x l.
Proof. unfold Js.unique. rewrite fold_set_add_In. cbn. tauto. Qed.

(* ------------------------------------------------------------------ *)
(** *** Tags *)

Lemma apply_rules_keep lowerName lowerCat lowerSubcat (rs : list rule) (x : string) :
  forall tags0,
    In x tags0 ->
    In x (fold_left (apply_rule lowerName lowerCat lowerSubcat) rs tags0).
Proof.
  induction rs as [|r rs IH]; intros tags0 H; cbn [fold_left]; [exact H |].
  apply IH. unfold apply_rule.
  destruct (fires lowerName lowerCat lowerSubcat r); [| exact H].
  apply in_or_app. now left.
Qed.

Lemma truthy_nonempty (s : string) : s <> "" -> Js.truthy s = true.
Proof. destruct s; [congruence | reflexivity]. Qed.

Lemma collectTags_category g cat subcat base :
  pushes_category g = true ->
  In (Js.toLowerCase cat) (collectTags g cat subcat base).
Proof.
  intros H. unfold collectTags. rewrite H. apply apply_rules_keep.
  apply in_or_app. left.
  destruct (true && Js.truthy subcat); [apply in_or_app; left |]; now left.
Qed.

Lemma collectTags_subcategory g cat subcat base :
  pushes_category g = true -> subcat <> "" ->
  In (Js.toLowerCase subcat) (collectTags g cat subcat base).
Proof.
  intros H Hs. unfold collectTags. rewrite H, (truthy_nonempty _ Hs).
  apply apply_rules_keep. apply in_or_app. left. apply in_or_app. right. now left.
Qed.

(* ================================================================== *)
(** ** C1: category and subcategory tags *)

(** C1, as the code has it.  In the scripts that start their tag list with
    [tags.push(lowerCat); if (subcategory) tags.push(lowerSubcat);]
    (BoomLibrary, Other, H360s, Amiga Music, Adobe, XDSoundKit) every record
    of a manifest carries its lowercased category as a tag, and the record
    pushed for a file carries the lowercased category and, when the
    subcategory is not empty, the lowercased subcategory, whatever the file
    is called. *)
Theorem category_and_subcategory_tagged (g : generator) (c : clock) :
  pushes_category g = true ->
  (forall base st,
      scan g c base = Ok st ->
      Forall (fun r => In (Js.toLowerCase (category r)) (tags r)) (manifest st))
  /\
  (forall dirSegs cat subcat file bytes st,
      allowed (extension file) = true ->
      exists r,
        manifest (processFile g c dirSegs cat subcat file bytes st)
        = manifest st ++ [r]
        /\ category r = cat
        /\ In (Js.toLowerCase cat) (tags r)
        /\ (subcat <> "" -> In (Js.toLowerCase subcat) (tags r))).
Proof.
  intros Hg. split.
  - intros base st Hscan. apply scan_Made in Hscan.
    eapply Forall_impl; [| exact Hscan].
    intros r (now & n & dirs & cat & subcat & file & bytes & _ & ->).
    cbn [makeRecord category tags]. apply unique_In.
    now apply collectTags_category.
  - intros dirSegs cat subcat file bytes st Hext.
    rewrite processFile_allowed by exact Hext. cbn [push manifest].
    eexists. split; [reflexivity |]. cbn [makeRecord category tags].
    repeat split.
    + apply unique_In. now apply collectTags_category.
    + intros Hs. apply unique_In. now apply collectTags_subcategory.
Qed.

Lemma category_and_subcategory_tagged_witness :
  pushes_category BoomLibrary = true /\
  (exists st, scan BoomLibrary noon boomTree = Ok st /\
     Forall (fun r => In (Js.toLowerCase (category r)) (tags r)) (manifest st)) /\
  (exists r,
     manifest (processFile BoomLibrary noon ["Cinematic Hits"; "Designed"; "Low"]
                 "Cinematic Hits" "Low" "big-hit_01.WAV" 6000 initial)
     = manifest initial ++ [r]
     /\ category r = "Cinematic Hits"
     /\ In "cinematic hits" (tags r)
     /\ In "low" (tags r)).
Proof.
  destruct (category_and_subcategory_tagged BoomLibrary noon eq_refl) as [Hall Hone].
  split; [reflexivity |]. split.
  - destruct (scan BoomLibrary noon boomTree) as [st|e] eqn:E; [| discriminate E].
    exists st. split; [reflexivity |]. now apply (Hall boomTree).
  - destruct (Hone ["Cinematic Hits"; "Designed"; "Low"] "Cinematic Hits" "Low"
                   "big-hit_01.WAV" 6000%Z initial eq_refl)
      as (r & Hm & Hc & Hcat & Hsub).
    exists r. repeat split; try assumption.
    apply Hsub. discriminate.
Defined.

(** C1 fails as stated: the FilmCow and Kenney scripts never push the
    lowercased category; the records they make for [Misc/a.wav] and for
    [kenney_impact-sounds/Audio/footstep_carpet_000.ogg] lack it. *)
Lemma category_tag_missing :
  (exists r, records FilmCow noon filmCowTree = Ok [r] /\
             category r = "Misc" /\ tags r = [] /\
             ~ In (Js.toLowerCase (category r)) (tags r)) /\
  (exists r r', records Kenney noon kenneyTree = Ok [r; r'] /\
             category r = "Impact Sounds" /\
             tags r = ["impact"; "hit"; "footstep"; "walk"; "carpet"] /\
             ~ In (Js.toLowerCase (category r)) (tags r)).
Proof.
  split.
  - eexists. split; [vm_compute; reflexivity |].
    repeat split. intros [].
  - do 2 eexists. split; [vm_compute; reflexivity |].
    repeat split. cbn. intros H.
    repeat (destruct H as [H | H]; [discriminate H |]). exact H.
Qed.

(* ================================================================== *)
(** ** C2: display names *)

Lemma plain_char_facts (ch : ascii) :
  plain_char ch = true ->
  Js.is_word (Js.sep_to_space ch) = negb (is_space (Js.sep_to_space ch)) /\
  (Js.is_word (Js.sep_to_space ch) = false ->
   Js.upper_char (Js.sep_to_space ch) = Js.sep_to_space ch).
Proof.
  destruct ch as [[] [] [] [] [] [] [] []]; vm_compute; intros H;
    (discriminate H || (split; [reflexivity | intros E; (discriminate E || reflexivity)])).
Qed.

Lemma capitalize_titleCase (s : string) :
  forall prev,
    plain s = true ->
    Js.capitalize_from prev (Js.replace_separators s)
    = titleCase_from (negb prev) (Js.replace_separators s).
Proof.
  unfold Js.replace_separators.
  induction s as [|ch t IH]; intros prev Hp; [reflexivity |].
  cbn [plain] in Hp. apply andb_true_iff in Hp. destruct Hp as [Hch Ht].
  destruct (plain_char_facts ch Hch) as [Hw Hu].
  cbn [Js.smap Js.capitalize_from titleCase_from]. f_equal.
  - destruct prev; cbn [negb andb]; [now rewrite andb_false_r |].
    rewrite andb_true_r.
    destruct (Js.is_word (Js.sep_to_space ch)) eqn:E; [reflexivity |].
    symmetry. now apply Hu.
  - rewrite (IH _ Ht), Hw, negb_involutive. reflexivity.
Qed.

Lemma nameOf_plain (s : string) : plain s = true -> nameOf s = specName s.
Proof. intros H. unfold nameOf, specName, Js.capitalizeWords. now apply capitalize_titleCase. Qed.

(** C2, as the code has it.  The name of every record of a manifest comes
    from the stem of the file that its path names: underscores and hyphens
    become spaces and every word character that follows no word character
    is uppercased ([nameOf]); the Kenney script then appends the
    subcategory in parentheses when there is one ([displayName]), and no
    script adds anything else.  For a stem of ASCII letters, digits,
    underscores, hyphens and spaces this is the title-casing of the
    whitespace-delimited words. *)
Theorem name_from_stem (g : generator) (c : clock) (base : target) (st : state) :
  scan g c base = Ok st ->
  Forall (fun r =>
            exists dirs file subcat,
              path r = manifestPath g dirs file /\
              name r = displayName g (nameOf (stem file)) subcat /\
              (g <> Kenney -> name r = nameOf (stem file)) /\
              (plain (stem file) = true ->
               name r = displayName g (specName (stem file)) subcat))
         (manifest st).
Proof.
  intros Hscan. apply scan_Made in Hscan.
  eapply Forall_impl; [| exact Hscan].
  intros r (now & n & dirs & cat & subcat & file & bytes & _ & ->).
  exists dirs, file, subcat. cbn [makeRecord path name]. fold (stem file).
  repeat split.
  - intros Hg. destruct g; try reflexivity. now elim Hg.
  - intros Hp. now rewrite (nameOf_plain _ Hp).
Qed.

Lemma name_from_stem_witness :
  exists st,
    scan Kenney noon kenneyTree = Ok st /\
    map name (manifest st) = ["Footstep Carpet 000"; "Game Over (Male)"] /\
    map (fun file => plain (stem file)) ["footstep_carpet_000.ogg"; "game_over.ogg"]
    = [true; true] /\
    map (fun file => specName (stem file)) ["footstep_carpet_000.ogg"; "game_over.ogg"]
    = ["Footstep Carpet 000"; "Game Over"] /\
    Forall (fun r => exists dirs file subcat,
                path r = manifestPath Kenney dirs file /\
                name r = displayName Kenney (nameOf (stem file)) subcat)
           (manifest st).
Proof.
  destruct (scan Kenney noon kenneyTree) as [st|e] eqn:E; [| discriminate E].
  exists st. split; [reflexivity |]. split.
  - vm_compute in E. injection E as <-. reflexivity.
  - split; [reflexivity |]. split; [reflexivity |].
    generalize (name_from_stem Kenney noon kenneyTree st E).
    apply Forall_impl. intros r (dirs & file & subcat & Hp & Hn & _).
    exists dirs, file, subcat. split; assumption.
Defined.

(** C2 fails as stated: an apostrophe starts a new word for [/\b\w/g], so
    [don't_stop.wav] is named [Don'T Stop], where title-casing the
    whitespace-delimited words gives [Don't Stop]; and the Kenney script
    adds the subcategory to the name. *)
Lemma name_differs_from_title_case :
  (exists r r',
      records BoomLibrary noon boomTree = Ok [r; r'] /\
      path r = "audio/BoomLibrary/Cinematic Hits/don't_stop.wav" /\
      name r = "Don'T Stop" /\
      specName (stem "don't_stop.wav") = "Don't Stop" /\
      name r <> specName (stem "don't_stop.wav")) /\
  (exists r r',
      records Kenney noon kenneyTree = Ok [r; r'] /\
      path r' = "audio/Kenney/kenney_voiceover-pack/Male/game_over.ogg" /\
      name r' = "Game Over (Male)" /\
      specName (stem "game_over.ogg") = "Game Over" /\
      name r' <> specName (stem "game_over.ogg")).
Proof.
  split; do 2 eexists; (split; [vm_compute; reflexivity |]);
    repeat split; vm_compute; discriminate.
Qed.

(* ================================================================== *)
(** ** C3: scenario A *)

(** C3, as the code has it.  For [audio/Other/RetroGames/bomb_jack_theme.ogg]
    the Other script makes one record, named [Bomb Jack Theme], of format
    [ogg], whose tags are retrogames, retro, game music, soundtrack, theme,
    title, menu.  The rule for the game looks for [bomb jack], with a space,
    in the lowercased stem, which is [bomb_jack_theme]; with a space in the
    file name the record has all eleven tags. *)
Theorem scenario_A (c : clock) (bytes : Z) :
  (exists r,
      records Other c (scenarioA bytes) = Ok [r] /\
      path r = "audio/Other/RetroGames/bomb_jack_theme.ogg" /\
      category r = "RetroGames" /\
      name r = "Bomb Jack Theme" /\
      format r = "ogg" /\
      tags r = ["retrogames"; "retro"; "game music"; "soundtrack";
                "theme"; "title"; "menu"]) /\
  (exists r,
      records Other c (scenarioA_spaced bytes) = Ok [r] /\
      path r = "audio/Other/RetroGames/bomb jack_theme.ogg" /\
      name r = "Bomb Jack Theme" /\
      format r = "ogg" /\
      tags r = ["retrogames"; "retro"; "game music"; "soundtrack";
                "bomb jack"; "arcade"; "platformer"; "mark cooksey";
                "theme"; "title"; "menu"]).
Proof.
  split; eexists; (split; [vm_compute; reflexivity |]); repeat split.
Qed.

(** C3 fails as stated: the record of scenario A has none of the tags
    bomb jack, arcade, platformer, mark cooksey. *)
Lemma scenario_A_lacks_game_tags :
  exists r,
    records Other noon (scenarioA 1234) = Ok [r] /\
    path r = "audio/Other/RetroGames/bomb_jack_theme.ogg" /\
    ~ In "bomb jack" (tags r) /\ ~ In "arcade" (tags r) /\
    ~ In "platformer" (tags r) /\ ~ In "mark cooksey" (tags r).
Proof.
  eexists. split; [vm_compute; reflexivity |]. split; [reflexivity |].
  repeat split; cbn; intros H;
    repeat (destruct H as [H | H]; [discriminate H |]); exact H.
Qed.

(* ================================================================== *)
(** ** C4: files in nested folders *)

Lemma processItems_keeps g c (r : AudioRecord) items dirSegs cat subcat st :
  In r (manifest st) ->
  In r (manifest (processItems g c dirSegs cat subcat items st)).
Proof.
  apply (processItems_inv g c (fun s => In r (manifest s))).
  clear. intros dirSegs cat subcat file bytes st H. unfold processFile.
  destruct (negb (allowed (extension file))); [exact H |].
  cbn [push manifest]. apply in_or_app. now left.
Qed.

(** A file with an allowed extension that lies below the items of a walk
    gets its record, with the category of the walk and the subcategory that
    the recursive calls hand down. *)
Lemma processItems_emits g c :
  recurses g = true ->
  forall items dirs file bytes,
    Below items dirs file bytes ->
    allowed (extension file) = true ->
    forall dirSegs cat subcat st,
    exists now n,
      In (makeRecord g now n (dirSegs ++ dirs) cat (subcategoryAt g subcat dirs)
            file bytes)
         (manifest (processItems g c dirSegs cat subcat items st)).
Proof.
  intros Hg items dirs file bytes HB Hext.
  induction HB as [items file bytes Hin | items d b sub dirs file bytes Hin HB IH];
    intros dirSegs cat subcat st;
    apply in_split in Hin; destruct Hin as (l1 & l2 & ->);
    rewrite processItems_app, processItems_cons.
  - set (s1 := processItems g c dirSegs cat subcat l1 st).
    exists (c (dates s1)), (id_counter s1).
    apply processItems_keeps. cbn [processItem].
    rewrite processFile_allowed by exact Hext.
    cbn [push manifest subcategoryAt fold_left]. rewrite app_nil_r.
    apply in_or_app. right. now left.
  - set (s1 := processItems g c dirSegs cat subcat l1 st).
    rewrite processItem_Dir by exact Hg.
    destruct (IH Hext (dirSegs ++ [d]) cat (childSubcategory g subcat d) s1)
      as (now & n & Hr).
    exists now, n. apply processItems_keeps.
    rewrite <- app_assoc in Hr. exact Hr.
Qed.

Lemma processFile_keeps g c (r : AudioRecord) dirSegs cat subcat file bytes st :
  In r (manifest st) ->
  In r (manifest (processFile g c dirSegs cat subcat file bytes st)).
Proof.
  intros H. unfold processFile.
  destruct (negb (allowed (extension file))); [exact H |].
  cbn [push manifest]. apply in_or_app. now left.
Qed.

Lemma forEachM_reaches {A : Type} (f : A -> state -> result state)
  (l : list A) (x : A) :
  (forall y s s' (r : AudioRecord),
      f y s = Ok s' -> In r (manifest s) -> In r (manifest s')) ->
  In x l ->
  forall st st',
    forEachM f l st = Ok st' ->
    exists s1 s2,
      f x s1 = Ok s2 /\ forall r, In r (manifest s2) -> In r (manifest st').
Proof.
  intros Hmono. induction l as [|y ys IH]; intros Hin st st' Hrun; [destruct Hin |].
  cbn [forEachM] in Hrun.
  destruct (f y st) as [s|e] eqn:E; cbn [bind] in Hrun; [| discriminate Hrun].
  destruct Hin as [-> | Hin].
  - exists st, s. split; [exact E |]. intros r Hr.
    apply (forEachM_inv (fun t => In r (manifest t)) f ys) with (st := s);
      try assumption.
    intros z t t' Ht Hz. now apply (Hmono z t t' r).
  - now apply (IH Hin s st').
Qed.

Lemma scan_emits (g : generator) (c : clock) (base : target) (st : state)
  (dirSegs : list string) (cat : string) (items : list entry)
  (dirs : list string) (file : string) (bytes : Z) :
  scan g c base = Ok st ->
  Walked g base dirSegs cat items ->
  Below items dirs file bytes ->
  allowed (extension file) = true ->
  exists now n subcat,
    In (makeRecord g now n (dirSegs ++ dirs) cat subcat file bytes) (manifest st).
Proof.
  intros Hscan HW HB Hext.
  destruct HW as [root rb entries d b items Hk Hh -> Hin | cat d b items -> Hcat Hch].
  - assert (Hr : recurses g = true) by (destruct g; try reflexivity; now elim Hk).
    assert (Hs : forEachM
                   (fun subdir s =>
                      processAudioDirectory g c [entry_name subdir]
                        (categoryOf g (entry_name subdir)) "" (Some subdir) s)
                   (filter isDirectory entries) initial = Ok st).
    { destruct g; try exact Hscan; [now elim Hk | now elim Hh]. }
    eapply forEachM_reaches with (x := Dir d b items) in Hs.
    + destruct Hs as (s1 & s2 & Hf & Hkeep). cbn in Hf. injection Hf as <-.
      destruct (processItems_emits g c Hr items dirs file bytes HB Hext
                  [d] (categoryOf g d) "" s1) as (now & n & Hrec).
      exists now, n, (subcategoryAt g "" dirs). now apply Hkeep.
    + intros y s s' r Hy Hr0.
      eapply (processAudioDirectory_inv g c (fun t => In r (manifest t)));
        [| exact Hr0 | exact Hy].
      intros. now apply processFile_keeps.
    + apply filter_In. split; [exact Hin | reflexivity].
  - cbn [scan] in Hscan.
    eapply forEachM_reaches with (x := cat) in Hscan; [| | exact Hcat].
    + destruct Hscan as (s1 & s2 & Hf & Hkeep). rewrite Hch in Hf.
      cbn in Hf. injection Hf as <-.
      destruct (processItems_emits H360s c eq_refl items dirs file bytes HB Hext
                  [cat] cat "" s1) as (now & n & Hrec).
      exists now, n, (subcategoryAt H360s "" dirs). now apply Hkeep.
    + intros y s s' r Hy Hr0.
      eapply (processIfExists_inv H360s c (fun t => In r (manifest t)));
        [| exact Hr0 | exact Hy].
      intros. now apply processFile_keeps.
Qed.

(** C4, as the code has it.  In every script but the Kenney one a
    directory item is walked by the recursive call, with the category kept
    and the subcategory handed down as [childSubcategory] says; so a file
    with an allowed extension, however deep below the items of a walk, has
    a record; and the manifest that a scan ends with has a record for every
    such file below a folder that the scan walks. *)
Theorem nested_files_emitted (g : generator) (c : clock) :
  g <> Kenney ->
  (forall dirSegs cat subcat dir b items st,
      processItem g c dirSegs cat subcat (Dir dir b items) st
      = processItems g c (dirSegs ++ [dir]) cat (childSubcategory g subcat dir)
          items st)
  /\
  (forall items dirs file bytes dirSegs cat subcat st,
      Below items dirs file bytes ->
      allowed (extension file) = true ->
      exists r,
        In r (manifest (processItems g c dirSegs cat subcat items st)) /\
        path r = manifestPath g (dirSegs ++ dirs) file /\
        category r = cat /\ size r = bytes /\ format r = extension file)
  /\
  (forall base st dirSegs cat items dirs file bytes,
      scan g c base = Ok st ->
      Walked g base dirSegs cat items ->
      Below items dirs file bytes ->
      allowed (extension file) = true ->
      exists r,
        In r (manifest st) /\
        path r = manifestPath g (dirSegs ++ dirs) file /\
        category r = cat /\ size r = bytes /\ format r = extension file).
Proof.
  intros Hg.
  assert (Hr : recurses g = true) by (destruct g; try reflexivity; now elim Hg).
  split; [| split].
  - intros. now apply processItem_Dir.
  - intros items dirs file bytes dirSegs cat subcat st HB Hext.
    destruct (processItems_emits g c Hr items dirs file bytes HB Hext
                dirSegs cat subcat st) as (now & n & Hin).
    eexists. split; [exact Hin |]. repeat split.
  - intros base st dirSegs cat items dirs file bytes Hscan HW HB Hext.
    destruct (scan_emits g c base st dirSegs cat items dirs file bytes
                Hscan HW HB Hext) as (now & n & subcat & Hin).
    eexists. split; [exact Hin |]. repeat split.
Qed.

Lemma nested_files_emitted_witness :
  BoomLibrary <> Kenney /\
  (exists items,
      Walked BoomLibrary boomTree ["Cinematic Hits"] "Cinematic Hits" items /\
      Below items ["Designed"; "Low"] "big-hit_01.WAV" 6000) /\
  allowed (extension "big-hit_01.WAV") = true /\
  exists st r,
    scan BoomLibrary noon boomTree = Ok st /\
    In r (manifest st) /\
    path r = "audio/BoomLibrary/Cinematic Hits/Designed/Low/big-hit_01.WAV" /\
    category r = "Cinematic Hits" /\ size r = 6000%Z /\ format r = "wav".
Proof.
  assert (Hg : BoomLibrary <> Kenney) by discriminate.
  assert (HB : Below [ File "don't_stop.wav" 5000; File "cover.jpg" 300;
                       Dir "Designed" 4096
                         [ Dir "Low" 4096 [ File "big-hit_01.WAV" 6000 ] ] ]
                     ["Designed"; "Low"] "big-hit_01.WAV" 6000).
  { eapply Below_down; [right; right; left; reflexivity |].
    eapply Below_down; [left; reflexivity |].
    apply Below_here. left. reflexivity. }
  assert (HW : Walked BoomLibrary boomTree ["Cinematic Hits"]
                 (categoryOf BoomLibrary "Cinematic Hits")
                 [ File "don't_stop.wav" 5000; File "cover.jpg" 300;
                   Dir "Designed" 4096
                     [ Dir "Low" 4096 [ File "big-hit_01.WAV" 6000 ] ] ]).
  { eapply Walked_subdir; [exact Hg | discriminate | reflexivity |].
    left. reflexivity. }
  split; [exact Hg |]. split; [eexists; split; [exact HW | exact HB] |].
  split; [reflexivity |].
  destruct (scan BoomLibrary noon boomTree) as [st|e] eqn:E; [| discriminate E].
  destruct (nested_files_emitted BoomLibrary noon Hg) as (_ & _ & Hrun).
  destruct (Hrun boomTree st _ _ _ _ _ _ E HW HB eq_refl) as (r & Hr).
  exists st, r. split; [reflexivity | exact Hr].
Defined.

(** C4 fails as stated: the Kenney script does not go into directories;
    [extra/footstep_snow_000.ogg] below a scanned [Audio] folder has no
    record. *)
Lemma kenney_does_not_recurse :
  exists items,
    child "Audio" (child "kenney_impact-sounds" kenneyTree)
    = Some (Dir "Audio" 4096 items) /\
    Below items ["extra"] "footstep_snow_000.ogg" 7100 /\
    allowed (extension "footstep_snow_000.ogg") = true /\
    result_map (map path) (records Kenney noon kenneyTree)
    = Ok ["audio/Kenney/kenney_impact-sounds/Audio/footstep_carpet_000.ogg";
          "audio/Kenney/kenney_voiceover-pack/Male/game_over.ogg"] /\
    processItems Kenney noon ["kenney_impact-sounds"; "Audio"] "Impact Sounds" ""
      [ Dir "extra" 4096 [ File "footstep_snow_000.ogg" 7100 ] ] initial
    = initial.
Proof.
  eexists. split; [reflexivity |]. split.
  - eapply Below_down; [right; left; reflexivity |].
    apply Below_here. left. reflexivity.
  - repeat split.
Qed.

(* ================================================================== *)
(** ** C5: formats *)

Lemma allowed_In (ext : string) :
  allowed ext = true -> In ext ["ogg"; "wav"; "mp3"].
Proof. unfold allowed. apply existsb_eqb_In. Qed.

(** C5.  Every record of a manifest has one of the formats ogg, wav, mp3,
    that format being the lowercased extension of the file the record's
    path names; and an entry whose lowercased extension is none of the
    three leaves the manifest and the counter as they are. *)
Theorem formats_allowed (g : generator) (c : clock) (base : target) (st : state) :
  scan g c base = Ok st ->
  Forall (fun r => In (format r) ["ogg"; "wav"; "mp3"] /\
                   exists dirs file,
                     path r = manifestPath g dirs file /\
                     format r = extension file)
         (manifest st)
  /\
  (forall dirSegs cat subcat file bytes s,
      allowed (extension file) = false ->
      processItem g c dirSegs cat subcat (File file bytes) s = s).
Proof.
  intros Hscan. split.
  - apply scan_Made in Hscan. eapply Forall_impl; [| exact Hscan].
    intros r (now & n & dirs & cat & subcat & file & bytes & Hext & ->).
    cbn [makeRecord format path]. split.
    + now apply allowed_In.
    + exists dirs, file. split; reflexivity.
  - intros dirSegs cat subcat file bytes s Hext. cbn [processItem].
    now apply processFile_skipped.
Qed.

Lemma formats_allowed_witness :
  exists st,
    scan BoomLibrary noon boomTree = Ok st /\
    map format (manifest st) = ["wav"; "wav"] /\
    Forall (fun r => In (format r) ["ogg"; "wav"; "mp3"]) (manifest st) /\
    processItem BoomLibrary noon ["Cinematic Hits"] "Cinematic Hits" ""
      (File "cover.jpg" 300) initial = initial.
Proof.
  destruct (scan BoomLibrary noon boomTree) as [st|e] eqn:E; [| discriminate E].
  exists st.
  destruct (formats_allowed BoomLibrary noon boomTree st E) as [Hall Hskip].
  split; [reflexivity |]. split.
  - vm_compute in E. injection E as <-. reflexivity.
  - split.
    + eapply Forall_impl; [| exact Hall]. intros r [H _]. exact H.
    + apply Hskip. reflexivity.
Defined.

(* ================================================================== *)
(** ** C6: identifiers *)

Lemma push_numbered mk c st :
  (forall now n, id (mk now n) = n) ->
  numbered st -> numbered (push mk c st).
Proof.
  intros Hid [Hc Hm]. unfold numbered. cbn [push manifest id_counter].
  rewrite length_app, map_app, Nat.add_comm. cbn [List.length Nat.add map].
  rewrite seq_S, map_app, Hm, Hid, Hc. cbn [map]. split.
  - lia.
  - do 2 f_equal. lia.
Qed.

Lemma processFile_numbered g c dirSegs cat subcat file bytes st :
  numbered st -> numbered (processFile g c dirSegs cat subcat file bytes st).
Proof.
  intros H. unfold processFile.
  destruct (negb (allowed (extension file))); [exact H |].
  apply push_numbered; [reflexivity | exact H].
Qed.

(** C6.  The identifiers of a manifest of N records are 1, 2, ..., N in
    the order of the array. *)
Theorem ids_sequential (g : generator) (c : clock) (base : target) (st : state) :
  scan g c base = Ok st ->
  map id (manifest st) = map Z.of_nat (seq 1 (List.length (manifest st))).
Proof.
  intros Hscan.
  apply (scan_inv g c numbered) with (base := base); try assumption.
  - intros. now apply processFile_numbered.
  - split; reflexivity.
Qed.

Lemma ids_sequential_witness :
  exists st,
    scan Kenney noon kenneyTree = Ok st /\
    List.length (manifest st) = 2 /\
    map id (manifest st) = [1; 2]%Z.
Proof.
  destruct (scan Kenney noon kenneyTree) as [st|e] eqn:E; [| discriminate E].
  exists st. split; [reflexivity |].
  assert (L : List.length (manifest st) = 2).
  { vm_compute in E. injection E as <-. reflexivity. }
  split; [exact L |].
  rewrite (ids_sequential Kenney noon kenneyTree st E), L. reflexivity.
Defined.

(* ================================================================== *)
(** ** C7: deduplicated tags *)

(** C7.  The tags of every record of a manifest are the tag list the rules
    accumulated for the record's category and for the stem of the file its
    path names, with every string kept where it occurs first and dropped
    afterwards; no string occurs twice. *)
Theorem tags_deduplicated (g : generator) (c : clock) (base : target) (st : state) :
  scan g c base = Ok st ->
  Forall (fun r =>
            NoDup (tags r) /\
            exists dirs file subcat,
              path r = manifestPath g dirs file /\
              tags r = firstOccurrences (collectTags g (category r) subcat (stem file)))
         (manifest st).
Proof.
  intros Hscan. apply scan_Made in Hscan.
  eapply Forall_impl; [| exact Hscan].
  intros r (now & n & dirs & cat & subcat & file & bytes & _ & ->).
  cbn [makeRecord tags path category]. split.
  - apply unique_NoDup.
  - exists dirs, file, subcat. split; [reflexivity |].
    apply unique_firstOccurrences.
Qed.

Lemma tags_deduplicated_witness :
  exists st,
    scan BoomLibrary noon boomTree = Ok st /\
    Forall (fun r => NoDup (tags r)) (manifest st) /\
    collectTags BoomLibrary "Cinematic Hits" "" "don't_stop"
    = ["cinematic hits"; "boom library"; "professional"; "cinematic";
       "hit"; "impact"; "cinematic"] /\
    map tags (manifest st)
    = [ ["cinematic hits"; "boom library"; "professional"; "cinematic";
         "hit"; "impact"];
        ["cinematic hits"; "low"; "boom library"; "professional"; "cinematic";
         "hit"; "impact"; "strike"; "big"; "large"; "massive"] ].
Proof.
  destruct (scan BoomLibrary noon boomTree) as [st|e] eqn:E; [| discriminate E].
  exists st. split; [reflexivity |]. split.
  - generalize (tags_deduplicated BoomLibrary noon boomTree st E).
    apply Forall_impl. intros r [H _]. exact H.
  - split; [reflexivity |].
    vm_compute in E. injection E as <-. reflexivity.
Defined.

(* ================================================================== *)
(** ** C8: empty and missing library folders *)

(** C8, as the code has it.  When the library's folder exists and is
    empty the run is no error: nothing is scanned and [manifest.json] holds
    exactly the empty array.  When the folder is missing every script ends
    with the error ENOENT and writes nothing: seven of them list the
    folder first, and the H360s script, whose scan finds nothing, cannot
    create the file in a folder that is not there. *)
Theorem empty_and_missing_root (g : generator) (c : clock) (d : string) (b : Z) :
  scan g c (Some (Dir d b [])) = Ok initial /\
  generate g c (Some (Dir d b [])) = Ok "[]" /\
  generate g c None = Throw ENOENT /\
  scan H360s c None = Ok initial.
Proof. destruct g; repeat split. Qed.

(** C8 fails as stated: with a missing folder a run is an error. *)
Lemma missing_root_throws :
  generate BoomLibrary noon None = Throw ENOENT /\
  generate BoomLibrary noon None <> Ok "[]" /\
  generate H360s noon None = Throw ENOENT /\
  generate H360s noon None <> Ok "[]".
Proof. repeat split; discriminate. Qed.

(* ================================================================== *)
(** ** C9: two runs over one tree *)

Section TwoRuns.

Variables (g : generator) (c1 c2 : clock).

Lemma processFile_same dirSegs cat subcat file bytes s1 s2 :
  sameContent s1 s2 ->
  sameContent (processFile g c1 dirSegs cat subcat file bytes s1)
              (processFile g c2 dirSegs cat subcat file bytes s2).
Proof.
  unfold sameContent, processFile. intros H.
  destruct (negb (allowed (extension file))); [exact H |].
  cbn [push manifest]. rewrite !map_app, H. reflexivity.
Qed.

Lemma processItem_same item :
  forall dirSegs cat subcat s1 s2,
    sameContent s1 s2 ->
    sameContent (processItem g c1 dirSegs cat subcat item s1)
                (processItem g c2 dirSegs cat subcat item s2).
Proof.
  induction item as [file bytes | dir bytes items IH] using entry_induction;
    intros dirSegs cat subcat s1 s2 H; cbn [processItem].
  - now apply processFile_same.
  - destruct (recurses g); [| now apply processFile_same].
    revert s1 s2 H.
    induction IH as [|x xs Hx _ IHxs]; intros s1 s2 H; cbn [fold_left].
    + exact H.
    + apply IHxs. now apply Hx.
Qed.

Lemma processItems_same items :
  forall dirSegs cat subcat s1 s2,
    sameContent s1 s2 ->
    sameContent (processItems g c1 dirSegs cat subcat items s1)
                (processItems g c2 dirSegs cat subcat items s2).
Proof.
  induction items as [|x xs IH]; intros dirSegs cat subcat s1 s2 H.
  - exact H.
  - rewrite !processItems_cons. apply IH. now apply processItem_same.
Qed.

Lemma processAudioDirectory_same dirSegs cat subcat p s1 s2 :
  sameContent s1 s2 ->
  sameOutcome (processAudioDirectory g c1 dirSegs cat subcat p s1)
              (processAudioDirectory g c2 dirSegs cat subcat p s2).
Proof.
  intros H. unfold processAudioDirectory.
  destruct p as [[file bytes | dir bytes items]|]; cbn;
    auto using processItems_same.
Qed.

Lemma processIfExists_same dirSegs cat subcat p s1 s2 :
  sameContent s1 s2 ->
  sameOutcome (processIfExists g c1 dirSegs cat subcat p s1)
              (processIfExists g c2 dirSegs cat subcat p s2).
Proof.
  intros H. unfold processIfExists. destruct (existsSync p).
  - now apply processAudioDirectory_same.
  - exact H.
Qed.

Lemma bind_same (r1 r2 : result state) (k1 k2 : state -> result state) :
  sameOutcome r1 r2 ->
  (forall s1 s2, sameContent s1 s2 -> sameOutcome (k1 s1) (k2 s2)) ->
  sameOutcome (bind r1 k1) (bind r2 k2).
Proof.
  destruct r1 as [s1|e1], r2 as [s2|e2]; cbn; intros H Hk;
    solve [now apply Hk | exact H | contradiction].
Qed.

Lemma forEachM_same {A : Type} (f1 f2 : A -> state -> result state) (l : list A) :
  (forall x s1 s2, sameContent s1 s2 -> sameOutcome (f1 x s1) (f2 x s2)) ->
  forall s1 s2,
    sameContent s1 s2 -> sameOutcome (forEachM f1 l s1) (forEachM f2 l s2).
Proof.
  intros Hf. induction l as [|x xs IH]; intros s1 s2 H; cbn [forEachM].
  - exact H.
  - apply bind_same; [now apply Hf | exact IH].
Qed.

End TwoRuns.

Lemma scan_same (g : generator) (c1 c2 : clock) (base : target) :
  sameOutcome (scan g c1 base) (scan g c2 base).
Proof.
  assert (H0 : sameContent initial initial) by reflexivity.
  assert (Hdirs : forall entries,
             sameOutcome
               (forEachM
                  (fun subdir s =>
                     processAudioDirectory g c1 [entry_name subdir]
                       (categoryOf g (entry_name subdir)) "" (Some subdir) s)
                  (filter isDirectory entries) initial)
               (forEachM
                  (fun subdir s =>
                     processAudioDirectory g c2 [entry_name subdir]
                       (categoryOf g (entry_name subdir)) "" (Some subdir) s)
                  (filter isDirectory entries) initial)).
  { intros entries. apply forEachM_same; [| exact H0].
    intros x s1 s2 H. now apply processAudioDirectory_same. }
  destruct g; cbn [scan];
    try (destruct (readdirSync base) as [entries|e]; cbn [bind sameOutcome];
         [apply Hdirs | reflexivity]).
  - (* Kenney *)
    destruct (readdirSync base) as [entries|e]; cbn [bind sameOutcome];
      [| reflexivity].
    apply forEachM_same; [| exact H0].
    intros x s1 s2 H. unfold kenneySubdir.
    apply bind_same; [now apply processIfExists_same |].
    intros t1 t2 Ht. apply bind_same; [now apply processIfExists_same |].
    intros u1 u2 Hu. now apply processIfExists_same.
  - (* H360s *)
    apply forEachM_same; [| exact H0].
    intros x s1 s2 H. now apply processIfExists_same.
Qed.

(** C9.  Two runs of a script over one directory tree, at whatever times,
    end alike: both with the same error, or both with manifests whose
    records agree, one by one, in path, name, category, format, size, tags,
    description and library. *)
Theorem runs_agree_in_content (g : generator) (c1 c2 : clock) (base : target) :
  result_map (map content) (records g c1 base)
  = result_map (map content) (records g c2 base).
Proof.
  unfold records. pose proof (scan_same g c1 c2 base) as H.
  destruct (scan g c1 base) as [s1|e1], (scan g c2 base) as [s2|e2];
    cbn in *; try contradiction.
  - unfold sameContent in H. now rewrite H.
  - now subst.
Qed.

(* ================================================================== *)
(** ** C10: which folder names the subcategory *)

Lemma subcategoryAt_H360s (d : string) (dirs : list string) :
  d <> "" -> subcategoryAt H360s "" (d :: dirs) = d.
Proof.
  intros Hd. unfold subcategoryAt. cbn [fold_left childSubcategory Js.truthy].
  induction dirs as [|x xs IH]; cbn [fold_left childSubcategory]; [reflexivity |].
  now rewrite (truthy_nonempty _ Hd).
Qed.

Lemma last_default (A : Type) (xs : list A) :
  forall x d d', last (x :: xs) d = last (x :: xs) d'.
Proof.
  induction xs as [|y ys IH]; intros x d d'; [reflexivity |].
  change (last (y :: ys) d = last (y :: ys) d'). apply IH.
Qed.

Lemma last_cons (A : Type) (xs : list A) (x d : A) :
  last (x :: xs) d = last xs x.
Proof.
  destruct xs as [|y ys]; [reflexivity |].
  change (last (y :: ys) d = last (y :: ys) x). apply last_default.
Qed.

Lemma subcategoryAt_last (g : generator) (dirs : list string) :
  handsDownItemName g = true ->
  forall s d, subcategoryAt g s (d :: dirs) = last dirs d.
Proof.
  intros Hg. unfold subcategoryAt.
  induction dirs as [|x xs IH]; intros s d.
  - destruct g; try discriminate Hg; reflexivity.
  - rewrite last_cons, <- (IH (childSubcategory g s d) x). reflexivity.
Qed.

Lemma last_In (A : Type) (l : list A) :
  forall d, In (last l d) (d :: l).
Proof.
  induction l as [|x xs IH]; intros d; [now left |].
  right. rewrite last_cons. apply IH.
Qed.

(** C10.  Take a file with an allowed extension that lies in the folders
    [d], then [dirs], below a category folder walked with an empty
    subcategory (folder names are not empty).  The H360s script makes its
    record with the subcategory [d], the first folder on the way, and tags
    it with the lowercased [d]; the scripts that hand [item.name] down
    (BoomLibrary, Other, Amiga Music, Adobe, XDSoundKit) make it with the
    last folder on the way, the one that holds the file, and tag it with
    that name lowercased. *)
Theorem subcategory_of_nested_file (c : clock) (items : list entry)
  (d : string) (dirs : list string) (file : string) (bytes : Z)
  (dirSegs : list string) (cat : string) (st : state) :
  Below items (d :: dirs) file bytes ->
  allowed (extension file) = true ->
  ~ In "" (d :: dirs) ->
  (exists now n,
      In (makeRecord H360s now n (dirSegs ++ d :: dirs) cat d file bytes)
         (manifest (processItems H360s c dirSegs cat "" items st)) /\
      In (Js.toLowerCase d)
         (tags (makeRecord H360s now n (dirSegs ++ d :: dirs) cat d file bytes)))
  /\
  (forall g,
      handsDownItemName g = true ->
      exists now n,
        In (makeRecord g now n (dirSegs ++ d :: dirs) cat (last dirs d) file bytes)
           (manifest (processItems g c dirSegs cat "" items st)) /\
        In (Js.toLowerCase (last dirs d))
           (tags (makeRecord g now n (dirSegs ++ d :: dirs) cat (last dirs d)
                    file bytes))).
Proof.
  intros HB Hext Hne.
  assert (Hd : d <> "") by (intros ->; apply Hne; now left).
  assert (Hl : last dirs d <> "").
  { intros E. apply Hne. rewrite <- E. apply last_In. }
  split.
  - destruct (processItems_emits H360s c eq_refl _ _ _ _ HB Hext dirSegs cat "" st)
      as (now & n & Hin).
    rewrite (subcategoryAt_H360s d dirs Hd) in Hin.
    exists now, n. split; [exact Hin |].
    cbn [makeRecord tags]. apply unique_In.
    now apply collectTags_subcategory.
  - intros g Hg.
    assert (Hr : recurses g = true) by (destruct g; try discriminate Hg; reflexivity).
    assert (Hp : pushes_category g = true)
      by (destruct g; try discriminate Hg; reflexivity).
    destruct (processItems_emits g c Hr _ _ _ _ HB Hext dirSegs cat "" st)
      as (now & n & Hin).
    rewrite (subcategoryAt_last g dirs Hg) in Hin.
    exists now, n. split; [exact Hin |].
    cbn [makeRecord tags]. apply unique_In.
    now apply collectTags_subcategory.
Qed.

Lemma subcategory_of_nested_file_witness :
  Below [ Dir "Footsteps" 4096 [ Dir "Concrete" 4096 [ File "step_01.mp3" 800 ] ] ]
        ["Footsteps"; "Concrete"] "step_01.mp3" 800 /\
  allowed (extension "step_01.mp3") = true /\
  ~ In "" ["Footsteps"; "Concrete"] /\
  (exists now n,
      In (makeRecord H360s now n ["Foley"; "Footsteps"; "Concrete"] "Foley"
            "Footsteps" "step_01.mp3" 800)
         (manifest
            (processItems H360s noon ["Foley"] "Foley" ""
               [ Dir "Footsteps" 4096 [ Dir "Concrete" 4096 [ File "step_01.mp3" 800 ] ] ]
               initial))) /\
  (exists now n,
      In (makeRecord BoomLibrary now n ["Foley"; "Footsteps"; "Concrete"] "Foley"
            "Concrete" "step_01.mp3" 800)
         (manifest
            (processItems BoomLibrary noon ["Foley"] "Foley" ""
               [ Dir "Footsteps" 4096 [ Dir "Concrete" 4096 [ File "step_01.mp3" 800 ] ] ]
               initial))).
Proof.
  assert (HB : Below [ Dir "Footsteps" 4096
                         [ Dir "Concrete" 4096 [ File "step_01.mp3" 800 ] ] ]
                     ["Footsteps"; "Concrete"] "step_01.mp3" 800).
  { eapply Below_down; [left; reflexivity |].
    eapply Below_down; [left; reflexivity |].
    apply Below_here. left. reflexivity. }
  assert (Hne : ~ In "" ["Footsteps"; "Concrete"]).
  { cbn. intros [H | [H | []]]; discriminate H. }
  destruct (subcategory_of_nested_file noon _ _ _ _ _ ["Foley"] "Foley" initial
              HB eq_refl Hne) as [(now & n & Hin & _) Hboom].
  destruct (Hboom BoomLibrary eq_refl) as (now' & n' & Hin' & _).
  split; [exact HB |]. split; [reflexivity |]. split; [exact Hne |].
  split; [exists now, n; exact Hin | exists now', n'; exact Hin'].
Defined.

(* ================================================================== *)
(** ** Further properties of the generators *)

(** *** The order of a manifest *)

Lemma processFile_located g c dirSegs cat subcat file bytes st :
  map located (manifest (processFile g c dirSegs cat subcat file bytes st))
  = map located (manifest st)
    ++ map (placed g)
         (if allowed (extension file) then [(dirSegs, file, bytes)] else []).
Proof.
  unfold processFile. destruct (allowed (extension file)); cbn [negb].
  - cbn [push manifest]. rewrite map_app. reflexivity.
  - cbn [map]. now rewrite app_nil_r.
Qed.

Lemma processItem_located g c item :
  forall dirSegs cat subcat st,
    map located (manifest (processItem g c dirSegs cat subcat item st))
    = map located (manifest st) ++ map (placed g) (listItem g dirSegs item).
Proof.
  induction item as [file bytes | dir bytes items IH] using entry_induction;
    intros dirSegs cat subcat st; cbn [processItem listItem].
  - apply processFile_located.
  - destruct (recurses g); [| apply processFile_located].
    revert st. induction IH as [|x xs Hx _ IHxs]; intros st;
      cbn [fold_left flat_map].
    + cbn [map]. now rewrite app_nil_r.
    + rewrite IHxs, Hx, map_app, app_assoc. reflexivity.
Qed.

Lemma processItems_located g c items :
  forall dirSegs cat subcat st,
    map located (manifest (processItems g c dirSegs cat subcat items st))
    = map located (manifest st) ++ map (placed g) (listItems g dirSegs items).
Proof.
  unfold listItems.
  induction items as [|x xs IH]; intros dirSegs cat subcat st.
  - cbn. now rewrite app_nil_r.
  - rewrite processItems_cons, IH, processItem_located. cbn [flat_map].
    rewrite map_app, app_assoc. reflexivity.
Qed.

Lemma processAudioDirectory_located g c dirSegs cat subcat p st st' :
  processAudioDirectory g c dirSegs cat subcat p st = Ok st' ->
  map located (manifest st')
  = map located (manifest st) ++ map (placed g) (listFolder g dirSegs p).
Proof.
  unfold processAudioDirectory.
  destruct p as [[file bytes | dir bytes items]|]; cbn; intros H;
    inversion H; subst.
  - apply processItems_located.
  - now rewrite app_nil_r.
Qed.

Lemma processIfExists_located g c dirSegs cat subcat p st st' :
  processIfExists g c dirSegs cat subcat p st = Ok st' ->
  map located (manifest st')
  = map located (manifest st) ++ map (placed g) (listFolder g dirSegs p).
Proof.
  unfold processIfExists. destruct (existsSync p) eqn:E.
  - apply processAudioDirectory_located.
  - destruct p; [discriminate E |]. intros H. inversion H; subst.
    cbn. now rewrite app_nil_r.
Qed.

Lemma forEachM_located {A : Type} (g : generator)
  (f : A -> state -> result state) (L : A -> list place) (l : list A) :
  (forall x s s',
      f x s = Ok s' ->
      map located (manifest s') = map located (manifest s) ++ map (placed g) (L x)) ->
  forall st st',
    forEachM f l st = Ok st' ->
    map located (manifest st')
    = map located (manifest st) ++ map (placed g) (flat_map L l).
Proof.
  intros Hf. induction l as [|x xs IH]; intros st st' H; cbn in H.
  - inversion H; subst. cbn. now rewrite app_nil_r.
  - destruct (f x st) as [s|e] eqn:E; cbn in H; [| discriminate H].
    rewrite (IH _ _ H), (Hf _ _ _ E). cbn [flat_map].
    rewrite map_app, app_assoc. reflexivity.
Qed.

Lemma scan_located (g : generator) (c : clock) (base : target) (st : state) :
  scan g c base = Ok st ->
  map located (manifest st) = map (placed g) (scanListing g base).
Proof.
  assert (Hdirs : forall entries,
             forEachM
               (fun subdir s =>
                  processAudioDirectory g c [entry_name subdir]
                    (categoryOf g (entry_name subdir)) "" (Some subdir) s)
               (filter isDirectory entries) initial = Ok st ->
             map located (manifest st)
             = map (placed g)
                 (flat_map (fun subdir => listFolder g [entry_name subdir] (Some subdir))
                           (filter isDirectory entries))).
  { intros entries H.
    apply (forEachM_located g _
             (fun subdir => listFolder g [entry_name subdir] (Some subdir))) in H.
    - exact H.
    - intros x s s'. apply processAudioDirectory_located. }
  destruct g; cbn [scan scanListing];
    try (destruct base as [[file bytes | dir bytes entries]|]; cbn [readdirSync bind];
         [discriminate | apply Hdirs | discriminate]).
  - (* Kenney *)
    destruct base as [[file bytes | dir bytes entries]|]; cbn [readdirSync bind];
      try discriminate.
    intros H.
    apply (forEachM_located Kenney _
             (fun subdir =>
                flat_map
                  (fun sub =>
                     listFolder Kenney [entry_name subdir; sub]
                       (child sub (Some subdir)))
                  ["Audio"; "Male"; "Female"])) in H; [exact H |].
    intros x s s'. unfold kenneySubdir.
    destruct (processIfExists Kenney c _ _ _ (child "Audio" _) s) as [s1|] eqn:E1;
      cbn [bind]; [| discriminate].
    destruct (processIfExists Kenney c _ _ _ (child "Male" _) s1) as [s2|] eqn:E2;
      cbn [bind]; [| discriminate].
    intros E3.
    apply processIfExists_located in E1, E2, E3.
    rewrite E3, E2, E1. cbn [flat_map]. rewrite !map_app, app_nil_r, !app_assoc.
    reflexivity.
  - (* H360s *)
    intros H.
    apply (forEachM_located H360s _
             (fun cat => listFolder H360s [cat] (child cat base))) in H; [exact H |].
    intros x s s'. apply processIfExists_located.
Qed.

(** X1.  The manifest a scan ends with lists, record by record, the path
    and the size of the names with an allowed extension in the order the
    walk reaches them: depth first, every directory in the order of its
    listing.  In particular it has as many records as the walk finds such
    names. *)
Theorem manifest_in_walk_order (g : generator) (c : clock) (base : target)
  (st : state) :
  scan g c base = Ok st ->
  map located (manifest st) = map (placed g) (scanListing g base) /\
  List.length (manifest st) = List.length (scanListing g base).
Proof.
  intros H. pose proof (scan_located g c base st H) as E. split; [exact E |].
  apply (f_equal (@List.length _)) in E. now rewrite !length_map in E.
Qed.

Lemma manifest_in_walk_order_witness :
  exists st,
    scan BoomLibrary noon boomTree = Ok st /\
    scanListing BoomLibrary boomTree
    = [ (["Cinematic Hits"], "don't_stop.wav", 5000%Z);
        (["Cinematic Hits"; "Designed"; "Low"], "big-hit_01.WAV", 6000%Z) ] /\
    map located (manifest st)
    = [ ("audio/BoomLibrary/Cinematic Hits/don't_stop.wav", 5000%Z);
        ("audio/BoomLibrary/Cinematic Hits/Designed/Low/big-hit_01.WAV", 6000%Z) ] /\
    List.length (manifest st) = 2.
Proof.
  destruct (scan BoomLibrary noon boomTree) as [st|e] eqn:E; [| discriminate E].
  exists st. split; [reflexivity |]. split; [reflexivity |].
  destruct (manifest_in_walk_order BoomLibrary noon boomTree st E) as [H1 H2].
  split; [rewrite H1; reflexivity | rewrite H2; reflexivity].
Defined.

(** *** Distinct paths *)

Lemma append_cancel_l (a x y : string) : (a ++ x = a ++ y)%string -> x = y.
Proof.
  induction a as [|ch a IH]; cbn; intros H; [exact H |].
  injection H as H. now apply IH.
Qed.

Lemma slash_free_split (a : string) :
  forall a' x y,
    slash_free a = true -> slash_free a' = true ->
    (a ++ "/" ++ x = a' ++ "/" ++ y)%string ->
    a = a' /\ x = y.
Proof.
  induction a as [|ch a IH]; intros [|ch' a'] x y Ha Ha' H; cbn in *.
  - injection H as H. now split.
  - injection H as Hc _. subst ch'. discriminate Ha'.
  - injection H as Hc _. subst ch. discriminate Ha.
  - injection H as Hc H. subst ch'.
    apply andb_true_iff in Ha, Ha'. destruct Ha as [_ Ha], Ha' as [_ Ha'].
    destruct (IH a' x y Ha Ha' H) as [-> ->]. now split.
Qed.

Lemma slash_free_no_separator (a : string) :
  forall a' y, slash_free a = true -> a <> (a' ++ "/" ++ y)%string.
Proof.
  induction a as [|ch a IH]; intros [|ch' a'] y Ha H; cbn in *;
    try discriminate H.
  - injection H as Hc _. subst ch. discriminate Ha.
  - injection H as _ H. apply andb_true_iff in Ha. destruct Ha as [_ Ha].
    now apply (IH a' y Ha).
Qed.

Lemma join_inj (l1 : list string) :
  forall l2,
    slash_free_all l1 -> slash_free_all l2 ->
    l1 <> [] -> l2 <> [] ->
    NodePath.join l1 = NodePath.join l2 -> l1 = l2.
Proof.
  unfold NodePath.join, slash_free_all.
  induction l1 as [|a l1 IH]; intros l2 H1 H2 N1 N2 E; [now elim N1 |].
  destruct l2 as [|a' l2]; [now elim N2 |].
  inversion H1 as [|? ? Ha H1']; subst. inversion H2 as [|? ? Ha' H2']; subst.
  destruct l1 as [|b l1], l2 as [|b' l2]; cbn [concat] in E.
  - now subst.
  - exfalso. eapply slash_free_no_separator; [exact Ha | exact E].
  - exfalso. symmetry in E. eapply slash_free_no_separator; [exact Ha' | exact E].
  - destruct (slash_free_split a a' _ _ Ha Ha' E) as [-> E'].
    f_equal. apply IH; try assumption; discriminate.
Qed.

Lemma libraryPath_inj g (segs segs' : list string) :
  slash_free_all segs -> slash_free_all segs' ->
  segs <> [] -> segs' <> [] ->
  NodePath.join ["audio"; folder g; NodePath.join segs]
  = NodePath.join ["audio"; folder g; NodePath.join segs'] ->
  segs = segs'.
Proof.
  intros H H' N N' E.
  set (r := NodePath.join segs) in E. set (r' := NodePath.join segs') in E.
  unfold NodePath.join in E. cbn [concat] in E.
  apply append_cancel_l in E. apply append_cancel_l in E.
  apply append_cancel_l in E. apply append_cancel_l in E.
  now apply join_inj.
Qed.

Lemma distinct_NoDup (l : list string) : distinct l = true -> NoDup l.
Proof.
  induction l as [|x t IH]; cbn; intros H; constructor;
    apply andb_true_iff in H; destruct H as [Hx Ht].
  - intros Hin. apply existsb_eqb_In in Hin. rewrite Hin in Hx. discriminate Hx.
  - now apply IH.
Qed.

Lemma map_flat_map {A B C : Type} (h : B -> C) (f : A -> list B) (l : list A) :
  map h (flat_map f l) = flat_map (fun x => map h (f x)) l.
Proof.
  induction l as [|x xs IH]; cbn; [reflexivity |].
  now rewrite map_app, IH.
Qed.

(** Lists made for distinct keys, each without repetition and each
    marked with its key, have no element in common. *)
Lemma NoDup_flat_map_keyed {A B K : Type} (f : A -> list B) (key : A -> K)
  (tag : B -> K) (l : list A) :
  NoDup (map key l) ->
  (forall x b, In x l -> In b (f x) -> tag b = key x) ->
  (forall x, In x l -> NoDup (f x)) ->
  NoDup (flat_map f l).
Proof.
  induction l as [|x xs IH]; intros Hk Htag Hnd; cbn; [constructor |].
  inversion Hk as [|? ? Hx Hk']; subst.
  apply NoDup_app.
  - apply Hnd. now left.
  - apply IH; [exact Hk' | |]; intros; [apply Htag | apply Hnd]; auto; now right.
  - intros b Hb Hb'. apply in_flat_map in Hb'. destruct Hb' as (y & Hy & Hby).
    apply Hx. apply in_map_iff. exists y. split; [| exact Hy].
    rewrite <- (Htag y b), <- (Htag x b); auto; try (now left); now right.
Qed.

Lemma listItem_prefix g item :
  forall dirSegs pl,
    In pl (listItem g dirSegs item) ->
    exists rest, segments pl = dirSegs ++ entry_name item :: rest.
Proof.
  induction item as [file bytes | dir bytes items IH] using entry_induction;
    intros dirSegs pl Hin; cbn [listItem entry_name] in *.
  - destruct (allowed (extension file)); [| destruct Hin].
    destruct Hin as [<- | []]. now exists [].
  - destruct (recurses g).
    + apply in_flat_map in Hin. destruct Hin as (x & Hx & Hin).
      rewrite Forall_forall in IH.
      destruct (IH x Hx _ _ Hin) as (rest & E).
      exists (entry_name x :: rest). now rewrite E, <- app_assoc.
    + destruct (allowed (extension dir)); [| destruct Hin].
      destruct Hin as [<- | []]. now exists [].
Qed.

Lemma listItems_prefix g items dirSegs pl :
  In pl (listItems g dirSegs items) ->
  exists x rest, In x items /\ segments pl = dirSegs ++ entry_name x :: rest.
Proof.
  intros Hin. apply in_flat_map in Hin. destruct Hin as (x & Hx & Hin).
  destruct (listItem_prefix g x _ _ Hin) as (rest & E). now exists x, rest.
Qed.

Lemma slash_free_all_app l1 l2 :
  slash_free_all l1 -> slash_free_all l2 -> slash_free_all (l1 ++ l2).
Proof. unfold slash_free_all. intros. apply Forall_app. now split. Qed.

Lemma well_formed_Dir dir bytes items :
  well_formed (Dir dir bytes items) = true ->
  slash_free dir = true /\ NoDup (map entry_name items) /\
  Forall (fun x => well_formed x = true) items.
Proof.
  cbn [well_formed]. intros H.
  apply andb_true_iff in H. destruct H as [H Hw].
  apply andb_true_iff in H. destruct H as [Hd Hn].
  repeat split; [exact Hd | now apply distinct_NoDup |].
  apply Forall_forall. now apply forallb_forall.
Qed.

Lemma listItem_slash_free g item :
  forall dirSegs pl,
    well_formed item = true -> slash_free_all dirSegs ->
    In pl (listItem g dirSegs item) -> slash_free_all (segments pl).
Proof.
  induction item as [file bytes | dir bytes items IH] using entry_induction;
    intros dirSegs pl Hw Hd Hin; cbn [listItem] in Hin.
  - destruct (allowed (extension file)); [| destruct Hin].
    destruct Hin as [<- | []]. apply slash_free_all_app; [exact Hd |].
    constructor; [exact Hw | constructor].
  - apply well_formed_Dir in Hw. destruct Hw as (Hdir & _ & Hws).
    destruct (recurses g).
    + apply in_flat_map in Hin. destruct Hin as (x & Hx & Hin).
      rewrite Forall_forall in IH, Hws.
      apply (IH x Hx (dirSegs ++ [dir])); auto.
      apply slash_free_all_app; [exact Hd |]. constructor; [exact Hdir | constructor].
    + destruct (allowed (extension dir)); [| destruct Hin].
      destruct Hin as [<- | []]. apply slash_free_all_app; [exact Hd |].
      constructor; [exact Hdir | constructor].
Qed.

Lemma listItems_NoDup_from g items dirSegs :
  NoDup (map entry_name items) ->
  (forall x, In x items -> NoDup (map segments (listItem g dirSegs x))) ->
  NoDup (map segments (listItems g dirSegs items)).
Proof.
  intros Hn Hx. unfold listItems. rewrite map_flat_map.
  apply (NoDup_flat_map_keyed _ entry_name
           (fun segs => nth (List.length dirSegs) segs "")); [exact Hn | | exact Hx].
  intros x b Hin Hb. apply in_map_iff in Hb. destruct Hb as (pl & <- & Hpl).
  destruct (listItem_prefix g x _ _ Hpl) as (rest & ->). apply nth_middle.
Qed.

Lemma listItem_NoDup g item :
  forall dirSegs,
    well_formed item = true ->
    NoDup (map segments (listItem g dirSegs item)).
Proof.
  induction item as [file bytes | dir bytes items IH] using entry_induction;
    intros dirSegs Hw; cbn [listItem].
  - destruct (allowed (extension file)); cbn; repeat constructor. intros [].
  - apply well_formed_Dir in Hw. destruct Hw as (_ & Hn & Hws).
    destruct (recurses g).
    + apply (listItems_NoDup_from g items); [exact Hn |].
      rewrite Forall_forall in IH, Hws. intros x Hx. now apply IH, Hws.
    + destruct (allowed (extension dir)); cbn; repeat constructor. intros [].
Qed.

Lemma listFolder_NoDup g dirSegs p :
  well_formed_target p = true ->
  NoDup (map segments (listFolder g dirSegs p)).
Proof.
  destruct p as [[file bytes | dir bytes items]|]; cbn [listFolder map];
    intros Hw; [constructor | | constructor].
  change (well_formed (Dir dir bytes items) = true) in Hw.
  apply well_formed_Dir in Hw. destruct Hw as (_ & Hn & Hws).
  apply listItems_NoDup_from; [exact Hn |].
  rewrite Forall_forall in Hws. intros x Hx. apply listItem_NoDup. now apply Hws.
Qed.

Lemma listFolder_prefix g dirSegs p pl :
  In pl (listFolder g dirSegs p) ->
  exists rest, segments pl = dirSegs ++ rest.
Proof.
  destruct p as [[file bytes | dir bytes items]|]; cbn [listFolder];
    try (intros []).
  intros Hin. apply listItems_prefix in Hin. destruct Hin as (x & rest & _ & ->).
  now exists (entry_name x :: rest).
Qed.

Lemma listFolder_slash_free g dirSegs p pl :
  well_formed_target p = true -> slash_free_all dirSegs ->
  In pl (listFolder g dirSegs p) -> slash_free_all (segments pl).
Proof.
  destruct p as [[file bytes | dir bytes items]|]; cbn [listFolder];
    try (intros _ _ []).
  intros Hw Hd Hin. change (well_formed (Dir dir bytes items) = true) in Hw.
  apply well_formed_Dir in Hw.
  destruct Hw as (_ & _ & Hws). rewrite Forall_forall in Hws.
  apply in_flat_map in Hin. destruct Hin as (x & Hx & Hin).
  now apply (listItem_slash_free g x dirSegs pl (Hws x Hx) Hd).
Qed.

Lemma child_well_formed name p :
  well_formed_target p = true -> well_formed_target (child name p) = true.
Proof.
  destruct p as [[file bytes | dir bytes items]|]; cbn [child]; try reflexivity.
  intros Hw. change (well_formed (Dir dir bytes items) = true) in Hw.
  apply well_formed_Dir in Hw. destruct Hw as (_ & _ & Hws).
  destruct (find _ items) as [e|] eqn:E; [| reflexivity].
  apply find_some in E. destruct E as [Hin _].
  rewrite Forall_forall in Hws. now apply Hws.
Qed.

Lemma NoDup_names_filter (f : entry -> bool) (entries : list entry) :
  NoDup (map entry_name entries) -> NoDup (map entry_name (filter f entries)).
Proof.
  induction entries as [|x xs IH]; cbn; intros H; [constructor |].
  inversion H as [|? ? Hx Hxs]; subst.
  destruct (f x); cbn; [constructor |]; auto.
  intros Hin. apply Hx. apply in_map_iff in Hin. destruct Hin as (y & E & Hy).
  apply in_map_iff. exists y. split; [exact E |].
  apply filter_In in Hy. tauto.
Qed.

Lemma well_formed_name (e : entry) :
  well_formed e = true -> slash_free (entry_name e) = true.
Proof.
  destruct e as [file bytes | dir bytes items]; cbn [well_formed entry_name].
  - auto.
  - intros H. apply andb_true_iff in H. destruct H as [H _].
    apply andb_true_iff in H. tauto.
Qed.

Lemma subdirs_listing_NoDup g (entries : list entry) :
  NoDup (map entry_name entries) ->
  Forall (fun x => well_formed x = true) entries ->
  NoDup (map segments
           (flat_map (fun subdir => listFolder g [entry_name subdir] (Some subdir))
                     (filter isDirectory entries))).
Proof.
  intros Hn Hw. rewrite map_flat_map. rewrite Forall_forall in Hw.
  apply (NoDup_flat_map_keyed _ entry_name (fun segs => nth 0 segs "")).
  - now apply NoDup_names_filter.
  - intros x b _ Hb. apply in_map_iff in Hb. destruct Hb as (pl & <- & Hpl).
    apply listFolder_prefix in Hpl. destruct Hpl as (rest & ->). reflexivity.
  - intros x Hx. apply filter_In in Hx. destruct Hx as [Hx _].
    apply listFolder_NoDup. now apply Hw.
Qed.

Lemma kenney_listing_NoDup (entries : list entry) :
  NoDup (map entry_name entries) ->
  Forall (fun x => well_formed x = true) entries ->
  NoDup (map segments
           (flat_map
              (fun subdir =>
                 flat_map
                   (fun sub =>
                      listFolder Kenney [entry_name subdir; sub]
                        (child sub (Some subdir)))
                   ["Audio"; "Male"; "Female"])
              (filter isDirectory entries))).
Proof.
  intros Hn Hw. rewrite map_flat_map. rewrite Forall_forall in Hw.
  apply (NoDup_flat_map_keyed _ entry_name (fun segs => nth 0 segs "")).
  - now apply NoDup_names_filter.
  - intros x b _ Hb. apply in_map_iff in Hb. destruct Hb as (pl & <- & Hpl).
    apply in_flat_map in Hpl. destruct Hpl as (sub & _ & Hpl).
    apply listFolder_prefix in Hpl. destruct Hpl as (rest & ->). reflexivity.
  - intros x Hx. apply filter_In in Hx. destruct Hx as [Hx _].
    rewrite map_flat_map.
    apply (NoDup_flat_map_keyed _ (fun sub : string => sub)
             (fun segs => nth 1 segs "")).
    + rewrite map_id. apply distinct_NoDup. reflexivity.
    + intros sub b _ Hb. apply in_map_iff in Hb. destruct Hb as (pl & <- & Hpl).
      apply listFolder_prefix in Hpl. destruct Hpl as (rest & ->). reflexivity.
    + intros sub _. apply listFolder_NoDup. apply child_well_formed.
      now apply Hw.
Qed.

Lemma h360s_listing_NoDup (base : target) :
  well_formed_target base = true ->
  NoDup (map segments
           (flat_map (fun cat => listFolder H360s [cat] (child cat base)) categories)).
Proof.
  intros Hw. rewrite map_flat_map.
  apply (NoDup_flat_map_keyed _ (fun cat : string => cat)
           (fun segs => nth 0 segs "")).
  - rewrite map_id. apply distinct_NoDup. reflexivity.
  - intros cat b _ Hb. apply in_map_iff in Hb. destruct Hb as (pl & <- & Hpl).
    apply listFolder_prefix in Hpl. destruct Hpl as (rest & ->). reflexivity.
  - intros cat _. apply listFolder_NoDup. now apply child_well_formed.
Qed.

Lemma scanListing_NoDup (g : generator) (base : target) :
  well_formed_target base = true ->
  NoDup (map segments (scanListing g base)).
Proof.
  intros Hw.
  destruct g; cbn [scanListing];
    try (apply h360s_listing_NoDup; exact Hw);
    (destruct base as [[file bytes | dir bytes entries]|];
     [constructor | | constructor]);
    change (well_formed (Dir dir bytes entries) = true) in Hw;
    apply well_formed_Dir in Hw; destruct Hw as (_ & Hn & Hws);
    first [now apply kenney_listing_NoDup | now apply subdirs_listing_NoDup].
Qed.

Lemma scanListing_slash_free (g : generator) (base : target) (pl : place) :
  well_formed_target base = true ->
  In pl (scanListing g base) -> slash_free_all (segments pl).
Proof.
  intros Hw Hin.
  assert (Hsub : forall entries,
             Forall (fun x => well_formed x = true) entries ->
             In pl (flat_map (fun subdir => listFolder g [entry_name subdir] (Some subdir))
                             (filter isDirectory entries)) ->
             slash_free_all (segments pl)).
  { intros entries Hws H. rewrite Forall_forall in Hws.
    apply in_flat_map in H. destruct H as (x & Hx & H).
    apply filter_In in Hx. destruct Hx as [Hx _].
    apply (listFolder_slash_free g [entry_name x] (Some x)); auto.
    - now apply Hws.
    - constructor; [| constructor]. now apply well_formed_name, Hws. }
  destruct g; cbn [scanListing] in Hin;
    try (destruct base as [[file bytes | dir bytes entries]|]; try (now destruct Hin);
         change (well_formed (Dir dir bytes entries) = true) in Hw;
         apply well_formed_Dir in Hw; destruct Hw as (_ & _ & Hws);
         now apply (Hsub entries)).
  - (* Kenney *)
    destruct base as [[file bytes | dir bytes entries]|]; try (now destruct Hin).
    change (well_formed (Dir dir bytes entries) = true) in Hw.
    apply well_formed_Dir in Hw. destruct Hw as (_ & _ & Hws).
    rewrite Forall_forall in Hws.
    apply in_flat_map in Hin. destruct Hin as (x & Hx & Hin).
    apply filter_In in Hx. destruct Hx as [Hx _].
    apply in_flat_map in Hin. destruct Hin as (sub & Hsubin & Hin).
    apply (listFolder_slash_free Kenney [entry_name x; sub] (child sub (Some x))); auto.
    + apply child_well_formed. now apply Hws.
    + constructor; [now apply well_formed_name, Hws |].
      constructor; [| constructor].
      cbn in Hsubin. destruct Hsubin as [<- | [<- | [<- | []]]]; reflexivity.
  - (* H360s *)
    apply in_flat_map in Hin. destruct Hin as (cat & Hcat & Hin).
    apply (listFolder_slash_free H360s [cat] (child cat base)); auto.
    + now apply child_well_formed.
    + constructor; [| constructor].
      cbn in Hcat.
      destruct Hcat as [<- | [<- | [<- | [<- | [<- | []]]]]]; reflexivity.
Qed.

(** X2.  When no directory of the library lists a name twice (and no name
    holds a slash), the records of a manifest have pairwise different
    paths: no file is emitted twice, and files of the same name in two
    folders get two records. *)
Theorem paths_distinct (g : generator) (c : clock) (base : target) (st : state) :
  well_formed_target base = true ->
  scan g c base = Ok st ->
  NoDup (map path (manifest st)).
Proof.
  intros Hw Hscan.
  assert (E : map path (manifest st)
              = map (fun segs => NodePath.join ["audio"; folder g; NodePath.join segs])
                    (map segments (scanListing g base))).
  { transitivity (map fst (map located (manifest st))).
    - rewrite map_map. reflexivity.
    - rewrite (scan_located g c base st Hscan), !map_map. reflexivity. }
  rewrite E. apply NoDup_map_NoDup_ForallPairs; [| now apply scanListing_NoDup].
  intros x y Hx Hy Exy.
  apply in_map_iff in Hx, Hy.
  destruct Hx as (px & <- & Hpx), Hy as (py & <- & Hpy).
  apply (libraryPath_inj g); try assumption.
  - now apply (scanListing_slash_free g base).
  - now apply (scanListing_slash_free g base).
  - unfold segments. now destruct (fst (fst px)).
  - unfold segments. now destruct (fst (fst py)).
Qed.

Lemma paths_distinct_witness :
  well_formed_target twinTree = true /\
  exists st,
    scan BoomLibrary noon twinTree = Ok st /\
    map path (manifest st)
    = [ "audio/BoomLibrary/Impacts/Metal/hit_01.wav";
        "audio/BoomLibrary/Impacts/Wood/hit_01.wav" ] /\
    NoDup (map path (manifest st)).
Proof.
  split; [reflexivity |].
  destruct (scan BoomLibrary noon twinTree) as [st|e] eqn:E; [| discriminate E].
  exists st. split; [reflexivity |]. split.
  - vm_compute in E. injection E as <-. reflexivity.
  - exact (paths_distinct BoomLibrary noon twinTree st eq_refl E).
Defined.

(** *** Where tags come from *)

Lemma apply_rules_In lowerName lowerCat lowerSubcat (rs : list rule) (t : string) :
  forall tags0,
    In t (fold_left (apply_rule lowerName lowerCat lowerSubcat) rs tags0) <->
    In t tags0 \/
    exists r, In r rs /\ fires lowerName lowerCat lowerSubcat r = true /\
              In t (pushed_by r).
Proof.
  induction rs as [|r rs IH]; intros tags0; cbn [fold_left].
  - split; [now left | intros [H | (r & [] & _)]; exact H].
  - rewrite IH. unfold apply_rule.
    destruct (fires lowerName lowerCat lowerSubcat r) eqn:F.
    + rewrite in_app_iff. split.
      * intros [[H | H] | (r' & Hr' & Hf & Ht)]; [now left | right | right].
        -- exists r. repeat split; auto. now left.
        -- exists r'. repeat split; auto. now right.
      * intros [H | (r' & [<- | Hr'] & Hf & Ht)].
        -- left. now left.
        -- left. now right.
        -- right. now exists r'.
    + split.
      * intros [H | (r' & Hr' & Hf & Ht)]; [now left | right].
        exists r'. repeat split; auto. now right.
      * intros [H | (r' & [<- | Hr'] & Hf & Ht)]; [now left | congruence | right].
        now exists r'.
Qed.

Lemma truthy_iff (s : string) : Js.truthy s = true <-> s <> "".
Proof. destruct s; cbn; split; congruence. Qed.

Lemma collectTags_In g cat subcat base t :
  In t (collectTags g cat subcat base) <-> tagReason g cat subcat base t.
Proof.
  unfold collectTags, tagReason. rewrite apply_rules_In, in_app_iff.
  destruct (pushes_category g); cbn [andb app].
  - destruct (Js.truthy subcat) eqn:T.
    + assert (subcat <> "") by now apply truthy_iff.
      cbn [In]. intuition (subst; auto; try discriminate).
    + assert (~ subcat <> "") by (rewrite <- truthy_iff; congruence).
      cbn [In]. intuition (subst; auto; try discriminate).
  - cbn [In]. intuition (subst; auto; try discriminate).
Qed.

(** X3.  A string is a tag of a record exactly when the script has a reason
    to push it: it is the lowercased category or the lowercased non-empty
    subcategory (in the six scripts that push them), one of the fixed tags
    of the library, or a tag of a rule whose substring occurs in the
    lowercased stem of the file (or in the lowercased category, for a
    category rule).  So the tag set does not depend on the order of the
    rules, and nothing is tagged without a rule. *)
Theorem tags_have_reasons (g : generator) (c : clock) (base : target) (st : state) :
  scan g c base = Ok st ->
  Forall (fun r =>
            exists dirs file subcat,
              path r = manifestPath g dirs file /\
              forall t, In t (tags r) <-> tagReason g (category r) subcat (stem file) t)
         (manifest st).
Proof.
  intros Hscan. apply scan_Made in Hscan.
  eapply Forall_impl; [| exact Hscan].
  intros r (now & n & dirs & cat & subcat & file & bytes & _ & ->).
  exists dirs, file, subcat. split; [reflexivity |].
  intros t. cbn [makeRecord tags category]. fold (stem file).
  rewrite unique_In. apply collectTags_In.
Qed.

Lemma tags_have_reasons_witness :
  exists st,
    scan Other noon (scenarioA 1234) = Ok st /\
    Forall (fun r =>
              exists dirs file subcat,
                path r = manifestPath Other dirs file /\
                forall t, In t (tags r)
                          <-> tagReason Other (category r) subcat (stem file) t)
           (manifest st).
Proof.
  destruct (scan Other noon (scenarioA 1234)) as [st|e] eqn:E; [| discriminate E].
  exists st. split; [reflexivity |].
  exact (tags_have_reasons Other noon (scenarioA 1234) st E).
Defined.

(** *** Lowercase tags *)

Lemma lower_char_not_upper (ch : ascii) : Js.is_upper (Js.lower_char ch) = false.
Proof. destruct ch as [[] [] [] [] [] [] [] []]; reflexivity. Qed.

Lemma toLowerCase_no_upper (s : string) : no_upper (Js.toLowerCase s) = true.
Proof.
  induction s as [|ch t IH]; [reflexivity |].
  cbn [Js.toLowerCase Js.smap no_upper].
  rewrite lower_char_not_upper. exact IH.
Qed.

Lemma rules_lowercase (g : generator) :
  forallb (fun r => forallb no_upper (pushed_by r)) (rules g) = true /\
  forallb no_upper (library_tags g) = true.
Proof. destruct g; split; vm_compute; reflexivity. Qed.

Lemma collectTags_lowercase g cat subcat base t :
  In t (collectTags g cat subcat base) -> no_upper t = true.
Proof.
  intros H. apply collectTags_In in H. destruct (rules_lowercase g) as [Hr Hl].
  destruct H as [[_ ->] | [(_ & _ & ->) | [H | (r & Hin & _ & Ht)]]].
  - apply toLowerCase_no_upper.
  - apply toLowerCase_no_upper.
  - rewrite forallb_forall in Hl. now apply Hl.
  - rewrite forallb_forall in Hr. specialize (Hr r Hin).
    rewrite forallb_forall in Hr. now apply Hr.
Qed.

(** X4.  No tag of any record of any manifest holds an ASCII capital
    letter: the category and the subcategory are lowercased before they
    are pushed, and every tag of the eight rule tables is written in
    lowercase. *)
Theorem tags_lowercase (g : generator) (c : clock) (base : target) (st : state) :
  scan g c base = Ok st ->
  Forall (fun r => Forall (fun t => no_upper t = true) (tags r)) (manifest st).
Proof.
  intros Hscan. apply scan_Made in Hscan.
  eapply Forall_impl; [| exact Hscan].
  intros r (now & n & dirs & cat & subcat & file & bytes & _ & ->).
  cbn [makeRecord tags]. apply Forall_forall. intros t Ht.
  apply (proj1 (unique_In _ _)) in Ht. now apply collectTags_lowercase in Ht.
Qed.

Lemma tags_lowercase_witness :
  exists st,
    scan BoomLibrary noon boomTree = Ok st /\
    map category (manifest st) = ["Cinematic Hits"; "Cinematic Hits"] /\
    Forall (fun r => Forall (fun t => no_upper t = true) (tags r)) (manifest st).
Proof.
  destruct (scan BoomLibrary noon boomTree) as [st|e] eqn:E; [| discriminate E].
  exists st. split; [reflexivity |]. split.
  - vm_compute in E. injection E as <-. reflexivity.
  - exact (tags_lowercase BoomLibrary noon boomTree st E).
Defined.

(** *** The voiceover rule of the Kenney script *)

Lemma kenney_rules_silent_for_voices :
  forallb silent_for_voices (rules Kenney) = true.
Proof. vm_compute. reflexivity. Qed.

Lemma voices_not_tagged_voiceover subcat base :
  ~ In "voiceover" (collectTags Kenney "Voices" subcat base).
Proof.
  intros H. apply collectTags_In in H.
  destruct H as [[H _] | [(H & _) | [[] | (r & Hin & Hf & Ht)]]];
    try discriminate H.
  pose proof kenney_rules_silent_for_voices as Hs.
  rewrite forallb_forall in Hs. specialize (Hs r Hin).
  apply existsb_eqb_In in Ht.
  destruct r as [subs pushed | subs pushed | s pushed];
    cbn [silent_for_voices pushed_by fires] in *.
  - rewrite Ht in Hs. discriminate Hs.
  - rewrite Ht in Hs. cbn [negb orb] in Hs.
    change (Js.toLowerCase "Voices") with "voices" in Hf.
    rewrite Hf in Hs. discriminate Hs.
  - rewrite Ht in Hs. discriminate Hs.
Qed.

(** X5.  The Kenney script names the category of every folder whose name
    holds [voiceover], in whatever case, [Voices]; its rule for the
    category [voiceover] therefore never applies to such a folder, and no
    record of the category [Voices] is tagged [voiceover]. *)
Theorem kenney_voiceover_rule_dead (c : clock) (base : target) (st : state) :
  scan Kenney c base = Ok st ->
  (forall subdir,
      Js.includes (Js.toLowerCase subdir) "voiceover" = true ->
      categoryOf Kenney subdir = "Voices") /\
  Forall (fun r => category r = "Voices" -> ~ In "voiceover" (tags r))
         (manifest st).
Proof.
  intros Hscan. split.
  - intros subdir H. cbn [categoryOf]. now rewrite H.
  - apply scan_Made in Hscan. eapply Forall_impl; [| exact Hscan].
    intros r (now & n & dirs & cat & subcat & file & bytes & _ & ->).
    cbn [makeRecord category tags]. intros -> H.
    apply (proj1 (unique_In _ _)) in H.
    now apply voices_not_tagged_voiceover in H.
Qed.

Lemma kenney_voiceover_rule_dead_witness :
  exists st,
    scan Kenney noon kenneyTree = Ok st /\
    categoryOf Kenney "kenney_voiceover-pack" = "Voices" /\
    map category (manifest st) = ["Impact Sounds"; "Voices"] /\
    map tags (manifest st)
    = [ ["impact"; "hit"; "footstep"; "walk"; "carpet"];
        ["male"; "voice"; "gameover"] ] /\
    Forall (fun r => category r = "Voices" -> ~ In "voiceover" (tags r))
           (manifest st).
Proof.
  destruct (scan Kenney noon kenneyTree) as [st|e] eqn:E; [| discriminate E].
  exists st.
  destruct (kenney_voiceover_rule_dead noon kenneyTree st E) as [Hcat Hall].
  split; [reflexivity |]. split; [apply Hcat; reflexivity |].
  split; [| split; [| exact Hall]];
    vm_compute in E; injection E as <-; reflexivity.
Defined.

(** *** Display names *)

Lemma smap_length f (s : string) : String.length (Js.smap f s) = String.length s.
Proof. induction s as [|ch t IH]; cbn; congruence. Qed.

Lemma capitalize_from_length (s : string) :
  forall prev, String.length (Js.capitalize_from prev s) = String.length s.
Proof. induction s as [|ch t IH]; intros prev; cbn; [reflexivity | now rewrite IH]. Qed.

Lemma sep_to_space_facts (ch : ascii) :
  (Js.code (Js.sep_to_space ch) =? 95) || (Js.code (Js.sep_to_space ch) =? 45) = false.
Proof. destruct ch as [[] [] [] [] [] [] [] []]; reflexivity. Qed.

Lemma upper_char_facts (ch : ascii) :
  Js.is_word (Js.upper_char ch) = Js.is_word ch /\
  Js.is_lower (Js.upper_char ch) = false /\
  Js.lower_char (Js.upper_char ch) = Js.lower_char ch /\
  Js.upper_char (Js.upper_char ch) = Js.upper_char ch /\
  ((Js.code ch =? 95) || (Js.code ch =? 45) = false ->
   (Js.code (Js.upper_char ch) =? 95) || (Js.code (Js.upper_char ch) =? 45) = false).
Proof.
  destruct ch as [[] [] [] [] [] [] [] []]; repeat split; try reflexivity;
    intros H; (reflexivity || discriminate H).
Qed.

Lemma replace_separators_no_separator (s : string) :
  no_separator (Js.replace_separators s) = true.
Proof.
  induction s as [|ch t IH]; [reflexivity |].
  cbn [Js.replace_separators Js.smap no_separator].
  now rewrite sep_to_space_facts.
Qed.

Lemma capitalize_from_no_separator (s : string) :
  forall prev, no_separator s = true -> no_separator (Js.capitalize_from prev s) = true.
Proof.
  induction s as [|ch t IH]; intros prev H; [reflexivity |].
  cbn [no_separator Js.capitalize_from] in *.
  apply andb_true_iff in H. destruct H as [Hc Ht].
  apply negb_true_iff in Hc. rewrite (IH _ Ht), andb_true_r.
  destruct (Js.is_word ch && negb prev); [| now rewrite Hc].
  destruct (upper_char_facts ch) as (_ & _ & _ & _ & Hu). now rewrite (Hu Hc).
Qed.

Lemma capitalize_from_lower (s : string) :
  forall prev, Js.toLowerCase (Js.capitalize_from prev s) = Js.toLowerCase s.
Proof.
  induction s as [|ch t IH]; intros prev; [reflexivity |].
  cbn [Js.capitalize_from Js.toLowerCase Js.smap].
  change (Js.smap Js.lower_char) with Js.toLowerCase. rewrite IH. f_equal.
  destruct (Js.is_word ch && negb prev); [| reflexivity].
  now destruct (upper_char_facts ch) as (_ & _ & -> & _).
Qed.

Lemma capitalize_from_capitalized (s : string) :
  forall prev, capitalized_from prev (Js.capitalize_from prev s) = true.
Proof.
  induction s as [|ch t IH]; intros prev; [reflexivity |].
  cbn [Js.capitalize_from capitalized_from].
  destruct (upper_char_facts ch) as (Hw & Hl & _).
  destruct (Js.is_word ch && negb prev) eqn:E.
  - rewrite Hw, Hl, andb_false_r. cbn [negb andb]. apply IH.
  - rewrite E. cbn [negb andb]. apply IH.
Qed.

Lemma capitalize_from_idempotent (s : string) :
  forall prev,
    Js.capitalize_from prev (Js.capitalize_from prev s) = Js.capitalize_from prev s.
Proof.
  induction s as [|ch t IH]; intros prev; [reflexivity |].
  cbn [Js.capitalize_from].
  destruct (upper_char_facts ch) as (Hw & _ & _ & Hu & _).
  destruct (Js.is_word ch && negb prev) eqn:E.
  - rewrite Hw, E, Hu, IH. reflexivity.
  - rewrite E, IH. reflexivity.
Qed.

Lemma replace_separators_fixed (s : string) :
  no_separator s = true -> Js.replace_separators s = s.
Proof.
  induction s as [|ch t IH]; intros H; [reflexivity |].
  cbn [no_separator] in H. apply andb_true_iff in H. destruct H as [Hc Ht].
  apply negb_true_iff in Hc.
  cbn [Js.replace_separators Js.smap]. unfold Js.sep_to_space at 1. rewrite Hc.
  f_equal. now apply IH.
Qed.

(** X6.  Whatever the stem, the name made from it has the stem's length,
    holds no underscore and no hyphen, and differs from the stem with its
    underscores and hyphens turned into spaces in the case of letters only. *)
Theorem nameOf_shape (s : string) :
  String.length (nameOf s) = String.length s /\
  no_separator (nameOf s) = true /\
  Js.toLowerCase (nameOf s) = Js.toLowerCase (Js.replace_separators s).
Proof.
  unfold nameOf, Js.capitalizeWords. repeat split.
  - rewrite capitalize_from_length. apply smap_length.
  - apply capitalize_from_no_separator, replace_separators_no_separator.
  - apply capitalize_from_lower.
Qed.

(** X7.  In the name made from a stem no word (maximal run of letters,
    digits and underscores) starts with a lowercase letter, and making a
    name from a name changes nothing. *)
Theorem nameOf_capitalized (s : string) :
  capitalized (nameOf s) = true /\ nameOf (nameOf s) = nameOf s.
Proof.
  unfold nameOf, Js.capitalizeWords, capitalized. split.
  - apply capitalize_from_capitalized.
  - rewrite (replace_separators_fixed (Js.capitalize_from false _)).
    + apply capitalize_from_idempotent.
    + apply capitalize_from_no_separator, replace_separators_no_separator.
Qed.

(** *** Stems and extensions *)

Lemma substring_0_length (s : string) : substring 0 (String.length s) s = s.
Proof. induction s as [|ch t IH]; cbn; congruence. Qed.

Lemma substring_split (s : string) :
  forall i,
    i <= String.length s ->
    (substring 0 i s ++ substring i (String.length s - i) s)%string = s.
Proof.
  induction s as [|ch t IH]; intros [|i] H; cbn in *; try reflexivity; try lia.
  - now rewrite substring_0_length.
  - rewrite IH by lia. reflexivity.
Qed.

Lemma substring_length (s : string) :
  forall i m, i + m <= String.length s -> String.length (substring i m s) = m.
Proof.
  induction s as [|ch t IH]; intros [|i] [|m] H; cbn in *;
    try reflexivity; try lia;
    solve [rewrite (IH 0 m) by lia; reflexivity | apply IH; lia].
Qed.

Lemma last_dot_from_bound (s : string) :
  forall k found j,
    NodePath.last_dot_from k s found = Some j ->
    found = Some j \/ (k <= j /\ j < k + String.length s).
Proof.
  induction s as [|ch t IH]; intros k found j H; cbn in *; [now left |].
  apply IH in H. destruct H as [H | H]; [| right; lia].
  destruct (Js.code ch =? 46); [| now left].
  injection H as <-. right. lia.
Qed.

Lemma last_dot_bound (s : string) (j : nat) :
  NodePath.last_dot s = Some j -> j < String.length s.
Proof.
  intros H. apply last_dot_from_bound in H. destruct H as [H | H]; [discriminate H | lia].
Qed.

Lemma eqb_length_false (a b : string) :
  String.length a <> String.length b -> String.eqb a b = false.
Proof. intros H. apply String.eqb_neq. congruence. Qed.

(** The extension, when there is one, is the end of the name from the last
    dot on, and that dot is not the first character. *)
Lemma extname_cases (file : string) :
  NodePath.extname file = EmptyString \/
  exists i, 0 < i /\ i < String.length file /\
            NodePath.extname file = Js.slice_from i file.
Proof.
  unfold NodePath.extname.
  destruct (NodePath.last_dot file) as [[|i]|] eqn:E; [now left | | now left].
  destruct (String.eqb file ".."); [now left |].
  right. exists (S i). apply last_dot_bound in E. repeat split; lia.
Qed.

Lemma stem_extname (file : string) :
  (stem file ++ NodePath.extname file)%string = file.
Proof.
  unfold stem. destruct (extname_cases file) as [-> | (i & Hi & Hlen & ->)].
  - cbn. clear. induction file as [|ch t IH]; cbn; congruence.
  - unfold NodePath.basename, NodePath.is_suffix, Js.slice_from.
    assert (L : String.length (substring i (String.length file - i) file)
                = String.length file - i) by (apply substring_length; lia).
    rewrite L.
    replace (String.length file - (String.length file - i)) with i by lia.
    rewrite String.eqb_refl.
    rewrite (eqb_length_false _ file) by (rewrite L; lia).
    replace (0 <? String.length file - i) with true
      by (symmetry; apply Nat.ltb_lt; lia).
    replace (String.length file - i <=? String.length file) with true
      by (symmetry; apply Nat.leb_le; lia).
    cbn [andb]. apply substring_split. lia.
Qed.

Lemma append_length (a b : string) :
  String.length (a ++ b)%string = String.length a + String.length b.
Proof. induction a as [|ch t IH]; cbn; congruence. Qed.

Lemma allowed_length (ext : string) : allowed ext = true -> String.length ext = 3.
Proof.
  intros H. apply allowed_In in H.
  destruct H as [<- | [<- | [<- | []]]]; reflexivity.
Qed.

(** X8.  A file name is its stem followed by its extension as
    [path.extname] gives it.  A name that the walk accepts ends in a dot
    and three letters, so its stem is the name without its last four
    characters, and is not empty. *)
Theorem stem_and_extension (file : string) :
  (stem file ++ NodePath.extname file)%string = file /\
  (allowed (extension file) = true ->
   String.length (stem file) + 4 = String.length file /\
   stem file <> EmptyString).
Proof.
  split; [apply stem_extname |].
  intros H. apply allowed_length in H.
  assert (L : String.length (NodePath.extname file) = 4).
  { unfold extension, Js.toLowerCase in H.
    destruct (NodePath.extname file) as [|ch t] eqn:E; cbn in H; [discriminate H |].
    rewrite smap_length in H. cbn. now rewrite H. }
  assert (S0 : String.length (stem file) + 4 = String.length file).
  { rewrite <- L, <- append_length, stem_extname. reflexivity. }
  split; [exact S0 |].
  destruct (extname_cases file) as [E | (i & Hi & Hlen & E)].
  - rewrite E in L. discriminate L.
  - intros Hs. rewrite Hs in S0. cbn in S0.
    rewrite E in L. unfold Js.slice_from in L.
    rewrite substring_length in L by lia. lia.
Qed.

Lemma stem_and_extension_witness :
  allowed (extension "big-hit_01.WAV") = true /\
  stem "big-hit_01.WAV" = "big-hit_01" /\
  NodePath.extname "big-hit_01.WAV" = ".WAV" /\
  String.length (stem "big-hit_01.WAV") + 4 = String.length "big-hit_01.WAV" /\
  stem "big-hit_01.WAV" <> EmptyString.
Proof.
  split; [reflexivity |]. split; [reflexivity |]. split; [reflexivity |].
  exact (proj2 (stem_and_extension "big-hit_01.WAV") eq_refl).
Defined.

(** *** Letter case of file names *)

Lemma lower_char_dot (ch : ascii) :
  (Js.code (Js.lower_char ch) =? 46) = (Js.code ch =? 46) /\
  Js.lower_char (Js.lower_char ch) = Js.lower_char ch.
Proof. destruct ch as [[] [] [] [] [] [] [] []]; split; reflexivity. Qed.

Lemma last_dot_from_lower (s : string) :
  forall k found,
    NodePath.last_dot_from k (Js.toLowerCase s) found
    = NodePath.last_dot_from k s found.
Proof.
  induction s as [|ch t IH]; intros k found; [reflexivity |].
  cbn [Js.toLowerCase Js.smap NodePath.last_dot_from].
  change (Js.smap Js.lower_char t) with (Js.toLowerCase t).
  rewrite IH. now destruct (lower_char_dot ch) as [-> _].
Qed.

Lemma substring_smap f (s : string) :
  forall i m, substring i m (Js.smap f s) = Js.smap f (substring i m s).
Proof.
  induction s as [|ch t IH]; intros [|i] [|m]; cbn; try reflexivity.
  - now rewrite IH.
  - apply IH.
  - apply IH.
Qed.

Lemma toLowerCase_idempotent (s : string) :
  Js.toLowerCase (Js.toLowerCase s) = Js.toLowerCase s.
Proof.
  induction s as [|ch t IH]; [reflexivity |].
  cbn [Js.toLowerCase Js.smap]. change (Js.smap Js.lower_char) with Js.toLowerCase.
  rewrite IH. now destruct (lower_char_dot ch) as [_ ->].
Qed.

Lemma lower_char_is_dot (ch : ascii) :
  Ascii.eqb (Js.lower_char ch) "." = Ascii.eqb ch ".".
Proof. destruct ch as [[] [] [] [] [] [] [] []]; reflexivity. Qed.

Lemma lower_is_dots (s : string) :
  String.eqb (Js.toLowerCase s) ".." = String.eqb s "..".
Proof.
  destruct s as [|a [|b [|c t]]]; try reflexivity;
    cbn [Js.toLowerCase Js.smap String.eqb]; rewrite ?lower_char_is_dot;
    reflexivity.
Qed.

Lemma extname_lower (file : string) :
  NodePath.extname (Js.toLowerCase file) = Js.toLowerCase (NodePath.extname file).
Proof.
  unfold NodePath.extname, NodePath.last_dot.
  rewrite last_dot_from_lower, lower_is_dots.
  destruct (NodePath.last_dot_from 0 file None) as [[|i]|]; try reflexivity.
  destruct (String.eqb file ".."); [reflexivity |].
  unfold Js.slice_from, Js.toLowerCase.
  rewrite smap_length. apply substring_smap.
Qed.

Lemma extension_lower (file : string) :
  extension (Js.toLowerCase file) = extension file.
Proof.
  unfold extension. now rewrite extname_lower, toLowerCase_idempotent.
Qed.

(** X9.  Two names that differ in the case of letters only have the same
    format, and the walk accepts both or neither: the extension is matched
    without regard to case. *)
Theorem extension_ignores_case (file file' : string) :
  Js.toLowerCase file = Js.toLowerCase file' ->
  extension file = extension file' /\
  allowed (extension file) = allowed (extension file').
Proof.
  intros H.
  assert (E : extension file = extension file').
  { rewrite <- (extension_lower file), <- (extension_lower file'). now rewrite H. }
  split; [exact E | now rewrite E].
Qed.

Lemma extension_ignores_case_witness :
  Js.toLowerCase "Big-Hit_01.WAV" = Js.toLowerCase "big-hit_01.wav" /\
  extension "Big-Hit_01.WAV" = "wav" /\
  extension "Big-Hit_01.WAV" = extension "big-hit_01.wav" /\
  allowed (extension "Big-Hit_01.WAV") = allowed (extension "big-hit_01.wav").
Proof.
  split; [reflexivity |]. split; [reflexivity |].
  exact (extension_ignores_case "Big-Hit_01.WAV" "big-hit_01.wav" eq_refl).
Defined.

(** *** How a scan ends *)






Example h360s_blocked_by_a_file :
  scan H360s noon h360sBlocked = Throw ENOTDIR /\
  generate H360s noon h360sBlocked = Throw ENOTDIR.
Proof. split; reflexivity. Qed.

(** *** What a scan does not read *)










Example kenney_loose_files_unread :
  visible Kenney kenneyLoose
  = Some (Dir "Kenney" 4096
            [ Dir "kenney_ui-audio" 4096
                [ Dir "Audio" 4096 [ File "click_001.ogg" 900 ] ] ]) /\
  result_map (map path) (records Kenney noon kenneyLoose)
  = Ok ["audio/Kenney/kenney_ui-audio/Audio/click_001.ogg"].
Proof. split; reflexivity. Qed.

(** *** Timestamps *)

Lemma processFile_stamped g c dirSegs cat subcat file bytes st :
  stamped c st -> stamped c (processFile g c dirSegs cat subcat file bytes st).
Proof.
  intros [Hd Hm]. unfold processFile.
  destruct (negb (allowed (extension file))); [now split |].
  unfold stamped. cbn [push manifest dates].
  rewrite length_app, map_app, Nat.add_comm. cbn [List.length Nat.add map].
  rewrite seq_S, map_app, Hm, Hd. cbn [map makeRecord dateAdded Nat.add].
  split; reflexivity.
Qed.

(** X12.  Every push reads the clock once and nothing else does: the k-th
    record of a manifest carries the time of the k-th reading, so the
    timestamps stand in the order of the records. *)
Theorem timestamps_in_order (g : generator) (c : clock) (base : target) (st : state) :
  scan g c base = Ok st ->
  dates st = List.length (manifest st) /\
  map dateAdded (manifest st) = map c (seq 0 (List.length (manifest st))).
Proof.
  intros Hscan.
  apply (scan_inv g c (stamped c)) with (base := base); try assumption.
  - intros. now apply processFile_stamped.
  - split; reflexivity.
Qed.

Lemma timestamps_in_order_witness :
  exists st,
    scan BoomLibrary (fun k => if k =? 0 then "t0" else "t1") boomTree = Ok st /\
    map dateAdded (manifest st) = ["t0"; "t1"].
Proof.
  set (c := fun k => if k =? 0 then "t0" else "t1").
  destruct (scan BoomLibrary c boomTree) as [st|e] eqn:E; [| discriminate E].
  exists st. split; [reflexivity |].
  destruct (timestamps_in_order BoomLibrary c boomTree st E) as [_ H].
  rewrite H. vm_compute in E. injection E as <-. reflexivity.
Defined.

(** *** Fields that no file decides *)

(** X13.  In every record of a manifest the duration and the rating are 0,
    the library is the script's folder name, and the description is the
    record's name, the library's title and the record's category in the
    sentence [<name> from <title> <category> collection.]. *)
Theorem fixed_fields (g : generator) (c : clock) (base : target) (st : state) :
  scan g c base = Ok st -> Forall (templated g) (manifest st).
Proof.
  intros Hscan. apply scan_Made in Hscan.
  eapply Forall_impl; [| exact Hscan].
  intros r (now & n & dirs & cat & subcat & file & bytes & _ & ->).
  repeat split.
Qed.

Lemma fixed_fields_witness :
  exists st,
    scan Kenney noon kenneyTree = Ok st /\
    map description (manifest st)
    = [ "Footstep Carpet 000 from Kenney Impact Sounds collection.";
        "Game Over (Male) from Kenney Voices collection." ] /\
    Forall (templated Kenney) (manifest st).
Proof.
  destruct (scan Kenney noon kenneyTree) as [st|e] eqn:E; [| discriminate E].
  exists st. split; [reflexivity |]. split.
  - vm_compute in E. injection E as <-. reflexivity.
  - exact (fixed_fields Kenney noon kenneyTree st E).
Defined.

(** *** Deduplication, once more *)

Lemma fold_set_add_fresh (l : list string) :
  forall acc, NoDup (acc ++ l) -> fold_left Js.set_add l acc = acc ++ l.
Proof.
  induction l as [|x t IH]; intros acc H; cbn [fold_left].
  - now rewrite app_nil_r.
  - unfold Js.set_add at 2.
    destruct (existsb (String.eqb x) acc) eqn:E.
    + exfalso. apply existsb_eqb_In in E.
      apply NoDup_remove_2 in H. apply H. apply in_or_app. now left.
    + replace (acc ++ x :: t) with ((acc ++ [x]) ++ t) in *
        by (now rewrite <- app_assoc).
      now apply IH.
Qed.

Lemma unique_length (l : list string) :
  forall acc,
    List.length (fold_left Js.set_add l acc) <= List.length acc + List.length l.
Proof.
  induction l as [|x t IH]; intros acc; cbn [fold_left List.length]; [lia |].
  specialize (IH (Js.set_add acc x)). unfold Js.set_add in *.
  destruct (existsb (String.eqb x) acc); [lia |].
  rewrite length_app in IH. cbn in IH. lia.
Qed.

(** X14.  Removing duplicates leaves a list without duplicates as it is,
    so removing them twice is removing them once; and it never makes a
    list longer. *)
Theorem unique_idempotent (l : list string) :
  (NoDup l -> Js.unique l = l) /\
  Js.unique (Js.unique l) = Js.unique l /\
  List.length (Js.unique l) <= List.length l.
Proof.
  assert (H : forall l', NoDup l' -> Js.unique l' = l').
  { intros l' Hl. unfold Js.unique. now rewrite fold_set_add_fresh. }
  repeat split.
  - apply H.
  - apply H, unique_NoDup.
  - apply (unique_length l []).
Qed.

Lemma unique_idempotent_witness :
  NoDup ["hit"; "impact"; "metal"] /\
  Js.unique ["hit"; "impact"; "metal"] = ["hit"; "impact"; "metal"].
Proof.
  assert (N : NoDup ["hit"; "impact"; "metal"]).
  { apply distinct_NoDup. reflexivity. }
  split; [exact N |].
  exact (proj1 (unique_idempotent ["hit"; "impact"; "metal"]) N).
Defined.

(* ================================================================== *)
(** ** Properties of the browser helpers *)

(** *** [esc] *)

Lemma append_assoc (a b c : string) : ((a ++ b) ++ c = a ++ (b ++ c))%string.
Proof. induction a as [|ch t IH]; cbn; congruence. Qed.

Lemma replaceAll_app (c : ascii) (by_ x y : string) :
  Browser.replaceAll c by_ (x ++ y)
  = (Browser.replaceAll c by_ x ++ Browser.replaceAll c by_ y)%string.
Proof.
  induction x as [|ch t IH]; cbn; [reflexivity |].
  destruct (Ascii.eqb ch c); rewrite IH; [now rewrite append_assoc | reflexivity].
Qed.

Lemma esc_app (x y : string) :
  Browser.esc (x ++ y) = (Browser.esc x ++ Browser.esc y)%string.
Proof. unfold Browser.esc. now rewrite !replaceAll_app. Qed.

Lemma esc_char (ch : ascii) : Browser.esc (String ch EmptyString) = entity ch.
Proof. destruct ch as [[] [] [] [] [] [] [] []]; reflexivity. Qed.

Lemma esc_entities (s : string) : Browser.esc s = entities s.
Proof.
  induction s as [|ch t IH]; [reflexivity |].
  change (String ch t) with (String ch EmptyString ++ t)%string.
  rewrite esc_app, esc_char, IH. reflexivity.
Qed.

Lemma prefix_empty (s : string) : prefix EmptyString s = true.
Proof. now destruct s. Qed.

Lemma inert_entity (ch : ascii) (rest : string) :
  inert rest = true -> inert (entity ch ++ rest) = true.
Proof.
  intros H. unfold entity.
  destruct (Ascii.eqb ch "&") eqn:E1;
    [cbn; now rewrite prefix_empty, H |].
  destruct (Ascii.eqb ch "<") eqn:E2;
    [cbn; now rewrite prefix_empty, H |].
  destruct (Ascii.eqb ch ">") eqn:E3;
    [cbn; now rewrite prefix_empty, H |].
  destruct (Ascii.eqb ch Browser.quote) eqn:E4;
    [cbn; now rewrite prefix_empty, H |].
  destruct (Ascii.eqb ch Browser.apostrophe) eqn:E5;
    [cbn; now rewrite prefix_empty, H |].
  cbn [append inert]. now rewrite E1, E2, E3, E4, E5, H.
Qed.

Lemma inert_entities (s : string) : inert (entities s) = true.
Proof.
  induction s as [|ch t IH]; [reflexivity |].
  cbn [entities]. now apply inert_entity.
Qed.

(** X15.  [esc] writes its argument character by character: each of the
    five characters ampersand, angle brackets, quote and apostrophe as its
    entity and every other character as it is.  The ampersands that the
    later replacements bring in are not escaped again.  The result holds
    no angle bracket, quote or apostrophe, and each of its ampersands
    starts an entity. *)
Theorem esc_is_inert (s : string) :
  Browser.esc s = entities s /\ inert (Browser.esc s) = true.
Proof.
  split; [apply esc_entities |].
  rewrite esc_entities. apply inert_entities.
Qed.

Example esc_example :
  Browser.esc "<b onclick='x'>Tom & Jerry</b>"
  = "&lt;b onclick=&#39;x&#39;&gt;Tom &amp; Jerry&lt;/b&gt;".
Proof. reflexivity. Qed.

(** *** Extensions as the browser reads them *)

Lemma split_nonempty (sep : ascii) (s : string) : Browser.split sep s <> [].
Proof.
  destruct s as [|ch t]; cbn; [discriminate |].
  destruct (Ascii.eqb ch sep); [discriminate |].
  destruct (Browser.split sep t); discriminate.
Qed.

Lemma split_no_sep (sep : ascii) (s : string) :
  has_char sep s = false -> Browser.split sep s = [s].
Proof.
  induction s as [|ch t IH]; cbn; [reflexivity |].
  intros H. apply orb_false_iff in H. destruct H as [-> H].
  now rewrite (IH H).
Qed.

Lemma split_app_sep (sep : ascii) (x e : string) :
  Browser.split sep (x ++ String sep e)
  = Browser.split sep x ++ Browser.split sep e.
Proof.
  induction x as [|ch t IH]; cbn.
  - now rewrite Ascii.eqb_refl.
  - destruct (Ascii.eqb ch sep); rewrite IH; [reflexivity |].
    pose proof (split_nonempty sep t) as N.
    destruct (Browser.split sep t); [now elim N | reflexivity].
Qed.

Lemma last_dot_from_is_dot (s : string) :
  forall k found j,
    NodePath.last_dot_from k s found = Some j ->
    found = Some j \/ (k <= j /\ exists ch, get (j - k) s = Some ch /\ Js.code ch = 46).
Proof.
  induction s as [|ch t IH]; intros k found j H; cbn in H; [now left |].
  apply IH in H. destruct H as [H | (Hk & ch' & Hg & Hc)].
  - destruct (Js.code ch =? 46) eqn:E; [| now left].
    injection H as <-. right. split; [lia |].
    exists ch. rewrite Nat.sub_diag. split; [reflexivity | now apply Nat.eqb_eq].
  - right. split; [lia |]. exists ch'. split; [| exact Hc].
    replace (j - k) with (S (j - S k)) by lia. exact Hg.
Qed.

Lemma substring_get (s : string) :
  forall i m ch,
    get i s = Some ch ->
    substring i (S m) s = String ch (substring (S i) m s).
Proof.
  induction s as [|c t IH]; intros [|i] m ch H; cbn in H; try discriminate H.
  - injection H as <-. cbn. now destruct t.
  - cbn. rewrite (IH i m ch H). reflexivity.
Qed.

Lemma code_dot (ch : ascii) : Js.code ch = 46 -> ch = "."%char.
Proof.
  intros H. unfold Js.code in H.
  rewrite <- (ascii_nat_embedding ch), H. reflexivity.
Qed.

Lemma extname_starts_with_dot (file : string) :
  NodePath.extname file = EmptyString \/
  exists e, NodePath.extname file = String "." e.
Proof.
  unfold NodePath.extname.
  destruct (NodePath.last_dot file) as [[|i]|] eqn:E; [now left | | now left].
  destruct (String.eqb file ".."); [now left |]. right.
  pose proof (last_dot_bound _ _ E) as Hb.
  apply last_dot_from_is_dot in E.
  destruct E as [E | (_ & ch & Hg & Hc)]; [discriminate E |].
  rewrite Nat.sub_0_r in Hg. apply code_dot in Hc. subst ch.
  unfold Js.slice_from.
  replace (String.length file - S i) with (S (String.length file - S (S i))) by lia.
  rewrite (substring_get _ _ _ _ Hg). eauto.
Qed.

Lemma has_dot_lower (s : string) :
  has_char "." (Js.toLowerCase s) = has_char "." s.
Proof.
  induction s as [|ch t IH]; [reflexivity |].
  cbn [Js.toLowerCase Js.smap has_char].
  change (Js.smap Js.lower_char t) with (Js.toLowerCase t).
  now rewrite IH, lower_char_is_dot.
Qed.

(** The shape of a name that the walk accepts. *)
Lemma accepted_shape (file : string) :
  allowed (extension file) = true ->
  exists e,
    file = (stem file ++ String "." e)%string /\
    Js.toLowerCase e = extension file /\
    has_char "." e = false.
Proof.
  intros H.
  destruct (extname_starts_with_dot file) as [E | (e & E)].
  - unfold extension in H. rewrite E in H. discriminate H.
  - exists e. split; [| split].
    + rewrite <- E. symmetry. apply stem_extname.
    + unfold extension. rewrite E. reflexivity.
    + rewrite <- has_dot_lower.
      unfold extension in H. rewrite E in H. cbn [Js.toLowerCase Js.smap Js.slice1] in H.
      change (Js.smap Js.lower_char e) with (Js.toLowerCase e) in H.
      apply allowed_In in H.
      destruct H as [<- | [<- | [<- | []]]]; reflexivity.
Qed.

Lemma last_app_single {A : Type} (l : list A) (x d : A) : last (l ++ [x]) d = x.
Proof. apply last_last. Qed.

Lemma split_accepted (pre file : string) :
  allowed (extension file) = true ->
  exists e l,
    Browser.split "." (pre ++ file) = l ++ [e] /\ l <> [] /\
    Js.toLowerCase e = extension file.
Proof.
  intros H. destruct (accepted_shape file H) as (e & Hf & He & Hd).
  exists e, (Browser.split "." (pre ++ stem file)).
  split; [| split; [apply split_nonempty | exact He]].
  rewrite Hf at 1. rewrite <- append_assoc, split_app_sep.
  now rewrite (split_no_sep "." e Hd).
Qed.

(** X16.  A name that the generators accept is an audio file for the
    Google Drive indexer as well, and [getFileExtension] finds the same
    extension in it, up to the case of letters.  (The indexer accepts more:
    five further extensions, and names such as [.mp3] that have no stem.) *)
Theorem drive_accepts_what_generators_accept (file : string) :
  allowed (extension file) = true ->
  Js.toLowerCase (Browser.getFileExtension file) = extension file /\
  Browser.isAudioFile file = true.
Proof.
  intros H.
  destruct (split_accepted EmptyString file H) as (e & l & Hs & Hl & He).
  cbn [append] in Hs.
  assert (G : Browser.getFileExtension file = e).
  { unfold Browser.getFileExtension. rewrite Hs, last_app_single.
    rewrite length_app. destruct l; [now elim Hl |].
    cbn [List.length]. rewrite Nat.add_comm. reflexivity. }
  split; [now rewrite G |].
  unfold Browser.isAudioFile. rewrite G, He.
  apply allowed_In in H. destruct H as [<- | [<- | [<- | []]]]; reflexivity.
Qed.

Lemma drive_accepts_what_generators_accept_witness :
  allowed (extension "big-hit_01.WAV") = true /\
  Browser.getFileExtension "big-hit_01.WAV" = "WAV" /\
  Browser.isAudioFile "big-hit_01.WAV" = true /\
  (allowed (extension "loop.flac") = false /\ Browser.isAudioFile "loop.flac" = true) /\
  (allowed (extension ".mp3") = false /\ Browser.isAudioFile ".mp3" = true).
Proof.
  split; [reflexivity |]. split; [reflexivity |].
  split; [exact (proj2 (drive_accepts_what_generators_accept "big-hit_01.WAV" eq_refl)) |].
  repeat split.
Defined.

Lemma manifestPath_ends_with_file g dirs file :
  exists pre, manifestPath g dirs file = (pre ++ file)%string.
Proof.
  unfold manifestPath, NodePath.join. cbn [concat].
  assert (H : exists q, concat "/" (dirs ++ [file]) = (q ++ file)%string).
  { induction dirs as [|d ds IH]; [now exists EmptyString |].
    destruct IH as (q & IH). cbn [app concat].
    destruct (ds ++ [file]) eqn:E; [now destruct ds |].
    rewrite IH. exists (d ++ "/" ++ q)%string. now rewrite !append_assoc. }
  destruct H as (q & ->).
  exists ("audio" ++ "/" ++ folder g ++ "/" ++ q)%string.
  now rewrite !append_assoc.
Qed.

(** X17.  For the path of every record of a manifest, [guessFormat], with
    which the browser fills in a missing format, gives the format that the
    generator recorded. *)
Theorem guessFormat_agrees (g : generator) (c : clock) (base : target) (st : state) :
  scan g c base = Ok st ->
  Forall (fun r => Browser.guessFormat (path r) = format r) (manifest st).
Proof.
  intros Hscan. apply scan_Made in Hscan.
  eapply Forall_impl; [| exact Hscan].
  intros r (now & n & dirs & cat & subcat & file & bytes & Hext & ->).
  cbn [makeRecord path format]. fold (manifestPath g dirs file).
  destruct (manifestPath_ends_with_file g dirs file) as (pre & ->).
  destruct (split_accepted pre file Hext) as (e & l & Hs & _ & He).
  unfold Browser.guessFormat. rewrite Hs, last_app_single, He.
  apply allowed_In in Hext.
  destruct Hext as [<- | [<- | [<- | []]]]; reflexivity.
Qed.

Lemma guessFormat_agrees_witness :
  exists st,
    scan BoomLibrary noon boomTree = Ok st /\
    map (fun r => Browser.guessFormat (path r)) (manifest st) = ["wav"; "wav"] /\
    Forall (fun r => Browser.guessFormat (path r) = format r) (manifest st).
Proof.
  destruct (scan BoomLibrary noon boomTree) as [st|e] eqn:E; [| discriminate E].
  exists st. split; [reflexivity |]. split.
  - vm_compute in E. injection E as <-. reflexivity.
  - exact (guessFormat_agrees BoomLibrary noon boomTree st E).
Defined.

(* ================================================================== *)
(** ** Properties of the audio engine *)

Lemma orS_empty (a : string) : Engine.orS a EmptyString = a.
Proof. now destruct a. Qed.

Lemma orZ_zero (a : Z) : Engine.orZ a 0 = a.
Proof. unfold Engine.orZ. destruct (Z.eqb_spec a 0); congruence. Qed.

Lemma orS_nonempty (a b : string) : a <> EmptyString -> Engine.orS a b = a.
Proof. destruct a; [congruence | reflexivity]. Qed.

Lemma mergeOne_path c saved sheets f k :
  path (fst (Engine.mergeOne c saved sheets f k)) = path f.
Proof. unfold Engine.mergeOne. now destruct (Engine.orNow c (dateAdded f) k). Qed.

Lemma mergeMetadata_paths c saved sheets files :
  forall k, map path (fst (Engine.mergeMetadata c saved sheets files k)) = map path files.
Proof.
  induction files as [|f rest IH]; intros k; [reflexivity |].
  cbn [Engine.mergeMetadata].
  pose proof (mergeOne_path c saved sheets f k) as Hp.
  destruct (Engine.mergeOne c saved sheets f k) as [f' k1].
  specialize (IH k1).
  destruct (Engine.mergeMetadata c saved sheets rest k1) as [rest' k2].
  cbn in *. now rewrite Hp, IH.
Qed.

Lemma normaliseOne_path c lib f nextId k :
  path (fst (fst (Engine.normaliseOne c lib f nextId k))) = path f.
Proof.
  unfold Engine.normaliseOne.
  destruct (id f =? 0)%Z; destruct (Engine.orNow c (dateAdded f) k);
    cbn; apply orS_empty.
Qed.

Lemma normalise_paths c lib files :
  forall nextId k,
    map path (fst (Engine.normalise c lib files nextId k)) = map path files.
Proof.
  induction files as [|f rest IH]; intros nextId k; [reflexivity |].
  cbn [Engine.normalise].
  pose proof (normaliseOne_path c lib f nextId k) as Hp.
  destruct (Engine.normaliseOne c lib f nextId k) as [[f' nextId'] k1].
  specialize (IH nextId' k1).
  destruct (Engine.normalise c lib rest nextId' k1) as [rest' k2].
  cbn in *. now rewrite Hp, IH.
Qed.

Lemma filter_isNew_paths (S : list AudioRecord) (l : list AudioRecord) :
  map path (filter (Engine.isNew S) l) = filter (isNewPath S) (map path l).
Proof.
  induction l as [|f rest IH]; [reflexivity |].
  cbn [filter map]. change (Engine.isNew S f) with (isNewPath S (path f)).
  destruct (isNewPath S (path f)); cbn [map]; now rewrite IH.
Qed.

(** The paths of the master list after a call. *)
Lemma addExternal_paths c saved sheets files lib (S : list AudioRecord) k :
  map path (fst (Engine.addExternalLibraryFiles c saved sheets files lib S k))
  = map path S ++ filter (isNewPath S) (map path files).
Proof.
  unfold Engine.addExternalLibraryFiles.
  destruct files as [|f0 rest]; [cbn; now rewrite app_nil_r |].
  set (files := f0 :: rest).
  pose proof (normalise_paths c lib files (Engine.maxId S + 1) k) as Hn.
  destruct (Engine.normalise c lib files (Engine.maxId S + 1) k) as [normalised k1].
  cbn [fst] in Hn.
  pose proof (filter_isNew_paths S normalised) as Hf. rewrite Hn in Hf.
  destruct (filter (Engine.isNew S) normalised) as [|n0 ns] eqn:E.
  - cbn [fst]. rewrite <- Hf. cbn. now rewrite app_nil_r.
  - pose proof (mergeMetadata_paths c saved sheets (n0 :: ns) k1) as Hm.
    destruct (Engine.mergeMetadata c saved sheets (n0 :: ns) k1) as [merged k2].
    cbn [fst] in *. now rewrite map_app, Hm, Hf.
Qed.

Lemma addExternal_appends c saved sheets files lib (S : list AudioRecord) k :
  exists added,
    fst (Engine.addExternalLibraryFiles c saved sheets files lib S k) = S ++ added.
Proof.
  unfold Engine.addExternalLibraryFiles.
  destruct files as [|f0 rest]; [exists []; cbn; now rewrite app_nil_r |].
  destruct (Engine.normalise c lib (f0 :: rest) (Engine.maxId S + 1) k)
    as [normalised k1].
  destruct (filter (Engine.isNew S) normalised) as [|n0 ns].
  - exists []. cbn. now rewrite app_nil_r.
  - destruct (Engine.mergeMetadata c saved sheets (n0 :: ns) k1) as [merged k2].
    now exists merged.
Qed.

Lemma isNewPath_spec (S : list AudioRecord) (p : string) :
  isNewPath S p = true <-> p <> EmptyString /\ ~ In p (map path S).
Proof.
  unfold isNewPath. rewrite andb_true_iff, negb_true_iff, truthy_iff.
  rewrite <- not_true_iff_false, existsb_eqb_In. tauto.
Qed.

Lemma filter_none {A : Type} (f : A -> bool) (l : list A) :
  (forall x, In x l -> f x = false) -> filter f l = [].
Proof.
  induction l as [|x xs IH]; intros H; cbn; [reflexivity |].
  rewrite (H x) by now left. apply IH. intros y Hy. apply H. now right.
Qed.

Lemma addExternal_settled c saved sheets files lib (S : list AudioRecord) k :
  filter (isNewPath S) (map path files) = [] ->
  fst (Engine.addExternalLibraryFiles c saved sheets files lib S k) = S.
Proof.
  intros H. unfold Engine.addExternalLibraryFiles.
  destruct files as [|f0 rest]; [reflexivity |].
  set (files := f0 :: rest) in *.
  pose proof (normalise_paths c lib files (Engine.maxId S + 1) k) as Hn.
  destruct (Engine.normalise c lib files (Engine.maxId S + 1) k) as [normalised k1].
  cbn [fst] in Hn.
  pose proof (filter_isNew_paths S normalised) as Hf. rewrite Hn, H in Hf.
  destruct (filter (Engine.isNew S) normalised); [reflexivity | discriminate Hf].
Qed.

(** X18.  [addExternalLibraryFiles] only appends to the master list: the
    files of the list stay as and where they are, and the files added are
    those of the incoming array, in its order, whose path is not empty and
    is not yet a path of the list.  Handing the same array in once more,
    at whatever time, changes nothing. *)
Theorem add_external_appends_once (c c' : clock) (saved sheets saved' sheets' : Engine.metadata)
  (files : list AudioRecord) (lib lib' : string) (S : list AudioRecord) (k k' : nat) :
  let S' := fst (Engine.addExternalLibraryFiles c saved sheets files lib S k) in
  (exists added,
      S' = S ++ added /\
      map path added = filter (isNewPath S) (map path files)) /\
  fst (Engine.addExternalLibraryFiles c' saved' sheets' files lib' S' k') = S'.
Proof.
  intros S'.
  destruct (addExternal_appends c saved sheets files lib S k) as (added & Ha).
  pose proof (addExternal_paths c saved sheets files lib S k) as Hp.
  fold S' in Ha, Hp.
  assert (Hadded : map path added = filter (isNewPath S) (map path files)).
  { rewrite Ha, map_app in Hp. now apply app_inv_head in Hp. }
  split; [now exists added |].
  apply addExternal_settled. apply filter_none. intros p Hin.
  destruct (isNewPath S' p) eqn:E; [| reflexivity]. exfalso.
  apply isNewPath_spec in E. destruct E as [Hne Hnot].
  apply Hnot. rewrite Ha, map_app, Hadded. apply in_or_app.
  destruct (isNewPath S p) eqn:E'.
  - right. apply filter_In. now split.
  - left. destruct (in_dec string_dec p (map path S)) as [Hi | Hi]; [exact Hi |].
    exfalso. assert (isNewPath S p = true) by (apply isNewPath_spec; now split).
    congruence.
Qed.

(** X19.  When the paths of the master list are pairwise different and so
    are those of the incoming array, the paths of the list are pairwise
    different after [addExternalLibraryFiles] too. *)
Theorem add_external_keeps_paths_distinct (c : clock) (saved sheets : Engine.metadata)
  (files : list AudioRecord) (lib : string) (S : list AudioRecord) (k : nat) :
  NoDup (map path S) ->
  NoDup (map path files) ->
  NoDup (map path (fst (Engine.addExternalLibraryFiles c saved sheets files lib S k))).
Proof.
  intros HS Hf. rewrite addExternal_paths. apply NoDup_app.
  - exact HS.
  - now apply NoDup_filter.
  - intros p Hp Hp'. apply filter_In in Hp'. destruct Hp' as [_ E].
    apply isNewPath_spec in E. tauto.
Qed.


(* ------------------------------------------------------------------ *)
(** *** Generated manifests in the engine *)

Lemma stem_nonempty (file : string) :
  allowed (extension file) = true -> stem file <> EmptyString.
Proof.
  intros H. apply allowed_length in H.
  assert (L : String.length (NodePath.extname file) = 4).
  { unfold extension, Js.toLowerCase in H.
    destruct (NodePath.extname file) as [|ch t] eqn:E; cbn in H; [discriminate H |].
    rewrite smap_length in H. cbn. now rewrite H. }
  destruct (extname_cases file) as [E | (i & Hi & Hlen & E)].
  - rewrite E in L. discriminate L.
  - intros Hs. pose proof (stem_extname file) as S0.
    apply (f_equal String.length) in S0.
    rewrite append_length, Hs, L in S0. cbn in S0.
    rewrite E in L. unfold Js.slice_from in L.
    rewrite substring_length in L by lia. lia.
Qed.

Lemma length_nonempty (s : string) : 0 < String.length s -> s <> EmptyString.
Proof. destruct s; cbn; [lia | discriminate]. Qed.

Lemma nonempty_length (s : string) : s <> EmptyString -> 0 < String.length s.
Proof. destruct s; cbn; [congruence | lia]. Qed.

Lemma nameOf_nonempty (s : string) : s <> EmptyString -> nameOf s <> EmptyString.
Proof.
  intros H. apply length_nonempty. unfold nameOf, Js.capitalizeWords.
  rewrite capitalize_from_length. unfold Js.replace_separators.
  rewrite smap_length. now apply nonempty_length.
Qed.

Lemma displayName_nonempty g (n subcat : string) :
  n <> EmptyString -> displayName g n subcat <> EmptyString.
Proof.
  intros H. destruct g; cbn; try exact H.
  destruct (Js.truthy subcat); [| exact H].
  destruct n; [congruence | discriminate].
Qed.

(** What every record of a generator has, whatever the folder holds. *)
Lemma Made_fields g r :
  Made g r ->
  path r <> EmptyString /\ name r <> EmptyString /\ format r <> EmptyString /\
  library r = folder g.
Proof.
  intros (now & n & dirs & cat & subcat & file & bytes & Ha & ->).
  cbn [makeRecord path name format library]. repeat split.
  - discriminate.
  - apply displayName_nonempty, nameOf_nonempty. now apply stem_nonempty.
  - apply length_nonempty. rewrite (allowed_length _ Ha). lia.
Qed.

Lemma folder_nonempty g : folder g <> EmptyString.
Proof. destruct g; discriminate. Qed.

Lemma scan_ids_and_dates g c base st :
  (forall n, c n <> EmptyString) ->
  scan g c base = Ok st ->
  Forall (fun r => id r <> 0%Z /\ dateAdded r <> EmptyString) (manifest st).
Proof.
  intros Hc Hs.
  enough (H : (1 <= id_counter st)%Z /\
              Forall (fun r => id r <> 0%Z /\ dateAdded r <> EmptyString) (manifest st))
    by apply H.
  revert base st Hs. apply scan_inv.
  - intros dirSegs cat subcat file bytes st [Hi Hf]. unfold processFile.
    destruct (negb (allowed (extension file))); [now split |].
    cbn [push id_counter manifest]. split; [lia |].
    apply Forall_app. split; [exact Hf |]. constructor; [| constructor].
    cbn [makeRecord id dateAdded]. split; [lia | apply Hc].
  - cbn. split; [lia | constructor].
Qed.

Lemma scan_complete g c base st :
  (forall n, c n <> EmptyString) ->
  Forall (fun r => category r <> EmptyString) (manifest st) ->
  scan g c base = Ok st ->
  Forall complete (manifest st).
Proof.
  intros Hc Hcat Hs.
  pose proof (scan_ids_and_dates g c base st Hc Hs) as H1.
  pose proof (scan_Made g c base st Hs) as H2.
  rewrite Forall_forall in *. intros r Hr.
  destruct (H1 r Hr) as [Hi Hd].
  destruct (Made_fields g r (H2 r Hr)) as (Hp & Hn & Hf & Hl).
  unfold complete. repeat split; auto.
  rewrite Hl. apply folder_nonempty.
Qed.

Lemma record_eta (r : AudioRecord) :
  {| id := id r; path := path r; name := name r; category := category r;
     format := format r; size := size r; duration := duration r;
     rating := rating r; tags := tags r; description := description r;
     library := library r; dateAdded := dateAdded r |} = r.
Proof. now destruct r. Qed.

Lemma orNow_set c d k : d <> EmptyString -> Engine.orNow c d k = (d, k).
Proof. intros H. unfold Engine.orNow. now rewrite truthy_nonempty. Qed.

Lemma normaliseOne_complete c lib r nextId k :
  complete r -> Engine.normaliseOne c lib r nextId k = (r, nextId, k).
Proof.
  intros (Hi & Hp & Hn & Hc & Hf & Hl & Hd). unfold Engine.normaliseOne.
  apply Z.eqb_neq in Hi. rewrite Hi. rewrite orNow_set by exact Hd.
  rewrite orS_empty, !orZ_zero.
  rewrite (orS_nonempty (name r)) by exact Hn.
  rewrite (orS_nonempty (name r)) by exact Hn.
  rewrite (orS_nonempty (category r)) by exact Hc.
  rewrite (orS_nonempty (format r)) by exact Hf.
  rewrite (orS_nonempty (library r)) by exact Hl.
  rewrite orS_empty, record_eta. reflexivity.
Qed.

Lemma normalise_complete c lib files :
  Forall complete files ->
  forall nextId k, Engine.normalise c lib files nextId k = (files, k).
Proof.
  induction 1 as [|r rest Hr _ IH]; intros nextId k; [reflexivity |].
  cbn [Engine.normalise]. rewrite normaliseOne_complete by exact Hr.
  now rewrite IH.
Qed.

Lemma mergeOne_plain c r k :
  dateAdded r <> EmptyString -> Engine.mergeOne c noMetadata noMetadata r k = (r, k).
Proof.
  intros Hd. unfold Engine.mergeOne, noMetadata, Engine.noMeta.
  rewrite orNow_set by exact Hd. cbn.
  rewrite orS_empty, orZ_zero, record_eta. reflexivity.
Qed.

Lemma mergeMetadata_plain c files :
  Forall (fun r => dateAdded r <> EmptyString) files ->
  forall k, Engine.mergeMetadata c noMetadata noMetadata files k = (files, k).
Proof.
  induction 1 as [|r rest Hr _ IH]; intros k; [reflexivity |].
  cbn [Engine.mergeMetadata]. rewrite mergeOne_plain by exact Hr.
  now rewrite IH.
Qed.

Lemma filter_all {A : Type} (f : A -> bool) (l : list A) :
  (forall x, In x l -> f x = true) -> filter f l = l.
Proof.
  induction l as [|x xs IH]; intros H; cbn; [reflexivity |].
  rewrite (H x) by now left. f_equal. apply IH. intros y Hy. apply H. now right.
Qed.

Lemma addExternal_complete c lib files (S : list AudioRecord) k :
  Forall complete files ->
  (forall r, In r files -> ~ In (path r) (map path S)) ->
  Engine.addExternalLibraryFiles c noMetadata noMetadata files lib S k
  = (S ++ files, k).
Proof.
  intros Hc Hnew. unfold Engine.addExternalLibraryFiles.
  destruct files as [|f0 rest] eqn:Ef; [now rewrite app_nil_r |].
  rewrite <- Ef in *. rewrite normalise_complete by exact Hc.
  rewrite filter_all.
  - rewrite Ef, <- Ef. rewrite mergeMetadata_plain; [reflexivity |].
    eapply Forall_impl; [| exact Hc]. intros r Hr. apply Hr.
  - intros r Hr. change (isNewPath S (path r) = true). apply isNewPath_spec.
    split; [| now apply Hnew].
    rewrite Forall_forall in Hc. apply (Hc r Hr).
Qed.

(** X20.  The engine takes a generated manifest as it is.  When the clock
    of the run gave no empty string and no record has an empty category,
    every record of the manifest has all the fields [addExternalLibraryFiles]
    would otherwise fill in; a manifest with a record passes the checks of
    [fetchManifest]; and adding the manifest to a list that has none of
    its paths appends its records unchanged, in their order and with their
    identifiers, without reading the clock. *)
Theorem generated_manifest_loads_unchanged (g : generator) (c c' : clock)
  (base : target) (st : state) (lib : string) (S : list AudioRecord) (k : nat) :
  scan g c base = Ok st ->
  (forall n, c n <> EmptyString) ->
  Forall (fun r => category r <> EmptyString) (manifest st) ->
  (forall r, In r (manifest st) -> ~ In (path r) (map path S)) ->
  Forall complete (manifest st) /\
  (manifest st <> [] ->
   Engine.validateManifest (manifest st) = Some (manifest st)) /\
  Engine.addExternalLibraryFiles c' noMetadata noMetadata (manifest st) lib S k
  = (S ++ manifest st, k).
Proof.
  intros Hs Hc Hcat Hnew.
  pose proof (scan_complete g c base st Hc Hcat Hs) as Hcomp.
  split; [exact Hcomp |]. split.
  - intros Hne. destruct (manifest st) as [|first rest]; [congruence |].
    cbn. inversion Hcomp as [|? ? (_ & Hp & _) _]; subst.
    now rewrite truthy_nonempty.
  - now apply addExternal_complete.
Qed.

Lemma generated_manifest_loads_unchanged_witness :
  exists st,
    scan BoomLibrary noon twinTree = Ok st /\
    List.length (manifest st) = 2 /\
    Engine.validateManifest (manifest st) = Some (manifest st) /\
    Engine.addExternalLibraryFiles noon noMetadata noMetadata (manifest st)
      "Boom" [] 0
    = (manifest st, 0).
Proof.
  destruct (scan BoomLibrary noon twinTree) as [st|e] eqn:E; [| discriminate E].
  exists st. split; [reflexivity |].
  assert (Hm : List.length (manifest st) = 2)
    by (vm_compute in E; injection E as <-; reflexivity).
  assert (Hc : forall n, noon n <> EmptyString) by (intros n; discriminate).
  assert (Hcat : Forall (fun r => category r <> EmptyString) (manifest st)).
  { vm_compute in E. injection E as <-. repeat constructor; discriminate. }
  destruct (generated_manifest_loads_unchanged BoomLibrary noon noon twinTree st
              "Boom" [] 0 E Hc Hcat (fun r _ H => H))
    as (_ & Hv & Ha).
  split; [exact Hm |]. split; [| exact Ha].
  apply Hv. intros H0. rewrite H0 in Hm. discriminate Hm.
Defined.


Lemma add_external_keeps_paths_distinct_witness :
  let S := fst (Engine.addExternalLibraryFiles noon noMetadata noMetadata
                  (manifestOf BoomLibrary noon twinTree) "Boom" [] 0) in
  let S' := fst (Engine.addExternalLibraryFiles noon noMetadata noMetadata
                   (manifestOf BoomLibrary noon boomTree
                    ++ manifestOf BoomLibrary noon twinTree)
                   "Boom" S 0) in
  List.length S = 2 /\ List.length S' = 4 /\ NoDup (map path S').
Proof.
  split; [reflexivity |]. split; [reflexivity |].
  apply add_external_keeps_paths_distinct;
    apply distinct_NoDup; reflexivity.
Defined.

(* ------------------------------------------------------------------ *)
(** *** The catalogue of [loadLibraryJsonFiles] *)

Lemma scan_paths_NoDup (g : generator) (c : clock) (base : target) (st : state) :
  well_formed_target base = true ->
  scan g c base = Ok st ->
  NoDup (map path (manifest st)).
Proof.
  intros Hw Hscan.
  assert (E : map path (manifest st)
              = map (fun segs => NodePath.join ["audio"; folder g; NodePath.join segs])
                    (map segments (scanListing g base))).
  { transitivity (map fst (map located (manifest st))).
    - rewrite map_map. reflexivity.
    - rewrite (scan_located g c base st Hscan), !map_map. reflexivity. }
  rewrite E. apply NoDup_map_NoDup_ForallPairs; [| now apply scanListing_NoDup].
  intros x y Hx Hy Exy.
  apply in_map_iff in Hx, Hy.
  destruct Hx as (px & <- & Hpx), Hy as (py & <- & Hpy).
  apply (libraryPath_inj g); try assumption.
  - now apply (scanListing_slash_free g base).
  - now apply (scanListing_slash_free g base).
  - unfold segments. now destruct (fst (fst px)).
  - unfold segments. now destruct (fst (fst py)).
Qed.

(** The library folder that a path of a generated record starts with. *)
Lemma Made_path g r :
  Made g r -> exists rest, path r = ("audio/" ++ folder g ++ "/" ++ rest)%string.
Proof.
  intros (now & n & dirs & cat & subcat & file & bytes & _ & ->).
  exists (NodePath.join (dirs ++ [file])). reflexivity.
Qed.

Lemma folder_slash_free g : slash_free (folder g) = true.
Proof. now destruct g. Qed.

Lemma folder_inj g g' : folder g = folder g' -> g = g'.
Proof. destruct g, g'; intros H; first [reflexivity | discriminate H]. Qed.

Lemma Made_library g g' r r' :
  Made g r -> Made g' r' -> path r = path r' -> g = g'.
Proof.
  intros H H' E.
  destruct (Made_path g r H) as (rest & Hp).
  destruct (Made_path g' r' H') as (rest' & Hp').
  rewrite Hp, Hp' in E. apply append_cancel_l in E.
  apply slash_free_split in E; try apply folder_slash_free.
  now apply folder_inj.
Qed.

Lemma ensureLibrary_path p f : path (Engine.ensureLibrary p f) = path f.
Proof.
  unfold Engine.ensureLibrary.
  destruct (Js.truthy (library f)); [reflexivity |].
  now destruct (Engine.libraryFor p).
Qed.

Lemma ensureLibrary_id p f : id (Engine.ensureLibrary p f) = id f.
Proof.
  unfold Engine.ensureLibrary.
  destruct (Js.truthy (library f)); [reflexivity |].
  now destruct (Engine.libraryFor p).
Qed.

Lemma mergeOne_id c saved sheets f k :
  id (fst (Engine.mergeOne c saved sheets f k)) = id f.
Proof. unfold Engine.mergeOne. now destruct (Engine.orNow c (dateAdded f) k). Qed.

Lemma mergeMetadata_ids c saved sheets files :
  forall k, map id (fst (Engine.mergeMetadata c saved sheets files k)) = map id files.
Proof.
  induction files as [|f rest IH]; intros k; [reflexivity |].
  cbn [Engine.mergeMetadata].
  pose proof (mergeOne_id c saved sheets f k) as Hp.
  destruct (Engine.mergeOne c saved sheets f k) as [f' k1].
  specialize (IH k1).
  destruct (Engine.mergeMetadata c saved sheets rest k1) as [rest' k2].
  cbn in *. now rewrite Hp, IH.
Qed.

Lemma loadLibraries_map {B : Type} (h : AudioRecord -> B) c saved sheets fetched k :
  (forall files k, map h (fst (Engine.mergeMetadata c saved sheets files k)) = map h files) ->
  (forall p f, h (Engine.ensureLibrary p f) = h f) ->
  map h (fst (Engine.loadLibraries c saved sheets fetched k))
  = flat_map (fun g => match fetched g with
                       | Some data => map h data
                       | None => []
                       end) Engine.libraryFiles.
Proof.
  intros Hm He.
  assert (E : map h (Engine.loadedFiles fetched)
              = flat_map (fun g => match fetched g with
                                   | Some data => map h data
                                   | None => []
                                   end) Engine.libraryFiles).
  { unfold Engine.loadedFiles. rewrite map_flat_map. apply flat_map_ext.
    intros g. destruct (fetched g) as [data|]; [| reflexivity].
    rewrite map_map. apply map_ext. intros f. apply He. }
  unfold Engine.loadLibraries.
  destruct (Engine.loadedFiles fetched) as [|f0 rest] eqn:El.
  - cbn [fst map]. exact E.
  - rewrite Hm. exact E.
Qed.

Lemma libraryFiles_all g : In g Engine.libraryFiles.
Proof. destruct g; cbn; tauto. Qed.

Lemma libraryFiles_NoDup : NoDup Engine.libraryFiles.
Proof.
  unfold Engine.libraryFiles.
  repeat (constructor; [cbn; intuition discriminate |]). constructor.
Qed.


Lemma NoDup_flat_map_apart {A B : Type} (f : A -> list B) (l : list A) :
  (forall x, In x l -> NoDup (f x)) ->
  NoDup l ->
  (forall x y b, In x l -> In y l -> In b (f x) -> In b (f y) -> x = y) ->
  NoDup (flat_map f l).
Proof.
  induction l as [|x xs IH]; intros Hnd Hl Hap; cbn; [constructor |].
  inversion Hl as [|? ? Hx Hl']; subst.
  apply NoDup_app.
  - apply Hnd. now left.
  - apply IH; [| exact Hl' |].
    + intros y Hy. apply Hnd. now right.
    + intros y z b Hy Hz. apply Hap; now right.
  - intros b Hb Hb'. apply in_flat_map in Hb'. destruct Hb' as (y & Hy & Hby).
    assert (x = y) by (apply (Hap x y b); auto; [now left | now right]).
    subst y. contradiction.
Qed.

Lemma flat_map_shared {A B : Type} (f : A -> list B) (l : list A) (x y : A) (b : B) :
  In x l -> In y l -> x <> y -> In b (f x) -> In b (f y) ->
  ~ NoDup (flat_map f l).
Proof.
  induction l as [|z zs IH]; intros Hx Hy Hne Hbx Hby Hnd; [contradiction |].
  cbn in Hnd.
  assert (Hcross : forall u, In u zs -> In b (f z) -> In b (f u) -> False).
  { intros u Hu Hz Hbu.
    assert (Hin : In b (flat_map f zs)) by (apply in_flat_map; eauto).
    apply in_split in Hin. destruct Hin as (l1 & l2 & E).
    rewrite E, app_assoc in Hnd.
    apply NoDup_remove_2 in Hnd. apply Hnd.
    apply in_or_app. left. apply in_or_app. now left. }
  destruct Hx as [-> | Hx], Hy as [Hy | Hy].
  - now subst.
  - now apply (Hcross y).
  - subst z. now apply (Hcross x).
  - apply NoDup_app_remove_l in Hnd. now apply IH.
Qed.

Lemma scan_numbered g c base st : scan g c base = Ok st -> numbered st.
Proof.
  apply scan_inv.
  - intros. now apply processFile_numbered.
  - split; reflexivity.
Qed.

(** X21.  In the catalogue that [loadLibraryJsonFiles] builds from the
    manifests the generators wrote -- for folders whose names hold no [/]
    and do not repeat within a directory -- no two records have the same
    path, whichever manifests could be fetched and whatever metadata is
    stored. *)
Theorem catalogue_paths_distinct (c : clock) (saved sheets : Engine.metadata)
  (fetched : generator -> option (list AudioRecord)) (k : nat) :
  generatedCatalogue fetched ->
  NoDup (map path (fst (Engine.loadLibraries c saved sheets fetched k))).
Proof.
  intros Hgen.
  rewrite (loadLibraries_map path);
    [| intros; apply mergeMetadata_paths | intros; apply ensureLibrary_path].
  apply NoDup_flat_map_apart; [| apply libraryFiles_NoDup |].
  - intros g _. destruct (fetched g) as [data|] eqn:E; [| constructor].
    destruct (Hgen g data E) as (c0 & base & st & Hw & Hs & ->).
    now apply (scan_paths_NoDup g c0 base).
  - intros g g' p _ _ Hp Hp'.
    destruct (fetched g) as [data|] eqn:E; [| contradiction].
    destruct (fetched g') as [data'|] eqn:E'; [| contradiction].
    destruct (Hgen g data E) as (c0 & base & st & _ & Hs & ->).
    destruct (Hgen g' data' E') as (c0' & base' & st' & _ & Hs' & ->).
    apply in_map_iff in Hp, Hp'.
    destruct Hp as (r & Hr & Hin), Hp' as (r' & Hr' & Hin').
    apply scan_Made in Hs, Hs'. rewrite Forall_forall in Hs, Hs'.
    apply (Made_library g g' r r'); auto. congruence.
Qed.

(** X22.  The catalogue keeps the identifiers the manifests gave: they
    start again at 1 for every library, in the order of [libraryFiles].
    So whenever two libraries have a record each, two records of the
    catalogue have the same identifier. *)
Theorem catalogue_ids_restart (c : clock) (saved sheets : Engine.metadata)
  (fetched : generator -> option (list AudioRecord)) (k : nat) :
  generatedCatalogue fetched ->
  map id (fst (Engine.loadLibraries c saved sheets fetched k))
  = flat_map (fun g => match fetched g with
                       | Some data => map Z.of_nat (seq 1 (List.length data))
                       | None => []
                       end) Engine.libraryFiles /\
  forall g g' r data r' data',
    g <> g' -> fetched g = Some (r :: data) -> fetched g' = Some (r' :: data') ->
    ~ NoDup (map id (fst (Engine.loadLibraries c saved sheets fetched k))).
Proof.
  intros Hgen.
  assert (E : map id (fst (Engine.loadLibraries c saved sheets fetched k))
              = flat_map (fun g => match fetched g with
                                   | Some data => map Z.of_nat (seq 1 (List.length data))
                                   | None => []
                                   end) Engine.libraryFiles).
  { rewrite (loadLibraries_map id);
      [| intros; apply mergeMetadata_ids | intros; apply ensureLibrary_id].
    apply flat_map_ext. intros g.
    destruct (fetched g) as [data|] eqn:Eg; [| reflexivity].
    destruct (Hgen g data Eg) as (c0 & base & st & _ & Hs & ->).
    apply scan_numbered in Hs. apply Hs. }
  split; [exact E |].
  intros g g' r data r' data' Hne Hg Hg'. rewrite E.
  apply (flat_map_shared _ _ g g' 1%Z); auto using libraryFiles_all.
  - rewrite Hg. now left.
  - rewrite Hg'. now left.
Qed.


Lemma twoLibraries_generated : generatedCatalogue twoLibraries.
Proof.
  intros g data H.
  destruct g; cbn [twoLibraries] in H; try discriminate H; injection H as <-.
  - exists noon, twinTree. unfold manifestOf.
    destruct (scan BoomLibrary noon twinTree) as [st|e] eqn:E;
      [| vm_compute in E; discriminate E].
    exists st. repeat split.
  - exists noon, filmCowTree. unfold manifestOf.
    destruct (scan FilmCow noon filmCowTree) as [st|e] eqn:E;
      [| vm_compute in E; discriminate E].
    exists st. repeat split.
Qed.

Lemma catalogue_paths_distinct_witness :
  map path (fst (Engine.loadLibraries noon noMetadata noMetadata twoLibraries 0))
  = [ "audio/FilmCow/Misc/a.wav";
      "audio/BoomLibrary/Impacts/Metal/hit_01.wav";
      "audio/BoomLibrary/Impacts/Wood/hit_01.wav" ] /\
  NoDup (map path (fst (Engine.loadLibraries noon noMetadata noMetadata twoLibraries 0))).
Proof.
  split; [reflexivity |].
  exact (catalogue_paths_distinct noon noMetadata noMetadata twoLibraries 0
           twoLibraries_generated).
Defined.

Lemma catalogue_ids_restart_witness :
  map id (fst (Engine.loadLibraries noon noMetadata noMetadata twoLibraries 0))
  = [1; 1; 2]%Z /\
  ~ NoDup (map id (fst (Engine.loadLibraries noon noMetadata noMetadata twoLibraries 0))).
Proof.
  split; [reflexivity |].
  destruct (twoLibraries BoomLibrary) as [[|r data]|] eqn:E; try discriminate E.
  destruct (twoLibraries FilmCow) as [[|r' data']|] eqn:E'; try discriminate E'.
  refine (proj2 (catalogue_ids_restart noon noMetadata noMetadata twoLibraries 0
                   twoLibraries_generated)
                BoomLibrary FilmCow r data r' data' _ E E').
  discriminate.
Defined.

(* ================================================================== *)
(** ** The metadata template: [parseCsvLine] and [exportMetadataTemplate] *)

Lemma append_empty_r (s : string) : (s ++ "")%string = s.
Proof. induction s as [|ch t IH]; cbn; congruence. Qed.

Lemma append_char (cur : string) (ch : ascii) (t : string) :
  ((cur ++ String ch EmptyString) ++ t)%string = (cur ++ String ch t)%string.
Proof. now rewrite append_assoc. Qed.

(** Outside quotes and with no quote ahead, the loop splits at commas. *)
Lemma parseCsvLoop_plain (s : string) :
  forall cur res,
    has_char Browser.quote s = false ->
    Browser.parseCsvLoop s cur false res
    = res ++ match Browser.split "," s with
             | h :: r => (cur ++ h)%string :: r
             | [] => [cur]
             end.
Proof.
  induction s as [|ch t IH]; intros cur res H.
  - cbn. now rewrite append_empty_r.
  - cbn [has_char] in H. apply orb_false_iff in H. destruct H as [Hq H].
    cbn [Browser.parseCsvLoop Browser.split]. rewrite Hq.
    destruct (Ascii.eqb ch ",") eqn:Ec; cbn [andb negb].
    + rewrite (IH _ _ H). rewrite append_empty_r.
      pose proof (split_nonempty "," t) as Hne.
      destruct (Browser.split "," t) as [|h r]; [congruence |].
      cbn [append]. now rewrite <- app_assoc.
    + rewrite (IH _ _ H).
      pose proof (split_nonempty "," t) as Hne.
      destruct (Browser.split "," t) as [|h r]; [congruence |].
      now rewrite append_char.
Qed.

(** Inside quotes, a text whose quotes are doubled is read back up to the
    quote that ends the field. *)
Lemma parseCsvLoop_quoted (s : string) :
  forall rest cur res,
    ends_field rest = true ->
    Browser.parseCsvLoop
      (Browser.doubleQuotes s ++ String Browser.quote rest) cur true res
    = Browser.parseCsvLoop rest (cur ++ s) false res.
Proof.
  induction s as [|ch t IH]; intros rest cur res Hr.
  - cbn [Browser.doubleQuotes Browser.replaceAll append Browser.parseCsvLoop].
    rewrite Ascii.eqb_refl, append_empty_r.
    destruct rest as [|ch' t']; [reflexivity |].
    cbn [ends_field] in Hr. apply negb_true_iff in Hr. rewrite Hr. reflexivity.
  - unfold Browser.doubleQuotes in *. cbn [Browser.replaceAll].
    destruct (Ascii.eqb ch Browser.quote) eqn:Eq.
    + apply Ascii.eqb_eq in Eq. subst ch.
      cbn [append Browser.parseCsvLoop]. rewrite Ascii.eqb_refl. cbn [andb].
      rewrite (IH rest _ res Hr). now rewrite append_char.
    + cbn [append Browser.parseCsvLoop]. rewrite Eq.
      rewrite andb_false_r.
      rewrite (IH rest _ res Hr). now rewrite append_char.
Qed.

(** A field in quotes, read from outside quotes. *)
Lemma parseCsvLoop_field (s rest : string) (res : list string) :
  ends_field rest = true ->
  Browser.parseCsvLoop (csvField s ++ rest) EmptyString false res
  = Browser.parseCsvLoop rest s false res.
Proof.
  intros Hr. unfold csvField, Browser.quoted.
  cbn [append]. rewrite append_assoc. cbn [append].
  set (body := (Browser.doubleQuotes s ++ String Browser.quote rest)%string).
  assert (E : Browser.parseCsvLoop (String Browser.quote body) EmptyString false res
              = Browser.parseCsvLoop body EmptyString true res).
  { cbn [Browser.parseCsvLoop]. rewrite Ascii.eqb_refl. cbn [andb negb].
    now destruct body. }
  rewrite E. unfold body. now rewrite parseCsvLoop_quoted.
Qed.

Lemma parseCsvLoop_fields (fields : list string) :
  forall f res,
    Browser.parseCsvLoop (String.concat "," (map csvField (f :: fields)))
      EmptyString false res
    = res ++ f :: fields.
Proof.
  induction fields as [|f' rest IH]; intros f res.
  - cbn [map String.concat].
    rewrite <- (append_empty_r (csvField f)).
    rewrite parseCsvLoop_field by reflexivity. reflexivity.
  - change (String.concat "," (map csvField (f :: f' :: rest)))
      with (csvField f ++ String "," (String.concat "," (map csvField (f' :: rest))))%string.
    rewrite parseCsvLoop_field by reflexivity.
    cbn [Browser.parseCsvLoop]. 
    replace (Ascii.eqb "," Browser.quote) with false by reflexivity.
    rewrite Ascii.eqb_refl. cbn [andb negb].
    rewrite IH. now rewrite <- app_assoc.
Qed.

Lemma doubleQuotes_plain (s : string) :
  has_char Browser.quote s = false -> Browser.doubleQuotes s = s.
Proof.
  unfold Browser.doubleQuotes.
  induction s as [|ch t IH]; cbn [Browser.replaceAll has_char]; [reflexivity |].
  intros H. apply orb_false_iff in H. destruct H as [-> H]. now rewrite IH.
Qed.

Lemma has_char_app (c : ascii) (a b : string) :
  has_char c (a ++ b) = has_char c a || has_char c b.
Proof. induction a as [|ch t IH]; cbn; [reflexivity |]. now rewrite IH, orb_assoc. Qed.

Lemma has_char_concat (c : ascii) (sep : string) (l : list string) :
  has_char c sep = false ->
  Forall (fun s => has_char c s = false) l ->
  has_char c (String.concat sep l) = false.
Proof.
  intros Hs. induction 1 as [|x xs Hx _ IH]; [reflexivity |].
  destruct xs as [|y ys]; [exact Hx |].
  change (String.concat sep (x :: y :: ys))
    with (x ++ sep ++ String.concat sep (y :: ys))%string.
  now rewrite !has_char_app, Hx, Hs, IH.
Qed.

Lemma uint_no_quote (d : Decimal.uint) :
  has_char Browser.quote (NilEmpty.string_of_uint d) = false.
Proof. induction d; cbn; auto. Qed.

Lemma num_no_quote (z : Z) : has_char Browser.quote (Json.num z) = false.
Proof.
  unfold Json.num, NilZero.string_of_int, NilZero.string_of_uint.
  destruct (Z.to_int z) as [d | d]; destruct d; cbn; try reflexivity;
    apply uint_no_quote.
Qed.

(** X23.  [parseCsvLine] reads back the rows of [exportMetadataTemplate]:
    when the path, the name and the tags of a file hold no double quote
    (the template writes them as they are), the row of the file is parsed
    into its five values -- the description whatever it holds, commas and
    double quotes included. *)
Theorem template_row_parses_back (f : AudioRecord) :
  has_char Browser.quote (path f) = false ->
  has_char Browser.quote (name f) = false ->
  Forall (fun t => has_char Browser.quote t = false) (tags f) ->
  Browser.parseCsvLine (Browser.exportRow f) = rowValues f.
Proof.
  intros Hp Hn Ht.
  assert (Htags : has_char Browser.quote (String.concat ", " (tags f)) = false)
    by now apply has_char_concat.
  assert (E : Browser.exportRow f = String.concat "," (map csvField (rowValues f))).
  { unfold Browser.exportRow, rowValues, csvField. cbn [map].
    rewrite (doubleQuotes_plain (path f) Hp), (doubleQuotes_plain (name f) Hn),
      (doubleQuotes_plain _ Htags), (doubleQuotes_plain _ (num_no_quote (rating f))).
    reflexivity. }
  unfold Browser.parseCsvLine. rewrite E. unfold rowValues.
  now rewrite parseCsvLoop_fields.
Qed.

Lemma template_row_parses_back_witness :
  let f := {| id := 7; path := "audio/Other/a,b.wav"; name := "A,b";
              category := "Other"; format := "wav"; size := 10; duration := 0;
              rating := 4; tags := ["one"; "two"];
              description := String Browser.quote "x, y";
              library := "Other"; dateAdded := "" |} in
  Browser.parseCsvLine (Browser.exportRow f)
  = [ "audio/Other/a,b.wav"; "A,b"; "one, two"; String Browser.quote "x, y"; "4" ].
Proof.
  intros f.
  refine (template_row_parses_back f eq_refl eq_refl _).
  repeat constructor.
Defined.

(** X24.  [parseCsvLine] undoes the quoting of the template for any row:
    fields written in quotes with their quotes doubled, and joined with
    commas, are read back as they were.  And a line without a double quote
    is split at its commas. *)
Theorem parseCsvLine_round_trip (f : string) (fields : list string) (line : string) :
  Browser.parseCsvLine (String.concat "," (map csvField (f :: fields))) = f :: fields /\
  (has_char Browser.quote line = false ->
   Browser.parseCsvLine line = Browser.split "," line).
Proof.
  split.
  - unfold Browser.parseCsvLine. now rewrite parseCsvLoop_fields.
  - intros H. unfold Browser.parseCsvLine. rewrite parseCsvLoop_plain by exact H.
    pose proof (split_nonempty "," line) as Hne.
    now destruct (Browser.split "," line).
Qed.

Lemma parseCsvLine_round_trip_witness :
  Browser.parseCsvLine "a,,b c," = ["a"; ""; "b c"; ""].
Proof.
  exact (proj2 (parseCsvLine_round_trip "" [] "a,,b c,") eq_refl).
Defined.


(* ================================================================== *)
(** ** Google Drive: [extractFolderId] *)

Lemma match_after_unfold (pre url : string) :
  Browser.match_after pre url
  = match (if prefix pre url
           then match Browser.take_id (Js.slice_from (String.length pre) url) with
                | EmptyString => None
                | id => Some id
                end
           else None) with
    | Some id => Some id
    | None => match url with
              | EmptyString => None
              | String _ t => Browser.match_after pre t
              end
    end.
Proof. destruct url; reflexivity. Qed.

Lemma take_id_all_id (s : string) : Browser.all_id (Browser.take_id s) = true.
Proof.
  induction s as [|ch t IH]; cbn; [reflexivity |].
  destruct (Browser.is_id_char ch) eqn:E; cbn; [now rewrite E | reflexivity].
Qed.

Lemma match_after_shape (pre url id : string) :
  Browser.match_after pre url = Some id ->
  id <> EmptyString /\ Browser.all_id id = true.
Proof.
  induction url as [|ch t IH]; rewrite match_after_unfold.
  - destruct (prefix pre ""); [| discriminate].
    pose proof (take_id_all_id (Js.slice_from (String.length pre) "")) as Ha.
    destruct (Browser.take_id (Js.slice_from (String.length pre) ""));
      [discriminate |].
    intros H. injection H as <-. split; [discriminate | exact Ha].
  - destruct (prefix pre (String ch t)); [| exact IH].
    pose proof (take_id_all_id (Js.slice_from (String.length pre) (String ch t))) as Ha.
    destruct (Browser.take_id (Js.slice_from (String.length pre) (String ch t)));
      [exact IH |].
    intros H. injection H as <-. split; [discriminate | exact Ha].
Qed.

Lemma prefix_all_id (pre : string) :
  forall url,
    Browser.all_id url = true -> Browser.all_id pre = false -> prefix pre url = false.
Proof.
  induction pre as [|c p IH]; intros url Hu Hp; [discriminate Hp |].
  destruct url as [|u t]; [reflexivity |].
  cbn [prefix]. destruct (ascii_dec c u) as [-> |]; [| reflexivity].
  cbn [Browser.all_id] in Hu, Hp. apply andb_true_iff in Hu. destruct Hu as [Hc Ht].
  rewrite Hc in Hp. now apply IH.
Qed.

Lemma match_after_all_id (pre url : string) :
  Browser.all_id url = true -> Browser.all_id pre = false ->
  Browser.match_after pre url = None.
Proof.
  intros Hu Hp. induction url as [|ch t IH]; rewrite match_after_unfold;
    rewrite (prefix_all_id pre _ Hu Hp); [reflexivity |].
  apply IH. cbn [Browser.all_id] in Hu. apply andb_true_iff in Hu. apply Hu.
Qed.

Lemma substring_all (s : string) : substring 0 (String.length s) s = s.
Proof. induction s as [|ch t IH]; cbn; congruence. Qed.

Lemma slice_from_app (a b : string) :
  Js.slice_from (String.length a) (a ++ b) = b.
Proof.
  unfold Js.slice_from. induction a as [|ch t IH]; cbn [String.length append].
  - rewrite Nat.sub_0_r. apply substring_all.
  - cbn [substring Nat.sub]. exact IH.
Qed.

Lemma take_id_app (id rest : string) :
  Browser.all_id id = true -> ends_id rest = true ->
  Browser.take_id (id ++ rest) = id.
Proof.
  intros Hi Hr. induction id as [|ch t IH]; cbn [append].
  - destruct rest as [|c r]; [reflexivity |].
    cbn in *. apply negb_true_iff in Hr. now rewrite Hr.
  - cbn [Browser.all_id] in Hi. apply andb_true_iff in Hi. destruct Hi as [Hc Ht].
    cbn [Browser.take_id]. rewrite Hc. now rewrite IH.
Qed.

Lemma prefix_app (a b : string) : prefix a (a ++ b) = true.
Proof.
  induction a as [|ch t IH]; cbn [append]; [apply prefix_empty |].
  cbn [prefix]. destruct (ascii_dec ch ch); [exact IH | congruence].
Qed.

Lemma match_after_here (pre id rest : string) :
  id <> EmptyString -> Browser.all_id id = true -> ends_id rest = true ->
  Browser.match_after pre (pre ++ id ++ rest) = Some id.
Proof.
  intros Hne Hi Hr. rewrite match_after_unfold.
  rewrite prefix_app, slice_from_app, take_id_app by assumption.
  destruct id; [congruence | reflexivity].
Qed.

Lemma folders_not_here (c : ascii) (b tail : string) :
  prefix "/f" (String c b) = false ->
  prefix "/folders/" (String c (b ++ "/folders/" ++ tail)) = false.
Proof.
  cbn [prefix]. destruct (ascii_dec "/" c); [| reflexivity].
  destruct b as [|c2 b']; cbn [append prefix]; [intros _; reflexivity |].
  destruct (ascii_dec "f" c2); [| reflexivity].
  rewrite prefix_empty. discriminate.
Qed.

Lemma match_after_folders (before id rest : string) :
  Js.includes before "/f" = false ->
  id <> EmptyString -> Browser.all_id id = true -> ends_id rest = true ->
  Browser.match_after "/folders/" (before ++ "/folders/" ++ id ++ rest) = Some id.
Proof.
  intros Hb Hne Hi Hr. induction before as [|c b IH].
  - now apply (match_after_here "/folders/").
  - cbn [Js.includes] in Hb. apply orb_false_iff in Hb. destruct Hb as [Hp Hb].
    change (String c b ++ "/folders/" ++ id ++ rest)%string
      with (String c (b ++ "/folders/" ++ id ++ rest)).
    rewrite match_after_unfold.
    rewrite (folders_not_here c b (id ++ rest) Hp). now apply IH.
Qed.

(** X25.  [extractFolderId] gives identifiers only: a result is never
    empty and consists of letters, digits, hyphens and underscores.  A
    string of such characters is its own identifier.  And in an address
    that has [/folders/] followed by an identifier -- with no [/f]
    earlier in the address -- that identifier is the result, whatever
    follows it from the first other character on. *)
Theorem extractFolderId_gives_ids (url : string) :
  (forall id, Browser.extractFolderId url = Some id ->
              id <> EmptyString /\ Browser.all_id id = true) /\
  (Browser.is_bare_id url = true -> Browser.extractFolderId url = Some url) /\
  (forall before id rest,
      url = (before ++ "/folders/" ++ id ++ rest)%string ->
      Js.includes before "/f" = false ->
      id <> EmptyString -> Browser.all_id id = true -> ends_id rest = true ->
      Browser.extractFolderId url = Some id).
Proof.
  split; [| split].
  - intros id. unfold Browser.extractFolderId.
    destruct (Browser.match_after "/folders/" url) as [i1|] eqn:E1.
    { intros H. injection H as <-. now apply (match_after_shape _ _ _ E1). }
    destruct (Browser.match_after "id=" url) as [i2|] eqn:E2.
    { intros H. injection H as <-. now apply (match_after_shape _ _ _ E2). }
    destruct (Browser.match_after "/d/" url) as [i3|] eqn:E3.
    { intros H. injection H as <-. now apply (match_after_shape _ _ _ E3). }
    destruct (Browser.is_bare_id url) eqn:Eb; [| discriminate].
    intros H. injection H as <-. unfold Browser.is_bare_id in Eb.
    destruct url; [discriminate Eb |]. split; [discriminate | exact Eb].
  - intros Hb. unfold Browser.extractFolderId.
    assert (Ha : Browser.all_id url = true)
      by (unfold Browser.is_bare_id in Hb; now destruct url).
    rewrite !match_after_all_id by (exact Ha || reflexivity).
    now rewrite Hb.
  - intros before id rest -> Hb Hne Hi Hr. unfold Browser.extractFolderId.
    now rewrite match_after_folders.
Qed.

Lemma extractFolderId_gives_ids_witness :
  Browser.extractFolderId
    "https://drive.google.com/drive/folders/1AbC-d_9?usp=sharing"
  = Some "1AbC-d_9" /\
  Browser.extractFolderId "1AbC-d_9" = Some "1AbC-d_9".
Proof.
  split.
  - refine (proj2 (proj2 (extractFolderId_gives_ids _))
              "https://drive.google.com/drive" "1AbC-d_9" "?usp=sharing"
              eq_refl eq_refl _ eq_refl eq_refl).
    discriminate.
  - exact (proj1 (proj2 (extractFolderId_gives_ids "1AbC-d_9")) eq_refl).
Defined.


(* ------------------------------------------------------------------ *)
(** *** Identifiers given by [addExternalLibraryFiles] *)

Lemma maxId_fold (l : list AudioRecord) :
  forall m,
    (m <= fold_left (fun m f => Z.max m (Engine.orZ (id f) 0)) l m)%Z /\
    forall r, In r l ->
              (id r <= fold_left (fun m f => Z.max m (Engine.orZ (id f) 0)) l m)%Z.
Proof.
  induction l as [|f rest IH]; intros m; cbn [fold_left].
  - split; [lia | intros r []].
  - destruct (IH (Z.max m (Engine.orZ (id f) 0))) as [Hm Hin].
    rewrite orZ_zero in *. split; [lia |].
    intros r [<- | Hr]; [lia | now apply Hin].
Qed.

Lemma maxId_bound (l : list AudioRecord) (r : AudioRecord) :
  In r l -> (id r <= Engine.maxId l)%Z.
Proof. intros H. now apply (proj2 (maxId_fold l 0%Z)). Qed.

(** Files that come without identifier are numbered from [nextId] on. *)
Lemma normalise_fresh c lib files :
  Forall (fun f => id f = 0%Z) files ->
  forall nextId k,
    map id (fst (Engine.normalise c lib files nextId k))
    = map (fun i => (nextId + Z.of_nat i)%Z) (seq 0 (List.length files)).
Proof.
  induction 1 as [|f rest Hf _ IH]; intros nextId k; [reflexivity |].
  cbn [Engine.normalise]. unfold Engine.normaliseOne. rewrite Hf.
  cbn [Z.eqb]. destruct (Engine.orNow c (dateAdded f) k) as [d k1].
  specialize (IH (nextId + 1)%Z k1).
  destruct (Engine.normalise c lib rest (nextId + 1) k1) as [rest' k2].
  cbn [fst map id List.length seq] in *. rewrite IH, <- seq_shift, map_map.
  f_equal; [lia |]. apply map_ext. intros i. lia.
Qed.

Lemma NoDup_map_filter {A B : Type} (h : A -> B) (p : A -> bool) (l : list A) :
  NoDup (map h l) -> NoDup (map h (filter p l)).
Proof.
  induction l as [|x xs IH]; cbn; intros H; [constructor |].
  inversion H as [|? ? Hx Hxs]; subst.
  destruct (p x); cbn; [| now apply IH].
  constructor; [| now apply IH].
  intros Hin. apply Hx. apply in_map_iff in Hin. destruct Hin as (y & <- & Hy).
  apply in_map. now apply filter_In in Hy.
Qed.

Lemma fresh_ids_NoDup (n : Z) (len : nat) :
  NoDup (map (fun i => (n + Z.of_nat i)%Z) (seq 0 len)).
Proof.
  apply NoDup_map_NoDup_ForallPairs; [| apply seq_NoDup].
  intros i j _ _ H. lia.
Qed.

(** X26.  Files that come without an identifier get identifiers above
    every identifier of the master list, each a different one: when the
    identifiers of the list are pairwise different, they are so after
    [addExternalLibraryFiles] has added such files. *)
Theorem add_external_fresh_ids (c : clock) (saved sheets : Engine.metadata)
  (files : list AudioRecord) (lib : string) (S : list AudioRecord) (k : nat) :
  Forall (fun f => id f = 0%Z) files ->
  NoDup (map id S) ->
  let S' := fst (Engine.addExternalLibraryFiles c saved sheets files lib S k) in
  NoDup (map id S') /\
  exists added,
    S' = S ++ added /\
    Forall (fun r => (Engine.maxId S < id r)%Z) added.
Proof.
  intros Hz HS. unfold Engine.addExternalLibraryFiles.
  destruct files as [|f0 rest] eqn:Ef.
  { cbn. split; [exact HS |]. exists []. now rewrite app_nil_r. }
  rewrite <- Ef in *. clear Ef.
  pose proof (normalise_fresh c lib files Hz (Engine.maxId S + 1)%Z k) as Hn.
  destruct (Engine.normalise c lib files (Engine.maxId S + 1) k) as [normalised k1].
  cbn [fst] in Hn.
  assert (Hnd : NoDup (map id (filter (Engine.isNew S) normalised))).
  { apply NoDup_map_filter. rewrite Hn. apply fresh_ids_NoDup. }
  assert (Hgt : forall i, In i (map id (filter (Engine.isNew S) normalised)) ->
                          (Engine.maxId S < i)%Z).
  { intros i Hi. apply in_map_iff in Hi. destruct Hi as (r & <- & Hr).
    apply filter_In in Hr. destruct Hr as [Hr _].
    assert (Hin : In (id r) (map id normalised)) by now apply in_map.
    rewrite Hn in Hin. apply in_map_iff in Hin. destruct Hin as (j & <- & _). lia. }
  destruct (filter (Engine.isNew S) normalised) as [|n0 ns] eqn:E.
  { cbn. split; [exact HS |]. exists []. now rewrite app_nil_r. }
  pose proof (mergeMetadata_ids c saved sheets (n0 :: ns) k1) as Hm.
  destruct (Engine.mergeMetadata c saved sheets (n0 :: ns) k1) as [merged k2].
  cbn [fst] in *. split.
  - rewrite map_app, Hm. apply NoDup_app; [exact HS | exact Hnd |].
    intros i Hi Hi'. apply Hgt in Hi'.
    apply in_map_iff in Hi. destruct Hi as (r & <- & Hr).
    apply maxId_bound in Hr. lia.
  - exists merged. split; [reflexivity |].
    apply Forall_forall. intros r Hr. apply Hgt. rewrite <- Hm. now apply in_map.
Qed.

Lemma add_external_fresh_ids_witness :
  let unnamed (p : string) :=
    {| id := 0; path := p; name := ""; category := ""; format := ""; size := 0;
       duration := 0; rating := 0; tags := []; description := ""; library := "";
       dateAdded := "" |} in
  let S := manifestOf BoomLibrary noon twinTree in
  let S' := fst (Engine.addExternalLibraryFiles noon noMetadata noMetadata
                   [ unnamed "drive/a.mp3";
                     unnamed "audio/BoomLibrary/Impacts/Wood/hit_01.wav";
                     unnamed "drive/b.flac" ] "Drive" S 0) in
  map id S' = [1; 2; 3; 5]%Z /\ NoDup (map id S').
Proof.
  intros unnamed S S'. split; [reflexivity |].
  refine (proj1 (add_external_fresh_ids noon noMetadata noMetadata _ "Drive" S 0 _ _)).
  - repeat constructor.
  - vm_compute. repeat (constructor; [cbn; intuition discriminate |]). constructor.
Defined.


(* ------------------------------------------------------------------ *)
(** *** The library of a record of the catalogue *)

Lemma mergeOne_library c saved sheets f k :
  library (fst (Engine.mergeOne c saved sheets f k)) = library f.
Proof. unfold Engine.mergeOne. now destruct (Engine.orNow c (dateAdded f) k). Qed.

Lemma mergeMetadata_libraries c saved sheets files :
  forall k,
    map library (fst (Engine.mergeMetadata c saved sheets files k)) = map library files.
Proof.
  induction files as [|f rest IH]; intros k; [reflexivity |].
  cbn [Engine.mergeMetadata].
  pose proof (mergeOne_library c saved sheets f k) as Hp.
  destruct (Engine.mergeOne c saved sheets f k) as [f' k1].
  specialize (IH k1).
  destruct (Engine.mergeMetadata c saved sheets rest k1) as [rest' k2].
  cbn in *. now rewrite Hp, IH.
Qed.

Lemma ensureLibrary_library g f :
  library (Engine.ensureLibrary (Engine.libPath g) f)
  = if Js.truthy (library f) then library f else folder g.
Proof.
  unfold Engine.ensureLibrary.
  destruct (Js.truthy (library f)); [reflexivity |].
  now destruct g.
Qed.

(** X27.  The chain of tests on the address of a manifest names the
    library by the folder the generator wrote into: a record that comes
    without [library] gets the folder name of its manifest, a record that
    has one keeps it.  So in the catalogue built from generated manifests
    every record carries the folder name of its library, whatever metadata
    is stored. *)
Theorem catalogue_libraries (c : clock) (saved sheets : Engine.metadata)
  (fetched : generator -> option (list AudioRecord)) (k : nat) :
  (forall g f,
      library (Engine.ensureLibrary (Engine.libPath g) f)
      = if Js.truthy (library f) then library f else folder g) /\
  (generatedCatalogue fetched ->
   map library (fst (Engine.loadLibraries c saved sheets fetched k))
   = flat_map (fun g => match fetched g with
                        | Some data => map (fun _ => folder g) data
                        | None => []
                        end) Engine.libraryFiles).
Proof.
  split; [exact ensureLibrary_library |].
  intros Hgen.
  assert (E : map library (Engine.loadedFiles fetched)
              = flat_map (fun g => match fetched g with
                                   | Some data => map (fun _ => folder g) data
                                   | None => []
                                   end) Engine.libraryFiles).
  { unfold Engine.loadedFiles. rewrite map_flat_map. apply flat_map_ext.
    intros g. destruct (fetched g) as [data|] eqn:Eg; [| reflexivity].
    destruct (Hgen g data Eg) as (c0 & base & st & _ & Hs & ->).
    apply scan_Made in Hs. rewrite map_map.
    revert Hs. generalize (manifest st). intros l Hs.
    induction Hs as [|r rest Hr _ IH]; [reflexivity |].
    cbn [map]. rewrite IH, ensureLibrary_library. f_equal.
    destruct (Made_fields g r Hr) as (_ & _ & _ & ->).
    now destruct (Js.truthy (folder g)). }
  unfold Engine.loadLibraries.
  destruct (Engine.loadedFiles fetched) as [|f0 rest] eqn:El.
  - cbn [fst map]. exact E.
  - rewrite mergeMetadata_libraries. exact E.
Qed.

Lemma catalogue_libraries_witness :
  map library (fst (Engine.loadLibraries noon noMetadata noMetadata twoLibraries 0))
  = ["FilmCow"; "BoomLibrary"; "BoomLibrary"].
Proof.
  exact (proj2 (catalogue_libraries noon noMetadata noMetadata twoLibraries 0)
           twoLibraries_generated).
Defined.
